(** * FatBvhStrategy: scene flattening, BVH installation and stack sizing

    A shallow embedding of [RadeonRays/src/strategy/fatbvhstrategy.cpp]:
    [FatBvhStrategy::Preprocess] and the four query operations, over an
    explicit model of the compute device (a heap of buffers named by
    handles) and of the C++ integer types the code computes with. *)

From stdpp Require Import base option list gmap strings.
From Stdlib Require Import ZArith Lia.

Local Open Scope Z_scope.

(** ** Machine integers

    [int] is a 32-bit two's complement integer and [std::uint32_t] a 32-bit
    unsigned one; [size_t] is taken 64 bits wide. Values are kept in [Z] and
    every arithmetic result is brought back into the range of its type. *)
Module Int.

Definition int_min : Z := - 2 ^ 31.
Definition int_max : Z := 2 ^ 31 - 1.

Definition to_int (z : Z) : Z := (z + 2 ^ 31) mod 2 ^ 32 - 2 ^ 31.
Definition to_uint32 (z : Z) : Z := z mod 2 ^ 32.
Definition to_size_t (z : Z) : Z := z mod 2 ^ 64.

Definition int_add (a b : Z) : Z := to_int (a + b).
Definition int_sub (a b : Z) : Z := to_int (a - b).
Definition int_mul (a b : Z) : Z := to_int (a * b).

Definition uint32_add (a b : Z) : Z := to_uint32 (a + b).
Definition uint32_sub (a b : Z) : Z := to_uint32 (a - b).
Definition uint32_mul (a b : Z) : Z := to_uint32 (a * b).
Definition uint32_div (a b : Z) : Z := to_uint32 (a / b).

Definition size_t_mul (a b : Z) : Z := to_size_t (a * b).

Definition is_int (z : Z) : Prop := int_min <= z <= int_max.
Definition is_uint32 (z : Z) : Prop := 0 <= z < 2 ^ 32.

End Int.
Export Int.

(** ** Arrays

    [std::vector] and mapped device memory are lists indexed by an [int].
    An access outside the allocated range has no defined behaviour in the
    source; the model makes it a failure ([None]), so that a run that
    returns [Some] performed only valid accesses. *)
Section arrays.
Context {A : Type}.

Definition at_ (v : list A) (i : Z) : option A :=
  if decide (0 <= i) then v !! Z.to_nat i else None.

Definition store (v : list A) (i : Z) (x : A) : option (list A) :=
  if decide (0 <= i < Z.of_nat (length v))
  then Some (<[Z.to_nat i := x]> v) else None.
End arrays.

(** ** Counting loops

    [for (int i = lo; i < hi; ++i) body] over a loop state [S]; the body may
    fail. The trip count is fixed on entry, as in the source where no body
    changes its bound. *)
Section loops.
Context {S : Type}.

Fixpoint for_loop (n : nat) (i : Z) (body : Z → S → option S) (s : S)
  : option S :=
  match n with
  | O => Some s
  | Datatypes.S n' => s' ← body i s; for_loop n' (int_add i 1) body s'
  end.

Definition for_range (lo hi : Z) (body : Z → S → option S) (s : S)
  : option S :=
  for_loop (Z.to_nat (hi - lo)) lo body s.
End loops.

(** ** The two standard algorithms the source calls *)
Section algorithms.
Context {A : Type}.

(** Right-to-left scan of [std::partition]: the last element that satisfies
    [pred], with what precedes and what follows it. *)
Fixpoint find_last (pred : A → bool) (l : list A)
  : option (list A * A * list A) :=
  match l with
  | [] => None
  | x :: t =>
      match find_last pred t with
      | Some (b, y, a) => Some (x :: b, y, a)
      | None => if pred x then Some ([], x, t) else None
      end
  end.

(** [std::partition] for bidirectional iterators: [first] walks right over
    the elements that satisfy [pred], [last] walks left over those that do
    not, the two elements they stop at are exchanged, and the walk goes on
    between them. The result is the rearranged range and the position of
    the returned iterator. *)
Fixpoint partition_walk (fuel : nat) (pred : A → bool) (l : list A)
  : list A * nat :=
  match fuel with
  | O => (l, O)
  | Datatypes.S fuel' =>
      match l with
      | [] => ([], O)
      | x :: t =>
          if pred x then
            let '(r, k) := partition_walk fuel' pred t in (x :: r, Datatypes.S k)
          else
            match find_last pred t with
            | None => (x :: t, O)
            | Some (b, y, a) =>
                let '(r, k) := partition_walk fuel' pred b in
                (y :: r ++ x :: a, Datatypes.S k)
            end
      end
  end.

Definition std_partition (pred : A → bool) (l : list A) : list A * nat :=
  partition_walk (length l) pred l.
End algorithms.

(** [std::upper_bound] on a vector of [int]: binary search for the first
    position whose element is greater than [val]. *)
Fixpoint upper_bound_loop (fuel : nat) (v : list Z) (first len : nat) (val : Z)
  : nat :=
  match fuel with
  | O => first
  | Datatypes.S fuel' =>
      if decide (len = 0)%nat then first
      else
        let half := (len / 2)%nat in
        let middle := (first + half)%nat in
        match v !! middle with
        | Some x =>
            if decide (val < x)
            then upper_bound_loop fuel' v first half val
            else upper_bound_loop fuel' v (middle + 1)%nat (len - half - 1)%nat val
        | None => first
        end
  end.

Definition std_upper_bound (v : list Z) (val : Z) : nat :=
  upper_bound_loop (length v) v 0 (length v) val.

(** The order [std::upper_bound] expects of its range. *)
Definition nondecreasing (v : list Z) : Prop :=
  ∀ i j x y, (i ≤ j)%nat → v !! i = Some x → v !! j = Some y → x <= y.

(** ** Constants of the translation unit *)
Definition kWorkGroupSize : Z := 64.
Definition kMaxStackSize : Z := 48.
Definition kMaxBatchSize : Z := int_mul 1024 1024.
Definition sizeof_int : Z := 4.

(** ** The math library the strategy is written against

    [float3], [matrix], [bbox] and the functions [transform_point] and
    [transform_bbox] are declared outside this translation unit; the strategy
    only moves their values around, so they are an interface here.
    [matrix_init] and [bbox_init] are the default-constructed values. *)
Class MathLib := {
  float3 : Type;
  matrix : Type;
  bbox : Type;
  matrix_init : matrix;
  bbox_init : bbox;
  transform_point : float3 → matrix → float3;
  transform_bbox : bbox → matrix → bbox;
}.

(** Modelled from the spec: [Mesh::Face] (primitive/mesh.h is not part of
    the sources), the three vertex indices of a triangle, relative to the
    vertex array of its mesh. *)
Module MeshFace.
Record t := mk { idx0 : Z; idx1 : Z; idx2 : Z }.
End MeshFace.

(** The [Face] record local to [Preprocess], as laid out in the face buffer.
    Its [padding] member is never written. *)
Module Face.
Record t := mk {
  idx0 : Z; idx1 : Z; idx2 : Z;
  shapeidx : Z;
  id : Z;
  cnt : Z;
}.
End Face.

(** [FatBvhStrategy::ShapeData]. [Preprocess] assigns [id] and [mask]; the
    other members keep the value the vector constructed them with. *)
Module ShapeData.
Record t := mk { id : Z; bvhidx : Z; mask : Z; padding1 : Z }.
Definition init : t := mk 0 0 0 0.
End ShapeData.

(** Device buffers are named by handles; [None] is [nullptr]. *)
Definition handle : Type := positive.
Definition buffer_ptr : Type := option handle.

(** [FatBvhStrategy::GpuData], the buffer members. *)
Module GpuData.
Record t := mk {
  bvh : buffer_ptr;
  vertices : buffer_ptr;
  faces : buffer_ptr;
  shapes : buffer_ptr;
  raycnt : buffer_ptr;
  stack : buffer_ptr;
}.
End GpuData.

(** Modelled from the spec: [Bvh] (accelerator/bvh.h is not part of the
    sources), as far as the strategy consumes it: the leaf-order indices
    [GetIndices()] and [height()]. *)
Record Bvh := { GetIndices : list Z; height : Z }.

(** An argument bound to a kernel by [SetArg]. *)
Inductive KernelArg :=
| ArgBuffer (b : buffer_ptr)
| ArgValue (size : Z) (value : Z).

(** One [Execute] call as the device receives it. *)
Record Dispatch := {
  d_func : string;
  d_args : list KernelArg;
  d_queue : Z;
  d_globalsize : Z;
  d_localsize : Z;
}.

Inductive Outcome :=
| Returned
| Thrown (what : string).

Definition no_stack_memory : string :=
  "fatbvh accelerator can't allocate enough stack memory, try using bvh instead".
Definition stack_overflow : string :=
  "fatbvh accelerator can cause stack overflow for this scene, try using bvh instead".

Section scene.
Context `{MathLib}.

(** Modelled from the spec: [Mesh] and [Instance] (primitive/mesh.h and
    primitive/instance.h are not part of the sources). A mesh owns its
    object-space vertex and face arrays and a world transform; an instance
    refers to a base mesh and carries a transform of its own. *)
Record Mesh := {
  mesh_id : Z;
  mesh_mask : Z;
  mesh_m : matrix;
  mesh_minv : matrix;
  GetVertexData : list float3;
  GetFaceData : list MeshFace.t;
}.

Definition num_faces (mesh : Mesh) : Z := Z.of_nat (length (GetFaceData mesh)).
Definition num_vertices (mesh : Mesh) : Z := Z.of_nat (length (GetVertexData mesh)).

Record Instance := {
  inst_id : Z;
  inst_mask : Z;
  inst_m : matrix;
  inst_minv : matrix;
  GetBaseShape : Mesh;
}.

Inductive Shape :=
| ShapeMesh (mesh : Mesh)
| ShapeInstance (instance : Instance).

Definition is_instance (shape : Shape) : bool :=
  match shape with ShapeMesh _ => false | ShapeInstance _ => true end.

(** [static_cast<Mesh const*>] and [static_cast<Instance const*>]: using
    the result is only defined when the shape has that dynamic type. *)
Definition as_mesh (shape : Shape) : option Mesh :=
  match shape with ShapeMesh m => Some m | ShapeInstance _ => None end.
Definition as_instance (shape : Shape) : option Instance :=
  match shape with ShapeMesh _ => None | ShapeInstance i => Some i end.

(** The mesh whose geometry a shape shows. *)
Definition base_mesh (shape : Shape) : Mesh :=
  match shape with ShapeMesh m => m | ShapeInstance i => GetBaseShape i end.

(** The forward matrix [GetTransform] yields for a shape. *)
Definition transform_of (shape : Shape) : matrix :=
  match shape with ShapeMesh m => mesh_m m | ShapeInstance i => inst_m i end.

Definition kStateChangeNone : Z := 0.

(** Modelled from the spec: [World] (world/world.h is not part of the
    sources): the shape sequence, the value of option [bvh.builder] when it
    is set, and the two change indicators. *)
Record World := {
  shapes_ : list Shape;
  bvh_builder : option string;
  has_changed : bool;
  GetStateChange : Z;
}.
End scene.

Arguments Mesh {_}.
Arguments Instance {_}.
Arguments Shape {_}.
Arguments World {_}.

(** The collaborators of the strategy that live in other translation units:
    per-face bounds of a mesh ([Mesh::GetFaceBounds], world space when
    [objectspace] is [false]), the BVH builder ([Bvh::Build] on a [Bvh]
    constructed with the SAH flag) and [FatNodeBvhTranslator::Process]. *)
Class Collaborators `{MathLib} := {
  Node : Type;
  sizeof_Node : Z;
  sizeof_float3 : Z;
  sizeof_Face : Z;
  sizeof_ShapeData : Z;
  GetFaceBounds : Mesh → Z → bool → bbox;
  Bvh_Build : bool → list bbox → Z → Bvh;
  Translator_Process : Bvh → list Node;
}.

Section strategy.
Context `{Collaborators}.

(** ** The compute device *)

(** Modelled from the spec: [Calc::Device] and [Calc::Buffer] (calc.h is not
    part of the sources). Of the device the strategy uses [GetSpec],
    [CreateBuffer], [DeleteBuffer], map and unmap, and [Execute]. A buffer
    has a byte size and holds what was uploaded or written through its
    mapping; handles are allocation identities and are never handed out
    twice. Events and [Finish] only order the work and carry no state
    here. *)
Inductive Payload :=
| Uninitialised
| Nodes (l : list Node)
| Vertices (l : list (option float3))
| Faces (l : list (option Face.t))
| Shapes (l : list ShapeData.t).

Record Buffer := { GetSize : Z; contents : Payload }.

Record Device := {
  max_alloc_size : Z;
  next_handle : handle;
  buffers : gmap handle Buffer;
  executed : list Dispatch;
}.

(** [CreateBuffer] when the device grants the allocation. A device may
    also refuse one; the runs in which it does are [upload_upto] and
    [relocate_stack_refused] below. *)
Definition CreateBuffer (dev : Device) (size : Z) (init : Payload)
  : buffer_ptr * Device :=
  (Some (next_handle dev),
   {| max_alloc_size := max_alloc_size dev;
      next_handle := (next_handle dev + 1)%positive;
      buffers := <[next_handle dev := {| GetSize := size; contents := init |}]> (buffers dev);
      executed := executed dev |}).

(** Deleting [nullptr] does nothing. *)
Definition DeleteBuffer (dev : Device) (b : buffer_ptr) : Device :=
  match b with
  | None => dev
  | Some h =>
      {| max_alloc_size := max_alloc_size dev;
         next_handle := next_handle dev;
         buffers := delete h (buffers dev);
         executed := executed dev |}
  end.

(** [UnmapBuffer] after a write mapping: the buffer now holds what was
    written through the mapped pointer. *)
Definition UnmapBuffer (dev : Device) (b : buffer_ptr) (data : Payload)
  : option Device :=
  h ← b;
  buf ← buffers dev !! h;
  Some {| max_alloc_size := max_alloc_size dev;
          next_handle := next_handle dev;
          buffers := <[h := {| GetSize := GetSize buf; contents := data |}]> (buffers dev);
          executed := executed dev |}.

Definition Execute (dev : Device) (d : Dispatch) : Device :=
  {| max_alloc_size := max_alloc_size dev;
     next_handle := next_handle dev;
     buffers := buffers dev;
     executed := executed dev ++ [d] |}.

(** ** The strategy object *)
Record Strategy := {
  m_bvh : option Bvh;
  m_gpudata : GpuData.t;
}.

(** The constructor of [GpuData] sets the five primary
    pointers to [nullptr] and leaves [stack] as it finds it. *)
Definition FatBvhStrategy_new (indeterminate : buffer_ptr) : Strategy :=
  {| m_bvh := None;
     m_gpudata := GpuData.mk None None None None None indeterminate |}.

(** ** Preprocess, pass by pass *)

(** The per-shape start offsets and the running totals. *)
Record Offsets := {
  mesh_vertices_start_idx : list Z;
  mesh_faces_start_idx : list Z;
  numvertices : Z;
  numfaces : Z;
}.

Definition count_shape (mesh : Mesh) (i : Z) (o : Offsets) : option Offsets :=
  fs ← store (mesh_faces_start_idx o) i (numfaces o);
  vs ← store (mesh_vertices_start_idx o) i (numvertices o);
  Some {| mesh_vertices_start_idx := vs;
          mesh_faces_start_idx := fs;
          numvertices := int_add (numvertices o) (num_vertices mesh);
          numfaces := int_add (numfaces o) (num_faces mesh) |}.

(** Body of the loop over [0, nummeshes). *)
Definition count_mesh (shapes : list Shape) (i : Z) (o : Offsets)
  : option Offsets :=
  shape ← at_ shapes i;
  mesh ← as_mesh shape;
  count_shape mesh i o.

(** Body of the loop over [nummeshes, nummeshes + numinstances). *)
Definition count_instance (shapes : list Shape) (i : Z) (o : Offsets)
  : option Offsets :=
  shape ← at_ shapes i;
  instance ← as_instance shape;
  count_shape (GetBaseShape instance) i o.

Definition set_id_mask (shapedata : list ShapeData.t) (i : Z) (id mask : Z)
  : option (list ShapeData.t) :=
  sd ← at_ shapedata i;
  store shapedata i
    (ShapeData.mk id (ShapeData.bvhidx sd) mask (ShapeData.padding1 sd)).

(** World-space bounds of the faces of mesh [i]. *)
Definition bounds_mesh (shapes : list Shape) (o : Offsets) (i : Z)
    (st : list bbox * list ShapeData.t) : option (list bbox * list ShapeData.t) :=
  shape ← at_ shapes i;
  mesh ← as_mesh shape;
  bounds ← for_range 0 (num_faces mesh)
              (λ j bounds,
                 start ← at_ (mesh_faces_start_idx o) i;
                 store bounds (int_add start j) (GetFaceBounds mesh j false))
              st.1;
  shapedata ← set_id_mask st.2 i (mesh_id mesh) (mesh_mask mesh);
  Some (bounds, shapedata).

(** Bounds of the faces of instance [i]: object-space bounds of the base
    mesh, moved by the instance's own matrix. *)
Definition bounds_instance (shapes : list Shape) (o : Offsets) (i : Z)
    (st : list bbox * list ShapeData.t) : option (list bbox * list ShapeData.t) :=
  shape ← at_ shapes i;
  instance ← as_instance shape;
  let mesh := GetBaseShape instance in
  let m := inst_m instance in
  bounds ← for_range 0 (num_faces mesh)
              (λ j bounds,
                 let tmp := GetFaceBounds mesh j true in
                 start ← at_ (mesh_faces_start_idx o) i;
                 store bounds (int_add start j) (transform_bbox tmp m))
              st.1;
  shapedata ← set_id_mask st.2 i (inst_id instance) (inst_mask instance);
  Some (bounds, shapedata).

(** The vertex loops share the locals [m] and [minv], declared before the
    first loop (line 306); they are part of the loop state.
    [vertices_mesh] and [vertices_instance] are the loop bodies as one
    thread runs them, an iteration at a time; the loops as a team of OpenMP
    threads runs them are [parallel_for] below. *)
Definition VertexState : Type := (matrix * matrix) * list (option float3).

Definition copy_vertices (myvertexdata : list float3) (n : Z) (o : Offsets)
    (i : Z) (m : matrix) (vertexdata : list (option float3))
  : option (list (option float3)) :=
  for_range 0 n
    (λ j vertexdata,
       start ← at_ (mesh_vertices_start_idx o) i;
       v ← at_ myvertexdata j;
       store vertexdata (int_add start j) (Some (transform_point v m)))
    vertexdata.

Definition vertices_mesh (shapes : list Shape) (o : Offsets) (i : Z)
    (st : VertexState) : option VertexState :=
  shape ← at_ shapes i;
  mesh ← as_mesh shape;
  let myvertexdata := GetVertexData mesh in
  let '(m, minv) := (mesh_m mesh, mesh_minv mesh) in
  vertexdata ← copy_vertices myvertexdata (num_vertices mesh) o i m st.2;
  Some ((m, minv), vertexdata).

Definition vertices_instance (shapes : list Shape) (o : Offsets) (i : Z)
    (st : VertexState) : option VertexState :=
  shape ← at_ shapes i;
  instance ← as_instance shape;
  let mesh := GetBaseShape instance in
  let myvertexdata := GetVertexData mesh in
  let '(m, minv) := (inst_m instance, inst_minv instance) in
  vertexdata ← copy_vertices myvertexdata (num_vertices mesh) o i m st.2;
  Some ((m, minv), vertexdata).

(** Body of the face loop: output position [i] receives the face the BVH
    put there. *)
Definition pack_face (shapes : list Shape) (o : Offsets) (nummeshes : Z)
    (reordering : list Z) (i : Z) (facedata : list (option Face.t))
  : option (list (option Face.t)) :=
  indextolook4 ← at_ reordering i;
  let iter := std_upper_bound (mesh_faces_start_idx o) indextolook4 in
  let shapeidx := to_int (Z.of_nat iter - 1) in
  mesh ← (if decide (shapeidx < nummeshes)
           then shape ← at_ shapes shapeidx; as_mesh shape
           else shape ← at_ shapes shapeidx;
                instance ← as_instance shape;
                Some (GetBaseShape instance));
  let myfacedata := GetFaceData mesh in
  start ← at_ (mesh_faces_start_idx o) shapeidx;
  let faceidx := int_sub indextolook4 start in
  mystartidx ← at_ (mesh_vertices_start_idx o) shapeidx;
  f ← at_ myfacedata faceidx;
  store facedata i
    (Some {| Face.idx0 := int_add (MeshFace.idx0 f) mystartidx;
             Face.idx1 := int_add (MeshFace.idx1 f) mystartidx;
             Face.idx2 := int_add (MeshFace.idx2 f) mystartidx;
             Face.shapeidx := shapeidx;
             Face.id := faceidx;
             Face.cnt := 0 |}).

(** What [Preprocess] has computed when it calls [Bvh::Build]: the working
    shape list, its split point, the offsets, the bounds and the shape
    table. *)
Record Flattened := {
  shapes : list Shape;
  nummeshes : Z;
  numinstances : Z;
  numshapes : Z;
  offsets : Offsets;
  bounds : list bbox;
  shapedata : list ShapeData.t;
}.

(** Partition, counting and bounds building. *)
Definition flatten (world : World) : option Flattened :=
  let numshapes := to_int (Z.of_nat (length (shapes_ world))) in
  let o0 := {| mesh_vertices_start_idx := replicate (Z.to_nat numshapes) 0;
               mesh_faces_start_idx := replicate (Z.to_nat numshapes) 0;
               numvertices := 0;
               numfaces := 0 |} in
  let '(shapes, firstinst) :=
    std_partition (λ shape, negb (is_instance shape)) (shapes_ world) in
  let nummeshes := to_int (Z.of_nat firstinst) in
  let numinstances := to_int (Z.of_nat (length shapes - firstinst)) in
  o1 ← for_range 0 nummeshes (count_mesh shapes) o0;
  o ← for_range nummeshes (int_add nummeshes numinstances)
        (count_instance shapes) o1;
  let bounds0 := replicate (Z.to_nat (numfaces o)) bbox_init in
  let shapedata0 := replicate (Z.to_nat numshapes) ShapeData.init in
  st1 ← for_range 0 nummeshes (bounds_mesh shapes o) (bounds0, shapedata0);
  st ← for_range nummeshes (int_add nummeshes numinstances)
         (bounds_instance shapes o) st1;
  Some {| shapes := shapes;
          nummeshes := nummeshes;
          numinstances := numinstances;
          numshapes := numshapes;
          offsets := o;
          bounds := st.1;
          shapedata := st.2 |}.

(** The vertex pass over the mapped vertex buffer, with both loops run in
    index order: the run of a build without OpenMP, or of a team of one
    thread. *)
Definition write_vertices (flat : Flattened)
    (vertexdata : list (option float3)) : option (list (option float3)) :=
  st1 ← for_range 0 (nummeshes flat)
          (vertices_mesh (shapes flat) (offsets flat))
          ((matrix_init, matrix_init), vertexdata);
  st ← for_range (nummeshes flat)
         (int_add (nummeshes flat) (numinstances flat))
         (vertices_instance (shapes flat) (offsets flat)) st1;
  Some st.2.

(** ** The vertex loops under OpenMP

    Both vertex loops are [#pragma omp parallel for] loops (lines 308 and
    326). [m] and [minv] are declared before them, so the threads of the
    team share them, as they share [vertexdata]; [i], [mesh],
    [myvertexdata] and [j] are declared inside and belong to the iteration.
    An iteration advances in steps: [GetTransform] stores the matrices of
    its shape in the shared [m] and [minv]; each trip of the inner loop
    reads the shared [m] and writes one vertex; the last test of [j] ends
    the iteration. Each step is taken as a whole, the mildest reading of
    unsynchronised accesses to [m]. *)
Inductive Progress :=
| Waiting
| Copying (j : Z)
| Finished.

Definition is_finished (p : Progress) : bool :=
  match p with Finished => true | _ => false end.

(** How the two loops see a shape: the mesh whose vertices are copied and
    what [GetTransform] yields. *)
Definition mesh_view (shape : Shape) : option (Mesh * (matrix * matrix)) :=
  mesh ← as_mesh shape; Some (mesh, (mesh_m mesh, mesh_minv mesh)).

Definition instance_view (shape : Shape) : option (Mesh * (matrix * matrix)) :=
  instance ← as_instance shape;
  Some (GetBaseShape instance, (inst_m instance, inst_minv instance)).

(** The next step of iteration [i], on the state the threads share. *)
Definition vertex_step (view : Shape → option (Mesh * (matrix * matrix)))
    (shapes : list Shape) (o : Offsets) (i : Z) (p : Progress)
    (st : VertexState) : option (Progress * VertexState) :=
  shape ← at_ shapes i;
  '(mesh, transform) ← view shape;
  let myvertexdata := GetVertexData mesh in
  match p with
  | Waiting => Some (Copying 0, (transform, st.2))
  | Copying j =>
      if decide (j < num_vertices mesh) then
        start ← at_ (mesh_vertices_start_idx o) i;
        v ← at_ myvertexdata j;
        vertexdata ← store st.2 (int_add start j)
                       (Some (transform_point v st.1.1));
        Some (Copying (int_add j 1), (st.1, vertexdata))
      else Some (Finished, st)
  | Finished => None
  end.

(** Iteration [i] of a parallel loop that starts at [lo] takes its next
    step. *)
Definition advance (lo : Z)
    (step : Z → Progress → VertexState → option (Progress * VertexState))
    (acc : option (list Progress * VertexState)) (i : Z)
  : option (list Progress * VertexState) :=
  '(progress, st) ← acc;
  p ← at_ progress (i - lo);
  '(p', st') ← step i p st;
  progress' ← store progress (i - lo) p';
  Some (progress', st').

(** A run of a parallel loop over [lo, hi): the schedule names, step by
    step, the iteration that advances, each iteration being run by a thread
    of its own (a team as large as the loop). The loop ends at its barrier,
    when every iteration has finished; [None] is a schedule that is no such
    run, or a step that leaves defined behaviour. *)
Definition parallel_for (lo hi : Z)
    (step : Z → Progress → VertexState → option (Progress * VertexState))
    (schedule : list Z) (st : VertexState) : option VertexState :=
  '(progress, st) ←
    foldl (advance lo step)
      (Some (replicate (Z.to_nat (hi - lo)) Waiting, st)) schedule;
  if forallb is_finished progress then Some st else None.

(** The schedule of a team of one thread: every iteration from its first
    step to its last, in index order. *)
Definition in_order (shapes : list Shape) (lo : Z) (n : nat) : list Z :=
  flat_map (λ k : nat,
              let i := lo + Z.of_nat k in
              match at_ shapes i with
              | Some shape =>
                  replicate (2 + Z.to_nat (num_vertices (base_mesh shape))) i
              | None => []
              end)
    (seq 0 n).

(** The vertex pass with both loops run by a team of threads. *)
Definition write_vertices_parallel (flat : Flattened)
    (meshes instances : list Z) (vertexdata : list (option float3))
  : option (list (option float3)) :=
  st1 ← parallel_for 0 (nummeshes flat)
          (vertex_step mesh_view (shapes flat) (offsets flat)) meshes
          ((matrix_init, matrix_init), vertexdata);
  st ← parallel_for (nummeshes flat)
         (int_add (nummeshes flat) (numinstances flat))
         (vertex_step instance_view (shapes flat) (offsets flat)) instances
         st1;
  Some st.2.

(** The face pass over the mapped face buffer. *)
Definition write_faces (flat : Flattened) (reordering : list Z)
    (facedata : list (option Face.t)) : option (list (option Face.t)) :=
  for_range 0 (numfaces (offsets flat))
    (pack_face (shapes flat) (offsets flat) (nummeshes flat) reordering)
    facedata.

Definition rebuild_needed (self : Strategy) (world : World) : bool :=
  match m_bvh self with
  | None => true
  | Some _ =>
      has_changed world || negb (GetStateChange world =? kStateChangeNone)
  end.

Definition enablesah (world : World) : bool :=
  match bvh_builder world with
  | Some builder => bool_decide (builder = "sah")
  | None => false
  end.

(** The bound of the allocation check,
    [kMaxBatchSize * kMaxStackSize * sizeof(int)]. *)
Definition stack_budget : Z :=
  size_t_mul (to_size_t (int_mul kMaxBatchSize kMaxStackSize)) sizeof_int.

Definition release_primary (dev : Device) (gpu : GpuData.t) : Device :=
  let dev := DeleteBuffer dev (GpuData.bvh gpu) in
  let dev := DeleteBuffer dev (GpuData.vertices gpu) in
  let dev := DeleteBuffer dev (GpuData.faces gpu) in
  let dev := DeleteBuffer dev (GpuData.shapes gpu) in
  DeleteBuffer dev (GpuData.raycnt gpu).

(** The second half of [Preprocess], after the height check: translation
    of the BVH and creation of the six buffers. *)
Definition upload (dev : Device) (flat : Flattened) (bvh : Bvh)
  : option (Device * Strategy) :=
  let o := offsets flat in
  let nodes := Translator_Process bvh in
  let '(b_bvh, dev) :=
    CreateBuffer dev (size_t_mul (Z.of_nat (length nodes)) sizeof_Node)
      (Nodes nodes) in
  let '(b_vertices, dev) :=
    CreateBuffer dev (size_t_mul (to_size_t (numvertices o)) sizeof_float3)
      Uninitialised in
  vertexdata ← write_vertices flat (replicate (Z.to_nat (numvertices o)) None);
  dev ← UnmapBuffer dev b_vertices (Vertices vertexdata);
  let '(b_faces, dev) :=
    CreateBuffer dev (size_t_mul (to_size_t (numfaces o)) sizeof_Face)
      Uninitialised in
  facedata ← write_faces flat (GetIndices bvh)
                (replicate (Z.to_nat (numfaces o)) None);
  dev ← UnmapBuffer dev b_faces (Faces facedata);
  let '(b_shapes, dev) :=
    CreateBuffer dev (size_t_mul (to_size_t (numshapes flat)) sizeof_ShapeData)
      (Shapes (shapedata flat)) in
  let '(b_raycnt, dev) := CreateBuffer dev sizeof_int Uninitialised in
  let '(b_stack, dev) :=
    CreateBuffer dev (to_size_t (int_mul kMaxBatchSize kMaxStackSize))
      Uninitialised in
  Some (dev,
        {| m_bvh := Some bvh;
           m_gpudata := GpuData.mk b_bvh b_vertices b_faces b_shapes
                          b_raycnt b_stack |}).

(** The device after the first block of a rebuild: the five primary
    buffers are deleted when a BVH is installed. *)
Definition released (dev : Device) (self : Strategy) : Device :=
  match m_bvh self with
  | Some _ => release_primary dev (m_gpudata self)
  | None => dev
  end.

(** What [Preprocess] does once the allocation check has passed: flatten
    the scene, build the BVH, check its height, and upload. *)
Definition rebuild (world : World) (dev : Device) (gpu : GpuData.t)
  : option (Outcome * Device * Strategy) :=
  flat ← flatten world;
  let bvh := Bvh_Build (enablesah world) (bounds flat)
               (numfaces (offsets flat)) in
  if decide (height bvh >= kMaxStackSize) then
    Some (Thrown stack_overflow, dev, {| m_bvh := None; m_gpudata := gpu |})
  else
    '(dev, self) ← upload dev flat bvh;
    Some (Returned, dev, self).

(** [FatBvhStrategy::Preprocess]. The result is how the call ended and the
    device and strategy it leaves; [None] when the run leaves defined
    behaviour. *)
Definition Preprocess (world : World) (dev : Device) (self : Strategy)
  : option (Outcome * Device * Strategy) :=
  if rebuild_needed self world then
    let gpu := m_gpudata self in
    let dev := released dev self in
    if decide (max_alloc_size dev <= stack_budget) then
      Some (Thrown no_stack_memory, dev, self)
    else rebuild world dev gpu
  else Some (Returned, dev, self).

(** ** The query operations *)

(** The block every query operation starts with: compare the required
    stack size with the size of the current stack buffer, and replace the
    buffer when it is too small. Reading the size through a pointer that
    names no buffer is not defined. *)
Definition relocate_stack (stack_size : Z) (dev : Device) (self : Strategy)
  : option (Device * Strategy) :=
  let gpu := m_gpudata self in
  h ← GpuData.stack gpu;
  buf ← buffers dev !! h;
  if decide (stack_size > GetSize buf) then
    let dev := DeleteBuffer dev (GpuData.stack gpu) in
    let '(b_stack, dev) := CreateBuffer dev stack_size Uninitialised in
    Some (dev,
          {| m_bvh := m_bvh self;
             m_gpudata := GpuData.mk (GpuData.bvh gpu) (GpuData.vertices gpu)
                            (GpuData.faces gpu) (GpuData.shapes gpu)
                            (GpuData.raycnt gpu) b_stack |})
  else Some (dev, self).

(** [4 * numrays * kMaxStackSize], computed in [std::uint32_t] and then
    widened to [size_t]. *)
Definition required_stack_size (numrays : Z) : Z :=
  to_size_t (uint32_mul (uint32_mul 4 numrays) kMaxStackSize).

(** [((numrays + kWorkGroupSize - 1) / kWorkGroupSize) * kWorkGroupSize]. *)
Definition globalsize (numrays : Z) : Z :=
  to_size_t
    (uint32_mul
       (uint32_div (uint32_sub (uint32_add numrays kWorkGroupSize) 1)
          kWorkGroupSize)
       kWorkGroupSize).

Definition launch (func : string) (count : KernelArg) (queueidx : Z)
    (rays hits : buffer_ptr) (n : Z) (dev : Device) (self : Strategy)
  : Device :=
  let gpu := m_gpudata self in
  Execute dev
    {| d_func := func;
       d_args := [ArgBuffer (GpuData.bvh gpu); ArgBuffer (GpuData.vertices gpu);
                  ArgBuffer (GpuData.faces gpu); ArgBuffer (GpuData.shapes gpu);
                  ArgBuffer rays; ArgValue sizeof_int 0; count;
                  ArgBuffer hits; ArgBuffer (GpuData.stack gpu)];
       d_queue := queueidx;
       d_globalsize := globalsize n;
       d_localsize := to_size_t kWorkGroupSize |}.

Definition QueryIntersection (queueidx : Z) (rays : buffer_ptr) (numrays : Z)
    (hits : buffer_ptr) (dev : Device) (self : Strategy)
  : option (Device * Strategy) :=
  let stack_size := required_stack_size numrays in
  '(dev, self) ← relocate_stack stack_size dev self;
  Some (launch "IntersectClosest" (ArgValue 4 numrays) queueidx rays hits
          numrays dev self, self).

Definition QueryOcclusion (queueidx : Z) (rays : buffer_ptr) (numrays : Z)
    (hits : buffer_ptr) (dev : Device) (self : Strategy)
  : option (Device * Strategy) :=
  let stack_size := required_stack_size numrays in
  '(dev, self) ← relocate_stack stack_size dev self;
  Some (launch "IntersectAny" (ArgValue 4 numrays) queueidx rays hits
          numrays dev self, self).

Definition QueryIntersection_indirect (queueidx : Z) (rays numrays : buffer_ptr)
    (maxrays : Z) (hits : buffer_ptr) (dev : Device) (self : Strategy)
  : option (Device * Strategy) :=
  let stack_size := required_stack_size maxrays in
  '(dev, self) ← relocate_stack stack_size dev self;
  Some (launch "IntersectClosestRC" (ArgBuffer numrays) queueidx rays hits
          maxrays dev self, self).

Definition QueryOcclusion_indirect (queueidx : Z) (rays numrays : buffer_ptr)
    (maxrays : Z) (hits : buffer_ptr) (dev : Device) (self : Strategy)
  : option (Device * Strategy) :=
  let stack_size := required_stack_size maxrays in
  '(dev, self) ← relocate_stack stack_size dev self;
  Some (launch "IntersectAnyRC" (ArgBuffer numrays) queueidx rays hits
          maxrays dev self, self).

(** ** Allocations the device refuses

    Modelled from the spec: a [CreateBuffer] that fails (calc.h is not part
    of the sources). The failure is an exception of the compute layer,
    which neither [Preprocess] nor the query operations catch: the call
    ends where the device refuses, and the strategy is left as the
    statements before have made it. Which allocation is refused is the
    device's choice; a run is described by the number of [CreateBuffer]
    calls the device grants. *)

(** The second half of [Preprocess] when the device grants [grants]
    allocations: with six or more it is [upload]; with fewer the call ends
    at the first one refused. [m_bvh] holds the new BVH since line 191, and
    the pointers of the buffers not yet created are those of [gpu], the
    data the call started with. *)
Definition upload_upto (grants : nat) (dev : Device) (flat : Flattened)
    (bvh : Bvh) (gpu : GpuData.t) : option (Device * Strategy) :=
  let o := offsets flat in
  let nodes := Translator_Process bvh in
  let left (dev : Device) (gpu : GpuData.t) :=
    Some (dev, {| m_bvh := Some bvh; m_gpudata := gpu |}) in
  match grants with
  | 0%nat => left dev gpu
  | S grants =>
  let '(b_bvh, dev) :=
    CreateBuffer dev (size_t_mul (Z.of_nat (length nodes)) sizeof_Node)
      (Nodes nodes) in
  let gpu := GpuData.mk b_bvh (GpuData.vertices gpu) (GpuData.faces gpu)
               (GpuData.shapes gpu) (GpuData.raycnt gpu) (GpuData.stack gpu) in
  match grants with
  | 0%nat => left dev gpu
  | S grants =>
  let '(b_vertices, dev) :=
    CreateBuffer dev (size_t_mul (to_size_t (numvertices o)) sizeof_float3)
      Uninitialised in
  let gpu := GpuData.mk (GpuData.bvh gpu) b_vertices (GpuData.faces gpu)
               (GpuData.shapes gpu) (GpuData.raycnt gpu) (GpuData.stack gpu) in
  vertexdata ← write_vertices flat (replicate (Z.to_nat (numvertices o)) None);
  dev ← UnmapBuffer dev b_vertices (Vertices vertexdata);
  match grants with
  | 0%nat => left dev gpu
  | S grants =>
  let '(b_faces, dev) :=
    CreateBuffer dev (size_t_mul (to_size_t (numfaces o)) sizeof_Face)
      Uninitialised in
  let gpu := GpuData.mk (GpuData.bvh gpu) (GpuData.vertices gpu) b_faces
               (GpuData.shapes gpu) (GpuData.raycnt gpu) (GpuData.stack gpu) in
  facedata ← write_faces flat (GetIndices bvh)
                (replicate (Z.to_nat (numfaces o)) None);
  dev ← UnmapBuffer dev b_faces (Faces facedata);
  match grants with
  | 0%nat => left dev gpu
  | S grants =>
  let '(b_shapes, dev) :=
    CreateBuffer dev (size_t_mul (to_size_t (numshapes flat)) sizeof_ShapeData)
      (Shapes (shapedata flat)) in
  let gpu := GpuData.mk (GpuData.bvh gpu) (GpuData.vertices gpu)
               (GpuData.faces gpu) b_shapes (GpuData.raycnt gpu)
               (GpuData.stack gpu) in
  match grants with
  | 0%nat => left dev gpu
  | S grants =>
  let '(b_raycnt, dev) := CreateBuffer dev sizeof_int Uninitialised in
  let gpu := GpuData.mk (GpuData.bvh gpu) (GpuData.vertices gpu)
               (GpuData.faces gpu) (GpuData.shapes gpu) b_raycnt
               (GpuData.stack gpu) in
  match grants with
  | 0%nat => left dev gpu
  | S _ =>
  let '(b_stack, dev) :=
    CreateBuffer dev (to_size_t (int_mul kMaxBatchSize kMaxStackSize))
      Uninitialised in
  left dev (GpuData.mk (GpuData.bvh gpu) (GpuData.vertices gpu)
              (GpuData.faces gpu) (GpuData.shapes gpu) (GpuData.raycnt gpu)
              b_stack)
  end end end end end end.

(** [Preprocess] ended by a refused allocation, the first after [grants]
    granted ones: the state the exception leaves. [None] when the call
    makes no such allocation (it does not rebuild, or it throws one of its
    own two errors before), or leaves defined behaviour. *)
Definition Preprocess_refused (grants : nat) (world : World) (dev : Device)
    (self : Strategy) : option (Device * Strategy) :=
  if rebuild_needed self world then
    let gpu := m_gpudata self in
    let dev := released dev self in
    if decide (max_alloc_size dev <= stack_budget) then None
    else
      flat ← flatten world;
      let bvh := Bvh_Build (enablesah world) (bounds flat)
                   (numfaces (offsets flat)) in
      if decide (height bvh >= kMaxStackSize) then None
      else if decide (grants < 6)%nat
           then upload_upto grants dev flat bvh gpu
           else None
  else None.

(** The first block of a query operation when the device refuses the new
    stack: the old stack is deleted and the pointer is [nullptr] (lines
    447 and 448) when [CreateBuffer] throws. [None] when the operation does
    not resize, or leaves defined behaviour. *)
Definition relocate_stack_refused (stack_size : Z) (dev : Device)
    (self : Strategy) : option (Device * Strategy) :=
  let gpu := m_gpudata self in
  h ← GpuData.stack gpu;
  buf ← buffers dev !! h;
  if decide (stack_size > GetSize buf) then
    let dev := DeleteBuffer dev (GpuData.stack gpu) in
    Some (dev,
          {| m_bvh := m_bvh self;
             m_gpudata := GpuData.mk (GpuData.bvh gpu) (GpuData.vertices gpu)
                            (GpuData.faces gpu) (GpuData.shapes gpu)
                            (GpuData.raycnt gpu) None |})
  else None.
End strategy.

(** ** Vocabulary of the properties *)

Definition sumZ (l : list Z) : Z := foldr Z.add 0 l.

(** Sum of [f] over the first [k] elements of a list. *)
Definition prefix {A : Type} (f : A → Z) (l : list A) (k : nat) : Z :=
  sumZ (f <$> take k l).

Section contracts.
Context `{Collaborators}.

(** Number of faces, and of vertices, of the first [k] shapes of a list:
    where shape [k] starts in the flattened streams. *)
Definition face_count (shape : Shape) : Z := num_faces (base_mesh shape).
Definition vertex_count (shape : Shape) : Z := num_vertices (base_mesh shape).
Definition face_start (l : list Shape) (k : nat) : Z := prefix face_count l k.
Definition vertex_start (l : list Shape) (k : nat) : Z := prefix vertex_count l k.

(** The scene can be counted in [int]: the number of shapes and the totals
    of faces and of vertices do not exceed [INT_MAX]. *)
Definition fits (world : World) : Prop :=
  Z.of_nat (length (shapes_ world)) <= int_max ∧
  face_start (shapes_ world) (length (shapes_ world)) <= int_max ∧
  vertex_start (shapes_ world) (length (shapes_ world)) <= int_max.

(** The working shape list as [std::partition] leaves it: the first [k]
    shapes are meshes, the others instances. *)
Definition meshes_first (l : list Shape) (k : nat) : Prop :=
  (k ≤ length l)%nat ∧
  Forall (λ shape, is_instance shape = false) (take k l) ∧
  Forall (λ shape, is_instance shape = true) (drop k l).

(** The counting loops have passed the first [i] shapes of [l]. *)
Definition counted (l : list Shape) (i : nat) (o : Offsets) : Prop :=
  length (mesh_faces_start_idx o) = length l ∧
  length (mesh_vertices_start_idx o) = length l ∧
  numfaces o = face_start l i ∧
  numvertices o = vertex_start l i ∧
  ∀ k, (k < i)%nat →
    mesh_faces_start_idx o !! k = Some (face_start l k) ∧
    mesh_vertices_start_idx o !! k = Some (vertex_start l k).

(** The offsets the counting loops end with. *)
Definition offsets_of (l : list Shape) (o : Offsets) : Prop :=
  mesh_faces_start_idx o = face_start l <$> seq 0 (length l) ∧
  mesh_vertices_start_idx o = vertex_start l <$> seq 0 (length l) ∧
  numfaces o = face_start l (length l) ∧
  numvertices o = vertex_start l (length l).

(** What the strategy relies on from [Bvh::GetIndices]: one entry per
    face, each the number of a face. *)
Definition indices_in_range (n : Z) (indices : list Z) : Prop :=
  Z.of_nat (length indices) = n ∧ Forall (λ x, 0 <= x < n) indices.

(** The bound of face [j] of a shape, as the bounds pass computes it. *)
Definition shape_face_bounds (shape : Shape) (j : Z) : bbox :=
  match shape with
  | ShapeMesh mesh => GetFaceBounds mesh j false
  | ShapeInstance instance =>
      transform_bbox (GetFaceBounds (GetBaseShape instance) j true)
        (inst_m instance)
  end.

(** The bounds of the first [i] shapes are in place. *)
Definition bounds_written (l : list Shape) (i : nat) (bounds : list bbox)
  : Prop :=
  ∀ (k : nat) shape j,
    (k < i)%nat → l !! k = Some shape → 0 <= j < face_count shape →
    at_ bounds (face_start l k + j) = Some (shape_face_bounds shape j).

(** The world-space vertices of the first [i] shapes are in place. *)
Definition vertices_written (l : list Shape) (i : nat)
    (vertexdata : list (option float3)) : Prop :=
  ∀ (k : nat) shape j v,
    (k < i)%nat → l !! k = Some shape →
    at_ (GetVertexData (base_mesh shape)) j = Some v →
    at_ vertexdata (vertex_start l k + j)
    = Some (Some (transform_point v (transform_of shape))).

(** The face at output position [i] is the face the BVH put there: its
    shape and number add up to [reordering[i]], its vertex indices are those
    of the base mesh moved by the vertex offset of the shape, and its
    counter is zero. *)
Definition face_packed (l : list Shape) (o : Offsets) (reordering : list Z)
    (i : Z) (f : Face.t) : Prop :=
  ∃ orig shape start vstart mf,
    at_ reordering i = Some orig ∧
    at_ l (Face.shapeidx f) = Some shape ∧
    at_ (mesh_faces_start_idx o) (Face.shapeidx f) = Some start ∧
    start + Face.id f = orig ∧
    at_ (mesh_vertices_start_idx o) (Face.shapeidx f) = Some vstart ∧
    at_ (GetFaceData (base_mesh shape)) (Face.id f) = Some mf ∧
    Face.idx0 f = int_add (MeshFace.idx0 mf) vstart ∧
    Face.idx1 f = int_add (MeshFace.idx1 mf) vstart ∧
    Face.idx2 f = int_add (MeshFace.idx2 mf) vstart ∧
    Face.cnt f = 0.

(** The stable reordering: the meshes in their order in [l], then the
    instances in their order in [l]. *)
Definition stable_reordering (l r : list Shape) : Prop :=
  r = List.filter (λ shape, negb (is_instance shape)) l
      ++ List.filter is_instance l.

(** What [flatten] establishes about its result. *)
Definition well_flattened (world : World) (flat : Flattened) : Prop :=
  ∃ k : nat,
    std_partition (λ shape, negb (is_instance shape)) (shapes_ world)
    = (shapes flat, k) ∧
    shapes flat ≡ₚ shapes_ world ∧
    meshes_first (shapes flat) k ∧
    nummeshes flat = Z.of_nat k ∧
    numinstances flat = Z.of_nat (length (shapes flat) - k) ∧
    numshapes flat = Z.of_nat (length (shapes flat)) ∧
    Z.of_nat (length (shapes flat)) <= int_max ∧
    offsets_of (shapes flat) (offsets flat) ∧
    numfaces (offsets flat) <= int_max ∧
    numvertices (offsets flat) <= int_max ∧
    Z.of_nat (length (bounds flat)) = numfaces (offsets flat) ∧
    length (shapedata flat) = length (shapes flat) ∧
    bounds_written (shapes flat) (length (shapes flat)) (bounds flat).

(** A pointer is live when it names a buffer the device still has. *)
Definition live (dev : Device) (b : buffer_ptr) : bool :=
  match b with
  | Some h => bool_decide (is_Some (buffers dev !! h))
  | None => false
  end.

Definition primary (gpu : GpuData.t) : list buffer_ptr :=
  [GpuData.bvh gpu; GpuData.vertices gpu; GpuData.faces gpu;
   GpuData.shapes gpu; GpuData.raycnt gpu].

Definition holds_no_primary (dev : Device) (self : Strategy) : bool :=
  forallb (λ b, negb (live dev b)) (primary (m_gpudata self)).

(** Size of the buffer a pointer names, and what the buffer holds. *)
Definition size_of (dev : Device) (b : buffer_ptr) : option Z :=
  h ← b; buf ← buffers dev !! h; Some (GetSize buf).

Definition contents_of (dev : Device) (b : buffer_ptr) : option Payload :=
  h ← b; buf ← buffers dev !! h; Some (contents buf).

(** The state a successful upload leaves: the BVH installed, six new
    buffers under the next six handles of the device, holding the translated
    nodes, the two mapped arrays and the shape table, and every older
    buffer as it was. *)
Definition installed (dev : Device) (flat : Flattened) (bvh : Bvh)
    (vertexdata : list (option float3)) (facedata : list (option Face.t))
    (dev' : Device) (self' : Strategy) : Prop :=
  let h := next_handle dev in
  m_bvh self' = Some bvh ∧
  m_gpudata self'
  = GpuData.mk (Some h) (Some (h + 1)%positive) (Some (h + 2)%positive)
      (Some (h + 3)%positive) (Some (h + 4)%positive) (Some (h + 5)%positive) ∧
  next_handle dev' = (h + 6)%positive ∧
  max_alloc_size dev' = max_alloc_size dev ∧
  (∀ h', (h' < h)%positive → buffers dev' !! h' = buffers dev !! h') ∧
  (∀ h', is_Some (buffers dev' !! h') →
         is_Some (buffers dev !! h') ∨ (h ≤ h' < h + 6)%positive) ∧
  contents_of dev' (Some h) = Some (Nodes (Translator_Process bvh)) ∧
  contents_of dev' (Some (h + 1)%positive) = Some (Vertices vertexdata) ∧
  contents_of dev' (Some (h + 2)%positive) = Some (Faces facedata) ∧
  contents_of dev' (Some (h + 3)%positive) = Some (Shapes (shapedata flat)) ∧
  size_of dev' (Some (h + 4)%positive) = Some sizeof_int ∧
  size_of dev' (Some (h + 5)%positive)
  = Some (to_size_t (int_mul kMaxBatchSize kMaxStackSize)).

(** The two facts about a strategy and its device that the failure paths
    of [Preprocess] rest on: a BVH is only ever installed on a device that
    passes the allocation check, and a strategy without a BVH has no live
    primary buffer. *)
Definition settled (dev : Device) (self : Strategy) : Prop :=
  (is_Some (m_bvh self) → stack_budget < max_alloc_size dev) ∧
  (m_bvh self = None → holds_no_primary dev self = true).

(** [settled], with what keeps it true over time: the device hands out
    handles above all those in use, and the primary pointers are handles it
    has handed out. *)
Definition consistent (dev : Device) (self : Strategy) : Prop :=
  settled dev self ∧
  (∀ h, is_Some (buffers dev !! h) → (h < next_handle dev)%positive) ∧
  (∀ h, Some h ∈ primary (m_gpudata self) → (h < next_handle dev)%positive).

(** The six buffers of an installed BVH. They are private to the
    strategy. *)
Definition held (self : Strategy) : list buffer_ptr :=
  match m_bvh self with
  | Some _ => GpuData.stack (m_gpudata self) :: primary (m_gpudata self)
  | None => []
  end.

(** What the application does to the device between the calls: it
    creates, writes and deletes buffers and launches kernels of its own.
    [protected] are buffers it has no access to. *)
Inductive application_step (protected : list buffer_ptr) (dev : Device)
  : Device → Prop :=
| app_CreateBuffer size init :
    application_step protected dev (CreateBuffer dev size init).2
| app_UnmapBuffer b data dev' :
    b ∉ protected → UnmapBuffer dev b data = Some dev' →
    application_step protected dev dev'
| app_DeleteBuffer b :
    b ∉ protected → application_step protected dev (DeleteBuffer dev b)
| app_Execute d :
    application_step protected dev (Execute dev d).

(** The states a strategy and its device go through: construction, then
    any sequence of steps of the application (of which nothing is assumed
    here, not even that it keeps to its own buffers), of [Preprocess] and
    query calls that return or throw, and of [Preprocess] and query calls
    ended by an allocation the device refuses. What the device reports as
    its allocation limit is a constant of the device. *)
Inductive reachable : Device → Strategy → Prop :=
| reach_new dev indeterminate :
    (∀ h, is_Some (buffers dev !! h) → (h < next_handle dev)%positive) →
    reachable dev (FatBvhStrategy_new indeterminate)
| reach_application dev self dev' :
    reachable dev self → application_step [] dev dev' →
    reachable dev' self
| reach_Preprocess world dev self out dev' self' :
    reachable dev self →
    Preprocess world dev self = Some (out, dev', self') →
    reachable dev' self'
| reach_QueryIntersection queueidx rays numrays hits dev self dev' self' :
    reachable dev self →
    QueryIntersection queueidx rays numrays hits dev self = Some (dev', self') →
    reachable dev' self'
| reach_QueryOcclusion queueidx rays numrays hits dev self dev' self' :
    reachable dev self →
    QueryOcclusion queueidx rays numrays hits dev self = Some (dev', self') →
    reachable dev' self'
| reach_QueryIntersection_indirect queueidx rays numrays maxrays hits
    dev self dev' self' :
    reachable dev self →
    QueryIntersection_indirect queueidx rays numrays maxrays hits dev self
    = Some (dev', self') →
    reachable dev' self'
| reach_QueryOcclusion_indirect queueidx rays numrays maxrays hits
    dev self dev' self' :
    reachable dev self →
    QueryOcclusion_indirect queueidx rays numrays maxrays hits dev self
    = Some (dev', self') →
    reachable dev' self'
| reach_Preprocess_refused grants world dev self dev' self' :
    reachable dev self →
    Preprocess_refused grants world dev self = Some (dev', self') →
    reachable dev' self'
| reach_query_refused numrays dev self dev' self' :
    reachable dev self →
    relocate_stack_refused (required_stack_size numrays) dev self
    = Some (dev', self') →
    reachable dev' self'.

(** The states gone through as long as the device has granted every
    allocation and the application has left the six buffers of an
    installed BVH alone: [reachable] without its last two steps. *)
Inductive granted : Device → Strategy → Prop :=
| granted_new dev indeterminate :
    (∀ h, is_Some (buffers dev !! h) → (h < next_handle dev)%positive) →
    granted dev (FatBvhStrategy_new indeterminate)
| granted_application dev self dev' :
    granted dev self → application_step (held self) dev dev' →
    granted dev' self
| granted_Preprocess world dev self out dev' self' :
    granted dev self →
    Preprocess world dev self = Some (out, dev', self') →
    granted dev' self'
| granted_QueryIntersection queueidx rays numrays hits dev self dev' self' :
    granted dev self →
    QueryIntersection queueidx rays numrays hits dev self = Some (dev', self') →
    granted dev' self'
| granted_QueryOcclusion queueidx rays numrays hits dev self dev' self' :
    granted dev self →
    QueryOcclusion queueidx rays numrays hits dev self = Some (dev', self') →
    granted dev' self'
| granted_QueryIntersection_indirect queueidx rays numrays maxrays hits
    dev self dev' self' :
    granted dev self →
    QueryIntersection_indirect queueidx rays numrays maxrays hits dev self
    = Some (dev', self') →
    granted dev' self'
| granted_QueryOcclusion_indirect queueidx rays numrays maxrays hits
    dev self dev' self' :
    granted dev self →
    QueryOcclusion_indirect queueidx rays numrays maxrays hits dev self
    = Some (dev', self') →
    granted dev' self'.

(** ** Further vocabulary *)

(** [GetId()] and [GetMask()] of a shape. *)
Definition shape_id (shape : Shape) : Z :=
  match shape with
  | ShapeMesh mesh => mesh_id mesh
  | ShapeInstance instance => inst_id instance
  end.

Definition shape_mask (shape : Shape) : Z :=
  match shape with
  | ShapeMesh mesh => mesh_mask mesh
  | ShapeInstance instance => inst_mask instance
  end.

(** The record [Preprocess] leaves in the shape table for a shape. *)
Definition shape_record (shape : Shape) : ShapeData.t :=
  ShapeData.mk (shape_id shape) 0 (shape_mask shape) 0.

(** The faces of a mesh name vertices of that mesh. *)
Definition indices_valid (mesh : Mesh) : Prop :=
  Forall (λ f, 0 <= MeshFace.idx0 f < num_vertices mesh ∧
               0 <= MeshFace.idx1 f < num_vertices mesh ∧
               0 <= MeshFace.idx2 f < num_vertices mesh)
    (GetFaceData mesh).

Definition well_indexed (world : World) : Prop :=
  Forall (λ shape, indices_valid (base_mesh shape)) (shapes_ world).

(** The shape table holds the records of the first [i] shapes. *)
Definition records_written (l : list Shape) (i : nat)
    (shapedata : list ShapeData.t) : Prop :=
  ∀ (k : nat) shape,
    (k < i)%nat → l !! k = Some shape →
    shapedata !! k = Some (shape_record shape).


(** What the query operations rely on once a BVH is installed: the BVH
    passed the height check, the five primary buffers are allocated, and
    the stack is a buffer of its own of at least its initial size. *)
Definition ready (dev : Device) (self : Strategy) : Prop :=
  ∀ bvh, m_bvh self = Some bvh →
    height bvh < kMaxStackSize ∧
    (∀ b, b ∈ primary (m_gpudata self) → live dev b = true) ∧
    (GpuData.stack (m_gpudata self) ∉ primary (m_gpudata self)) ∧
    ∃ size, size_of dev (GpuData.stack (m_gpudata self)) = Some size ∧
            to_size_t (int_mul kMaxBatchSize kMaxStackSize) <= size.

(** What a query operation leaves: the BVH and the primary pointers as they
    were, a stack of the larger of its old size and the required one, one
    more launch, of [func] on [queueidx], bound to the primary buffers, the
    caller's buffers and the stack as it is after the size check, and every
    buffer other than a replaced stack untouched. *)
Definition queried (func : string) (count : KernelArg) (queueidx : Z)
    (rays hits : buffer_ptr) (n : Z) (dev : Device) (self : Strategy)
    (dev' : Device) (self' : Strategy) : Prop :=
  let gpu := m_gpudata self in
  m_bvh self' = m_bvh self ∧
  primary (m_gpudata self') = primary gpu ∧
  max_alloc_size dev' = max_alloc_size dev ∧
  (∃ old, size_of dev (GpuData.stack gpu) = Some old ∧
          size_of dev' (GpuData.stack (m_gpudata self'))
          = Some (old `max` required_stack_size n)) ∧
  executed dev'
  = (executed dev ++
    [{| d_func := func;
        d_args := [ArgBuffer (GpuData.bvh gpu); ArgBuffer (GpuData.vertices gpu);
                   ArgBuffer (GpuData.faces gpu); ArgBuffer (GpuData.shapes gpu);
                   ArgBuffer rays; ArgValue 4 0; count; ArgBuffer hits;
                   ArgBuffer (GpuData.stack (m_gpudata self'))];
        d_queue := queueidx;
        d_globalsize := globalsize n;
        d_localsize := 64 |}]) ∧
  ∀ h, Some h ≠ GpuData.stack gpu → h ≠ next_handle dev →
       buffers dev' !! h = buffers dev !! h.
End contracts.

(** ** A concrete scene

    An instance of the interfaces on integer coordinates, used to run the
    model: points are integer triples, a matrix is a translation, and the
    builder is one that leaves a chain (leaf order reversed, height equal to
    the number of faces). *)
Module Example.

Definition vec : Type := Z * Z * Z.
Definition vadd (a b : vec) : vec :=
  (a.1.1 + b.1.1, a.1.2 + b.1.2, a.2 + b.2).
Definition vmin (a b : vec) : vec :=
  (a.1.1 `min` b.1.1, a.1.2 `min` b.1.2, a.2 `min` b.2).
Definition vmax (a b : vec) : vec :=
  (a.1.1 `max` b.1.1, a.1.2 `max` b.1.2, a.2 `max` b.2).

#[export] Instance math : MathLib := {|
  float3 := vec;
  matrix := vec;
  bbox := vec * vec;
  matrix_init := (0, 0, 0);
  bbox_init := ((0, 0, 0), (0, 0, 0));
  transform_point v m := vadd v m;
  transform_bbox b m := (vadd b.1 m, vadd b.2 m);
|}.

Definition face_bounds (mesh : Mesh) (j : Z) (objectspace : bool) : vec * vec :=
  match at_ (GetFaceData mesh) j with
  | Some f =>
      let p k := default (0, 0, 0) (at_ (GetVertexData mesh) k) in
      let a := p (MeshFace.idx0 f) in
      let b := p (MeshFace.idx1 f) in
      let c := p (MeshFace.idx2 f) in
      let box := (vmin a (vmin b c), vmax a (vmax b c)) in
      if objectspace then box else (vadd box.1 (mesh_m mesh), vadd box.2 (mesh_m mesh))
  | None => ((0, 0, 0), (0, 0, 0))
  end.

#[export] Instance collaborators : Collaborators := {|
  Node := Z;
  sizeof_Node := 64;
  sizeof_float3 := 16;
  sizeof_Face := 32;
  sizeof_ShapeData := 112;
  GetFaceBounds := face_bounds;
  Bvh_Build _ bounds n :=
    {| GetIndices := reverse (seqZ 0 n); height := n |};
  Translator_Process bvh := GetIndices bvh;
|}.

Definition triangle : Mesh := {|
  mesh_id := 7; mesh_mask := 1;
  mesh_m := (0, 0, 0); mesh_minv := (0, 0, 0);
  GetVertexData := [(0, 0, 0); (1, 0, 0); (0, 1, 0)];
  GetFaceData := [MeshFace.mk 0 1 2];
|}.

Definition quad : Mesh := {|
  mesh_id := 8; mesh_mask := 1;
  mesh_m := (0, 0, 5); mesh_minv := (0, 0, -5);
  GetVertexData := [(0, 0, 0); (1, 0, 0); (1, 1, 0); (0, 1, 0)];
  GetFaceData := [MeshFace.mk 0 1 2; MeshFace.mk 0 2 3];
|}.

Definition moved_triangle : Instance := {|
  inst_id := 9; inst_mask := 1;
  inst_m := (10, 0, 0); inst_minv := (-10, 0, 0);
  GetBaseShape := triangle;
|}.

Definition world1 : World := {|
  shapes_ := [ShapeInstance moved_triangle; ShapeMesh triangle; ShapeMesh quad];
  bvh_builder := Some "sah";
  has_changed := true;
  GetStateChange := 0;
|}.

Definition device0 (limit : Z) : Device := {|
  max_alloc_size := limit;
  next_handle := 1%positive;
  buffers := ∅;
  executed := [];
|}.

Definition strategy0 : Strategy := FatBvhStrategy_new None.

(** A device on which the application already holds a ray buffer, a hit
    buffer and a ray-count buffer. *)
Definition rays : buffer_ptr := Some 1%positive.
Definition hits : buffer_ptr := Some 2%positive.
Definition raycount : buffer_ptr := Some 3%positive.

Definition device1 (limit : Z) : Device := {|
  max_alloc_size := limit;
  next_handle := 4%positive;
  buffers := {[ 1%positive := {| GetSize := 4096; contents := Uninitialised |};
                2%positive := {| GetSize := 4096; contents := Uninitialised |};
                3%positive := {| GetSize := 4; contents := Uninitialised |} ]};
  executed := [];
|}.

(** A strip of 48 triangles: with the chain builder its BVH is 48 high. *)
Definition strip : Mesh := {|
  mesh_id := 10; mesh_mask := 1;
  mesh_m := (0, 0, 0); mesh_minv := (0, 0, 0);
  GetVertexData := [(0, 0, 0); (1, 0, 0); (0, 1, 0)];
  GetFaceData := replicate 48 (MeshFace.mk 0 1 2);
|}.

Definition world2 : World := {|
  shapes_ := [ShapeMesh strip];
  bvh_builder := None;
  has_changed := true;
  GetStateChange := 0;
|}.

(** The values the runs below go through, computed once. *)
Definition flat0 : Flattened := {|
  shapes := []; nummeshes := 0; numinstances := 0; numshapes := 0;
  offsets := {| mesh_vertices_start_idx := []; mesh_faces_start_idx := [];
                numvertices := 0; numfaces := 0 |};
  bounds := []; shapedata := [];
|}.

Definition flat1 : Flattened := Eval vm_compute in default flat0 (flatten world1).
Definition flat2 : Flattened := Eval vm_compute in default flat0 (flatten world2).

Definition state_of (r : option (Outcome * Device * Strategy))
  : Device * Strategy :=
  match r with
  | Some (_, dev, self) => (dev, self)
  | None => (device0 0, strategy0)
  end.

(** After [Preprocess world1] on a device with a 4 GiB allocation limit. *)
Definition after_first : Device * Strategy :=
  Eval vm_compute in state_of (Preprocess world1 (device1 (2 ^ 32)) strategy0).

(** After a query with 1,000,000 rays in that state. *)
Definition after_query : Device * Strategy :=
  Eval vm_compute in
    default after_first
      (QueryIntersection 0 rays 1000000 hits after_first.1 after_first.2).

(** After [Preprocess world1] again in that state. *)
Definition after_rebuild : Device * Strategy :=
  Eval vm_compute in state_of (Preprocess world1 after_query.1 after_query.2).

(** 192 MiB, the bound of the allocation check. *)
Definition mib192 : Z := 201326592.

(** The smallest ray count whose required stack size does not fit 32
    bits. *)
Definition many_rays : Z := 22369622.

(** After a query with [many_rays] rays, the first after [Preprocess]. *)
Definition after_many : Device * Strategy :=
  Eval vm_compute in
    default after_first
      (QueryIntersection 0 rays many_rays hits after_first.1 after_first.2).

(** After the failing rebuild of the installed BVH for [world2], whose BVH
    is too high. *)
Definition after_high : Device * Strategy :=
  Eval vm_compute in state_of (Preprocess world2 after_first.1 after_first.2).

(** The stack pointer of a strategy after an operation, with the size of
    the buffer it names. *)
Definition stack_after (r : option (Device * Strategy))
  : option (buffer_ptr * Z) :=
  '(dev, self) ← r;
  size ← size_of dev (GpuData.stack (m_gpudata self));
  Some (GpuData.stack (m_gpudata self), size).


(** [world1] when nothing has changed since it was last committed. *)
Definition world1_unchanged : World := {|
  shapes_ := shapes_ world1;
  bvh_builder := bvh_builder world1;
  has_changed := false;
  GetStateChange := kStateChangeNone;
|}.

(** The BVH the chain builder makes of the four faces of [world1]. *)
Definition bvh1 : Bvh := {| GetIndices := [3; 2; 1; 0]; height := 4 |}.

(** A run of the mesh loop of [world1] by two threads: thread 0 has
    iteration 0 (the quad), thread 1 iteration 1 (the triangle), and the
    [GetTransform] of thread 1 comes between the [GetTransform] of thread 0
    and its inner loop. *)
Definition race_schedule : list Z := [0; 1; 0; 0; 0; 0; 0; 1; 1; 1; 1].

(** The instance loop of [world1] has one iteration. *)
Definition instance_schedule : list Z := [2; 2; 2; 2; 2].

Definition raced : list (option float3) :=
  Eval vm_compute in
    default []
      (write_vertices_parallel flat1 race_schedule instance_schedule
         (replicate (Z.to_nat (numvertices (offsets flat1))) None)).

(** After [Preprocess world1] on the same device when the device grants
    three allocations and refuses the fourth. *)
Definition after_refused : Device * Strategy :=
  Eval vm_compute in
    default (device0 0, strategy0)
      (Preprocess_refused 3 world1 (device1 (2 ^ 32)) strategy0).


End Example.



(** * Properties *)

(** ** Machine integers *)

Lemma to_int_id z : is_int z → to_int z = z.
Proof.
  unfold is_int, int_min, int_max, to_int. intros Hz.
  rewrite Z.mod_small; lia.
Qed.

Lemma int_add_exact a b : is_int (a + b) → int_add a b = a + b.
Proof. apply to_int_id. Qed.

Lemma int_sub_exact a b : is_int (a - b) → int_sub a b = a - b.
Proof. apply to_int_id. Qed.

Lemma to_size_t_id z : 0 <= z < 2 ^ 64 → to_size_t z = z.
Proof. intros Hz. unfold to_size_t. apply Z.mod_small. lia. Qed.

Lemma int_max_value : int_max = 2147483647.
Proof. reflexivity. Qed.

Lemma int_min_value : int_min = -2147483648.
Proof. reflexivity. Qed.

Ltac int_range := unfold is_int; rewrite ?int_max_value, ?int_min_value in *; lia.

(** ** Arrays *)
Section array_facts.
Context {A : Type}.
Implicit Types (v : list A) (i : Z) (x : A).

Lemma at_nat v (n : nat) : at_ v (Z.of_nat n) = v !! n.
Proof. unfold at_. rewrite decide_True by lia. by rewrite Nat2Z.id. Qed.

Lemma at_Some v i x :
  at_ v i = Some x ↔ 0 <= i ∧ v !! Z.to_nat i = Some x.
Proof. unfold at_. destruct (decide (0 <= i)); [tauto|]. split; [done|tauto]. Qed.

Lemma at_lt v i x : at_ v i = Some x → 0 <= i < Z.of_nat (length v).
Proof.
  intros [Hi Hl]%at_Some. apply lookup_lt_Some in Hl. lia.
Qed.

Lemma store_Some v i x :
  0 <= i < Z.of_nat (length v) → store v i x = Some (<[Z.to_nat i := x]> v).
Proof. intros Hi. unfold store. by rewrite decide_True. Qed.

Lemma store_inv v i x v' :
  store v i x = Some v' →
  0 <= i < Z.of_nat (length v) ∧ v' = <[Z.to_nat i := x]> v.
Proof.
  unfold store. destruct (decide (0 <= i < Z.of_nat (length v))); [|done].
  by intros [= <-].
Qed.

Lemma at_insert_eq v i x :
  0 <= i < Z.of_nat (length v) → at_ (<[Z.to_nat i := x]> v) i = Some x.
Proof.
  intros Hi. apply at_Some. split; [lia|].
  apply list_lookup_insert_eq. lia.
Qed.

Lemma at_insert_ne v i j x :
  0 <= i → i ≠ j → at_ (<[Z.to_nat i := x]> v) j = at_ v j.
Proof.
  intros Hi Hne. unfold at_. case_decide; [|done].
  apply list_lookup_insert_ne. lia.
Qed.
End array_facts.

(** ** Counting loops: the invariant rule *)
Section loop_facts.
Context {S : Type}.
Implicit Types (body : Z → S → option S) (P : Z → S → Prop).

Lemma for_loop_inv P body n i s :
  is_int (i + Z.of_nat n) → int_min <= i →
  P i s →
  (∀ j t, i <= j < i + Z.of_nat n → P j t →
          ∃ t', body j t = Some t' ∧ P (j + 1) t') →
  ∃ s', for_loop n i body s = Some s' ∧ P (i + Z.of_nat n) s'.
Proof.
  revert i s. induction n as [|n IH]; intros i s Hhi Hlo HP Hstep.
  - exists s. split; [done|]. by rewrite Z.add_0_r.
  - destruct (Hstep i s) as (t & Hbody & HP'); [lia|done|].
    cbn [for_loop]. rewrite Hbody. cbn.
    rewrite int_add_exact by (unfold is_int in *; lia).
    destruct (IH (i + 1) t) as (s' & Hrun & Hend).
    + unfold is_int in *. lia.
    + lia.
    + done.
    + intros j u Hj. apply Hstep. lia.
    + exists s'. split; [done|].
      by replace (i + Z.of_nat (Datatypes.S n)) with (i + 1 + Z.of_nat n) by lia.
Qed.

Lemma for_range_inv P body lo hi s :
  int_min <= lo → lo <= hi → hi <= int_max →
  P lo s →
  (∀ j t, lo <= j < hi → P j t → ∃ t', body j t = Some t' ∧ P (j + 1) t') →
  ∃ s', for_range lo hi body s = Some s' ∧ P hi s'.
Proof.
  intros Hlo Hle Hhi HP Hstep. unfold for_range.
  destruct (for_loop_inv P body (Z.to_nat (hi - lo)) lo s)
    as (s' & Hrun & Hend).
  - unfold is_int. lia.
  - done.
  - done.
  - intros j t Hj. apply Hstep. lia.
  - exists s'. split; [done|].
    by replace (lo + Z.of_nat (Z.to_nat (hi - lo))) with hi in Hend by lia.
Qed.
End loop_facts.

(** ** [std::partition] *)
Section partition_facts.
Context {A : Type} (pred : A → bool).
Implicit Types l r : list A.

Lemma find_last_Some l b y a :
  find_last pred l = Some (b, y, a) →
  l = b ++ y :: a ∧ pred y = true ∧ Forall (λ x, pred x = false) a.
Proof.
  revert b y a. induction l as [|x t IH]; intros b y a; [done|].
  cbn. destruct (find_last pred t) as [[[b' y'] a']|] eqn:Ht.
  - intros [= <- <- <-]. destruct (IH _ _ _ eq_refl) as (-> & ? & ?). done.
  - destruct (pred x) eqn:Hx; [|done]. intros [= <- <- <-].
    split_and!; [done..|].
    clear IH Hx. induction t as [|z t IHt]; [constructor|].
    cbn in Ht. destruct (find_last pred t) as [[[? ?] ?]|]; [done|].
    destruct (pred z) eqn:Hz; [done|]. constructor; auto.
Qed.

Lemma find_last_None l :
  find_last pred l = None → Forall (λ x, pred x = false) l.
Proof.
  induction l as [|x t IH]; [constructor|].
  cbn. destruct (find_last pred t) as [[[? ?] ?]|]; [done|].
  destruct (pred x) eqn:Hx; [done|]. constructor; auto.
Qed.

(** The walk rearranges its range into the elements that satisfy [pred],
    then those that do not, and returns where the second group starts. *)
Lemma partition_walk_spec fuel l r k :
  (length l ≤ fuel)%nat →
  partition_walk fuel pred l = (r, k) →
  r ≡ₚ l ∧ (k ≤ length r)%nat ∧
  Forall (λ x, pred x = true) (take k r) ∧
  Forall (λ x, pred x = false) (drop k r).
Proof.
  revert l r k. induction fuel as [|fuel IH]; intros l r k Hlen.
  - destruct l; [|cbn in Hlen; lia]. intros [= <- <-]. cbn. auto.
  - destruct l as [|x t]; [intros [= <- <-]; cbn; auto|].
    cbn in Hlen. cbn [partition_walk]. destruct (pred x) eqn:Hx.
    + destruct (partition_walk fuel pred t) as [r' k'] eqn:Hw.
      intros [= <- <-]. destruct (IH t r' k') as (Hp & Hk & Ht & Hd);
        [lia|done|].
      split_and!; cbn; [by f_equiv|lia|by constructor|done].
    + destruct (find_last pred t) as [[[b y] a]|] eqn:Hf.
      * apply find_last_Some in Hf as (-> & Hy & Ha).
        destruct (partition_walk fuel pred b) as [r' k'] eqn:Hw.
        intros [= <- <-]. rewrite length_app in Hlen. cbn in Hlen.
        destruct (IH b r' k') as (Hp & Hk & Ht & Hd); [lia|done|].
        split_and!.
        -- rewrite Hp, <- !Permutation_middle. apply perm_swap.
        -- cbn. rewrite length_app. lia.
        -- cbn. rewrite take_app_le by lia. by constructor.
        -- cbn. rewrite drop_app_le by lia.
           apply Forall_app. split; [done|]. by constructor.
      * apply find_last_None in Hf. intros [= <- <-].
        split_and!; cbn; [done|lia|constructor|by constructor].
Qed.

(** A range that is already partitioned is left as it is. *)
Lemma partition_walk_sorted fuel l1 l2 :
  (length (l1 ++ l2) ≤ fuel)%nat →
  Forall (λ x, pred x = true) l1 →
  Forall (λ x, pred x = false) l2 →
  partition_walk fuel pred (l1 ++ l2) = (l1 ++ l2, length l1).
Proof.
  revert l1. induction fuel as [|fuel IH]; intros l1 Hlen H1 H2.
  - destruct l1, l2; cbn in Hlen; try lia. done.
  - destruct l1 as [|x l1].
    + destruct l2 as [|y l2]; [done|]. cbn.
      apply Forall_cons in H2 as [Hy H2]. rewrite Hy.
      destruct (find_last pred l2) as [[[b z] a]|] eqn:Hf; [|done].
      apply find_last_Some in Hf as (-> & Hz & _).
      apply Forall_app in H2 as [_ H2]. apply Forall_cons in H2 as [Hz' _].
      congruence.
    + cbn in *. apply Forall_cons in H1 as [Hx H1]. rewrite Hx.
      rewrite IH; [done|lia|done..].
Qed.
End partition_facts.

(** ** [std::upper_bound] *)

Lemma upper_bound_loop_spec v val fuel first len :
  nondecreasing v →
  (len ≤ fuel)%nat → (first + len ≤ length v)%nat →
  (∀ i x, (i < first)%nat → v !! i = Some x → x <= val) →
  (∀ i x, (first + len ≤ i)%nat → v !! i = Some x → val < x) →
  let r := upper_bound_loop fuel v first len val in
  (r ≤ length v)%nat ∧
  (∀ i x, (i < r)%nat → v !! i = Some x → x <= val) ∧
  (∀ i x, (r ≤ i)%nat → v !! i = Some x → val < x).
Proof.
  intros Hsorted. revert first len.
  induction fuel as [|fuel IH]; intros first len Hfuel Hlen Hlow Hhigh.
  - cbn. assert (len = 0)%nat as -> by lia.
    split_and!; [lia|done|]. intros i x Hi. apply Hhigh. lia.
  - cbn [upper_bound_loop]. destruct (decide (len = 0)%nat) as [->|Hne].
    + cbn. split_and!; [lia|done|]. intros i x Hi. apply Hhigh. lia.
    + assert (len / 2 < len)%nat as Hhalf by (apply Nat.div_lt; lia).
      destruct (lookup_lt_is_Some_2 v (first + len / 2)%nat) as [x Hx]; [lia|].
      rewrite Hx. destruct (decide (val < x)) as [Hlt|Hge].
      * apply IH; [lia|lia|done|].
        intros i y Hi Hy. pose proof (Hsorted _ _ _ _ Hi Hx Hy). lia.
      * apply IH; [lia|lia| |].
        -- intros i y Hi Hy.
           assert (i ≤ first + len / 2)%nat as Hi' by lia.
           pose proof (Hsorted _ _ _ _ Hi' Hy Hx). lia.
        -- intros i y Hi. apply Hhigh. lia.
Qed.

(** On a nondecreasing vector the search returns the position that
    separates the elements up to [val] from the greater ones. *)
Lemma std_upper_bound_spec v val :
  nondecreasing v →
  let r := std_upper_bound v val in
  (r ≤ length v)%nat ∧
  (∀ i x, (i < r)%nat → v !! i = Some x → x <= val) ∧
  (∀ i x, (r ≤ i)%nat → v !! i = Some x → val < x).
Proof.
  intros Hsorted. unfold std_upper_bound.
  apply upper_bound_loop_spec; [done|lia|lia| |].
  - intros i x Hi. lia.
  - intros i x Hi Hx. apply lookup_lt_Some in Hx. lia.
Qed.

(** ** Prefix sums of the face and vertex counts *)
Section prefix_sums.
Context {A : Type} (f : A → Z).
Hypothesis f_nonneg : ∀ a, 0 <= f a.

Lemma prefix_0 l : prefix f l 0 = 0.
Proof. unfold prefix. by rewrite take_0. Qed.

Lemma prefix_S l k a :
  l !! k = Some a → prefix f l (S k) = prefix f l k + f a.
Proof.
  unfold prefix. intros Hk. rewrite (take_S_r _ _ _ Hk), fmap_app.
  change (f <$> [a]) with [f a].
  generalize (f <$> take k l). intros v. unfold sumZ.
  induction v as [|z v IH]; cbn; lia.
Qed.

Lemma prefix_nonneg l k : 0 <= prefix f l k.
Proof.
  unfold prefix, sumZ. generalize (take k l). intros v.
  induction v as [|a v IH]; cbn; [lia|]. specialize (f_nonneg a). lia.
Qed.

Lemma prefix_ge l k : (length l ≤ k)%nat → prefix f l k = prefix f l (length l).
Proof. intros Hk. unfold prefix. by rewrite !take_ge by lia. Qed.

Lemma prefix_mono l k k' : (k ≤ k')%nat → prefix f l k <= prefix f l k'.
Proof.
  induction 1 as [|k' Hle IH]; [lia|].
  destruct (l !! k') as [a|] eqn:Ha.
  - rewrite (prefix_S _ _ _ Ha). specialize (f_nonneg a). lia.
  - apply lookup_ge_None in Ha.
    rewrite (prefix_ge l (S k')), <- (prefix_ge l k') by lia. done.
Qed.

Lemma prefix_perm l l' : l ≡ₚ l' → prefix f l (length l) = prefix f l' (length l').
Proof.
  intros Hp. unfold prefix, sumZ. rewrite !firstn_all.
  induction Hp; cbn; lia.
Qed.
End prefix_sums.

(** ** Loops that fill a segment of an array *)
Section segment.
Context {A : Type}.

Lemma segment_loop (body : Z → list A → option (list A)) (R : Z → A → Prop)
    (start n : Z) (buf : list A) :
  0 <= start → 0 <= n →
  start + n <= Z.of_nat (length buf) → start + n <= int_max →
  (∀ j b, 0 <= j < n → length b = length buf →
          ∃ x, body j b = store b (start + j) x ∧ R j x) →
  ∃ buf', for_range 0 n body buf = Some buf' ∧
    length buf' = length buf ∧
    (∀ j, 0 <= j < n → ∃ x, at_ buf' (start + j) = Some x ∧ R j x) ∧
    (∀ p, ¬ (start <= p < start + n) → at_ buf' p = at_ buf p).
Proof.
  intros Hstart Hn Hlen Hmax Hbody.
  destruct (for_range_inv
    (λ j b, length b = length buf ∧
            (∀ j', 0 <= j' < j → ∃ x, at_ b (start + j') = Some x ∧ R j' x) ∧
            (∀ p, ¬ (start <= p < start + j) → at_ b p = at_ buf p))
    body 0 n buf) as (buf' & Hrun & Hl & Hin & Hout).
  - rewrite int_min_value. lia.
  - done.
  - lia.
  - split_and!; [done| |done]. intros j' Hj'. lia.
  - intros j b Hj (Hl & Hin & Hout).
    destruct (Hbody j b Hj Hl) as (x & -> & HR).
    rewrite store_Some by lia. eexists. split; [done|].
    split_and!.
    + by rewrite length_insert.
    + intros j' Hj'. destruct (decide (j' = j)) as [->|Hne].
      * exists x. split; [|done]. apply at_insert_eq. lia.
      * destruct (Hin j') as (y & Hy & HR'); [lia|].
        exists y. split; [|done]. rewrite at_insert_ne; [done|lia|lia].
    + intros p Hp. rewrite at_insert_ne; [|lia|lia]. apply Hout. lia.
  - exists buf'. split_and!; [done|done| |done].
    intros j Hj. by apply Hin.
Qed.
End segment.

(** ** Counting: the start offsets are the prefix sums *)
Section counting.
Context `{Collaborators}.
Implicit Types (l : list Shape) (o : Offsets).

Lemma face_count_nonneg shape : 0 <= face_count shape.
Proof. unfold face_count, num_faces. lia. Qed.

Lemma vertex_count_nonneg shape : 0 <= vertex_count shape.
Proof. unfold vertex_count, num_vertices. lia. Qed.

Lemma face_start_S l k shape :
  l !! k = Some shape → face_start l (S k) = face_start l k + face_count shape.
Proof. apply prefix_S. Qed.

Lemma vertex_start_S l k shape :
  l !! k = Some shape →
  vertex_start l (S k) = vertex_start l k + vertex_count shape.
Proof. apply prefix_S. Qed.

Lemma face_start_mono l k k' : (k ≤ k')%nat → face_start l k <= face_start l k'.
Proof. apply prefix_mono, face_count_nonneg. Qed.

Lemma vertex_start_mono l k k' :
  (k ≤ k')%nat → vertex_start l k <= vertex_start l k'.
Proof. apply prefix_mono, vertex_count_nonneg. Qed.

Lemma face_start_nonneg l k : 0 <= face_start l k.
Proof. apply prefix_nonneg, face_count_nonneg. Qed.

Lemma vertex_start_nonneg l k : 0 <= vertex_start l k.
Proof. apply prefix_nonneg, vertex_count_nonneg. Qed.

Lemma count_shape_step l (i : nat) shape o :
  l !! i = Some shape →
  face_start l (length l) <= int_max →
  vertex_start l (length l) <= int_max →
  counted l i o →
  ∃ o', count_shape (base_mesh shape) (Z.of_nat i) o = Some o' ∧
        counted l (S i) o'.
Proof.
  intros Hi Hf Hv (Hlf & Hlv & Hnf & Hnv & Hpre).
  pose proof (lookup_lt_Some _ _ _ Hi) as Hlt.
  unfold count_shape. rewrite !store_Some by lia. cbn.
  eexists. split; [done|].
  pose proof (face_start_S _ _ _ Hi) as HfS.
  pose proof (vertex_start_S _ _ _ Hi) as HvS.
  pose proof (face_start_mono l (S i) (length l) ltac:(lia)).
  pose proof (vertex_start_mono l (S i) (length l) ltac:(lia)).
  pose proof (face_start_nonneg l (S i)).
  pose proof (vertex_start_nonneg l (S i)).
  unfold face_count, vertex_count in *.
  split_and!; cbn.
  - by rewrite length_insert.
  - by rewrite length_insert.
  - rewrite Hnf, int_add_exact; [lia|]. int_range.
  - rewrite Hnv, int_add_exact; [lia|]. int_range.
  - intros k Hk. rewrite Nat2Z.id.
    destruct (decide (k = i)) as [->|Hne].
    + rewrite !list_lookup_insert_eq by lia. by rewrite Hnf, Hnv.
    + rewrite !list_lookup_insert_ne by lia. apply Hpre. lia.
Qed.

Lemma counted_full l o :
  counted l (length l) o →
  mesh_faces_start_idx o = face_start l <$> seq 0 (length l) ∧
  mesh_vertices_start_idx o = vertex_start l <$> seq 0 (length l) ∧
  numfaces o = face_start l (length l) ∧
  numvertices o = vertex_start l (length l).
Proof.
  intros (Hlf & Hlv & Hnf & Hnv & Hpre). split_and!; [| |done..].
  - apply list_eq. intros k. rewrite list_lookup_fmap.
    destruct (decide (k < length l)%nat) as [Hk|Hk].
    + rewrite lookup_seq_lt by done. cbn. by apply Hpre.
    + rewrite lookup_seq_ge by lia. cbn. apply lookup_ge_None. lia.
  - apply list_eq. intros k. rewrite list_lookup_fmap.
    destruct (decide (k < length l)%nat) as [Hk|Hk].
    + rewrite lookup_seq_lt by done. cbn. by apply Hpre.
    + rewrite lookup_seq_ge by lia. cbn. apply lookup_ge_None. lia.
Qed.
End counting.

(** ** The passes over the partitioned shape list *)
Section passes.
Context `{Collaborators}.
Implicit Types (l : list Shape) (o : Offsets).

Lemma mesh_before l k (i : nat) shape :
  meshes_first l k → (i < k)%nat → l !! i = Some shape →
  as_mesh shape = Some (base_mesh shape).
Proof.
  intros (_ & Hm & _) Hi Hl.
  assert (is_instance shape = false) as Hs.
  { eapply (Forall_lookup_1 _ _ i) in Hm; [done|].
    by rewrite lookup_take_lt. }
  by destruct shape.
Qed.

Lemma instance_after l k (i : nat) shape :
  meshes_first l k → (k ≤ i)%nat → l !! i = Some shape →
  ∃ instance, as_instance shape = Some instance ∧
              shape = ShapeInstance instance.
Proof.
  intros (_ & _ & Hi) Hk Hl.
  assert (is_instance shape = true) as Hs.
  { eapply (Forall_lookup_1 _ _ (i - k)) in Hi; [done|].
    rewrite lookup_drop. by replace (k + (i - k))%nat with i by lia. }
  destruct shape; [done|]. by eexists.
Qed.

Lemma counting_loops l k o0 :
  meshes_first l k →
  Z.of_nat (length l) <= int_max →
  face_start l (length l) <= int_max →
  vertex_start l (length l) <= int_max →
  counted l 0 o0 →
  ∃ o1 o,
    for_range 0 (Z.of_nat k) (count_mesh l) o0 = Some o1 ∧
    for_range (Z.of_nat k) (Z.of_nat (length l)) (count_instance l) o1 = Some o ∧
    counted l (length l) o.
Proof.
  intros Hmf Hn Hf Hv Hc0. pose proof Hmf as (Hk & _).
  destruct (for_range_inv (λ j o, counted l (Z.to_nat j) o)
              (count_mesh l) 0 (Z.of_nat k) o0) as (o1 & Hrun1 & H1).
  { rewrite int_min_value. lia. } { lia. } { lia. } { done. }
  { intros j o Hj Hc.
    destruct (lookup_lt_is_Some_2 l (Z.to_nat j)) as [shape Hs]; [lia|].
    unfold count_mesh. rewrite (proj2 (at_Some l j shape)) by (split; [lia|done]).
    cbn. rewrite (mesh_before l k (Z.to_nat j) shape) by (done || lia). cbn.
    destruct (count_shape_step l (Z.to_nat j) shape o) as (o' & Ho' & Hc');
      [done..|].
    rewrite Z2Nat.id in Ho' by lia. exists o'. split; [done|].
    by replace (Z.to_nat (j + 1)) with (S (Z.to_nat j)) by lia. }
  destruct (for_range_inv (λ j o, counted l (Z.to_nat j) o)
              (count_instance l) (Z.of_nat k) (Z.of_nat (length l)) o1)
    as (o & Hrun2 & H2).
  { rewrite int_min_value. lia. } { lia. } { lia. } { done. }
  { intros j o Hj Hc.
    destruct (lookup_lt_is_Some_2 l (Z.to_nat j)) as [shape Hs]; [lia|].
    unfold count_instance.
    rewrite (proj2 (at_Some l j shape)) by (split; [lia|done]). cbn.
    destruct (instance_after l k (Z.to_nat j) shape) as (inst & -> & ->);
      [done|lia|done|]. cbn.
    destruct (count_shape_step l (Z.to_nat j) (ShapeInstance inst) o)
      as (o' & Ho' & Hc'); [done..|].
    rewrite Z2Nat.id in Ho' by lia. exists o'. split; [done|].
    by replace (Z.to_nat (j + 1)) with (S (Z.to_nat j)) by lia. }
  exists o1, o. split_and!; [done..|]. by rewrite Nat2Z.id in H2.
Qed.
Lemma counted_full_offsets l o : counted l (length l) o → offsets_of l o.
Proof. apply counted_full. Qed.

Lemma face_start_at l o (i : nat) :
  offsets_of l o → (i < length l)%nat →
  at_ (mesh_faces_start_idx o) (Z.of_nat i) = Some (face_start l i).
Proof.
  intros (-> & _) Hi. rewrite at_nat, list_lookup_fmap.
  by rewrite lookup_seq_lt.
Qed.

Lemma vertex_start_at l o (i : nat) :
  offsets_of l o → (i < length l)%nat →
  at_ (mesh_vertices_start_idx o) (Z.of_nat i) = Some (vertex_start l i).
Proof.
  intros (_ & -> & _) Hi. rewrite at_nat, list_lookup_fmap.
  by rewrite lookup_seq_lt.
Qed.

(** The inner loop of the bounds passes, for the shape at position [i]. *)
Lemma bounds_inner l o (i : nat) shape bounds :
  offsets_of l o → numfaces o <= int_max →
  l !! i = Some shape →
  Z.of_nat (length bounds) = numfaces o →
  bounds_written l i bounds →
  ∃ bounds',
    for_range 0 (face_count shape)
      (λ j b, start ← at_ (mesh_faces_start_idx o) (Z.of_nat i);
              store b (int_add start j) (shape_face_bounds shape j))
      bounds = Some bounds' ∧
    length bounds' = length bounds ∧
    bounds_written l (S i) bounds'.
Proof.
  intros Ho Hmax Hi Hlen Hw.
  pose proof (lookup_lt_Some _ _ _ Hi) as Hlt.
  pose proof Ho as (_ & _ & Hnf & _).
  pose proof (face_start_S _ _ _ Hi) as HS.
  pose proof (face_start_mono l (S i) (length l) ltac:(lia)) as Hm.
  pose proof (face_start_nonneg l i) as H0'.
  pose proof (face_count_nonneg shape) as Hc.
  destruct (segment_loop
    (λ j b, start ← at_ (mesh_faces_start_idx o) (Z.of_nat i);
            store b (int_add start j) (shape_face_bounds shape j))
    (λ j x, x = shape_face_bounds shape j)
    (face_start l i) (face_count shape) bounds)
    as (bounds' & Hrun & Hl' & Hin & Hout); [lia..| |].
  { intros j b Hj Hb. eexists. split; [|done].
    rewrite (face_start_at l o i) by done. cbn.
    rewrite int_add_exact; [done|]. int_range. }
  exists bounds'. split_and!; [done..|].
  intros k shape' j Hk Hk' Hj.
  destruct (decide (k = i)) as [->|Hne].
  - assert (shape' = shape) as -> by congruence.
    destruct (Hin j Hj) as (x & Hx & ->). done.
  - rewrite Hout; [apply Hw; [lia|done..]|].
    pose proof (face_start_S _ _ _ Hk') as HS'.
    pose proof (face_start_mono l (S k) i ltac:(lia)). lia.
Qed.

Lemma set_id_mask_Some (shapedata : list ShapeData.t) (i : nat) id mask :
  (i < length shapedata)%nat →
  ∃ shapedata', set_id_mask shapedata (Z.of_nat i) id mask = Some shapedata' ∧
                length shapedata' = length shapedata.
Proof.
  intros Hi. unfold set_id_mask. rewrite at_nat.
  destruct (lookup_lt_is_Some_2 shapedata i Hi) as [sd ->]. cbn.
  rewrite store_Some by lia. eexists. split; [done|].
  by rewrite length_insert.
Qed.

(** Both bounds loops, run one after the other over the partitioned list. *)
Lemma bounds_loops l k o bounds0 shapedata0 :
  meshes_first l k → offsets_of l o →
  Z.of_nat (length l) <= int_max → numfaces o <= int_max →
  Z.of_nat (length bounds0) = numfaces o →
  length shapedata0 = length l →
  ∃ st1 st,
    for_range 0 (Z.of_nat k) (bounds_mesh l o) (bounds0, shapedata0) = Some st1 ∧
    for_range (Z.of_nat k) (Z.of_nat (length l)) (bounds_instance l o) st1
    = Some st ∧
    Z.of_nat (length st.1) = numfaces o ∧
    length st.2 = length l ∧
    bounds_written l (length l) st.1.
Proof.
  intros Hmf Ho Hn Hmax Hlb Hls. pose proof Hmf as (Hk & _).
  set (P := λ (j : Z) (st : list bbox * list ShapeData.t),
         Z.of_nat (length st.1) = numfaces o ∧ length st.2 = length l ∧
         bounds_written l (Z.to_nat j) st.1).
  destruct (for_range_inv P (bounds_mesh l o) 0 (Z.of_nat k)
              (bounds0, shapedata0)) as (st1 & Hrun1 & H1).
  { rewrite int_min_value. lia. } { lia. } { lia. }
  { split_and!; [done..|]. intros ? ? ? ?. lia. }
  { intros j [b sd] Hj (Hb & Hsd & Hw). cbn in Hb, Hsd, Hw.
    destruct (lookup_lt_is_Some_2 l (Z.to_nat j)) as [shape Hs]; [lia|].
    unfold bounds_mesh.
    rewrite (proj2 (at_Some l j shape)) by (split; [lia|done]). cbn.
    pose proof (mesh_before l k (Z.to_nat j) shape Hmf ltac:(lia) Hs) as Hm.
    destruct shape as [mesh|]; [|done]. cbn.
    destruct (bounds_inner l o (Z.to_nat j) (ShapeMesh mesh) b)
      as (b' & Hrun & Hl' & Hw'); [done..|].
    rewrite Z2Nat.id in Hrun by lia. cbn in Hrun.
    change (num_faces mesh) with (face_count (ShapeMesh mesh)).
    rewrite Hrun. cbn.
    destruct (set_id_mask_Some sd (Z.to_nat j) (mesh_id mesh) (mesh_mask mesh))
      as (sd' & Hsd' & Hlsd); [lia|].
    rewrite Z2Nat.id in Hsd' by lia. rewrite Hsd'. cbn.
    eexists. split; [done|]. split_and!; cbn; [lia|lia|].
    by replace (Z.to_nat (j + 1)) with (S (Z.to_nat j)) by lia. }
  destruct (for_range_inv P (bounds_instance l o) (Z.of_nat k)
              (Z.of_nat (length l)) st1) as (st & Hrun2 & H2).
  { rewrite int_min_value. lia. } { lia. } { lia. } { done. }
  { intros j [b sd] Hj (Hb & Hsd & Hw). cbn in Hb, Hsd, Hw.
    destruct (lookup_lt_is_Some_2 l (Z.to_nat j)) as [shape Hs]; [lia|].
    unfold bounds_instance.
    rewrite (proj2 (at_Some l j shape)) by (split; [lia|done]). cbn.
    destruct (instance_after l k (Z.to_nat j) shape) as (inst & Hi' & ->);
      [done|lia|done|]. cbn.
    destruct (bounds_inner l o (Z.to_nat j) (ShapeInstance inst) b)
      as (b' & Hrun & Hl' & Hw'); [done..|].
    rewrite Z2Nat.id in Hrun by lia. cbn in Hrun.
    change (num_faces (GetBaseShape inst))
      with (face_count (ShapeInstance inst)).
    rewrite Hrun. cbn.
    destruct (set_id_mask_Some sd (Z.to_nat j) (inst_id inst) (inst_mask inst))
      as (sd' & Hsd' & Hlsd); [lia|].
    rewrite Z2Nat.id in Hsd' by lia. rewrite Hsd'. cbn.
    eexists. split; [done|]. split_and!; cbn; [lia|lia|].
    by replace (Z.to_nat (j + 1)) with (S (Z.to_nat j)) by lia. }
  exists st1, st. destruct H2 as (? & ? & Hw). split_and!; [done..|].
  by rewrite Nat2Z.id in Hw.
Qed.
Lemma std_partition_meshes_first (l r : list Shape) k :
  std_partition (λ shape, negb (is_instance shape)) l = (r, k) →
  r ≡ₚ l ∧ meshes_first r k.
Proof.
  intros Hp. apply partition_walk_spec in Hp as (Hperm & Hk & Ht & Hd); [|done].
  split; [done|]. split_and!; [done| |].
  - eapply Forall_impl; [exact Ht|]. intros shape. by destruct shape.
  - eapply Forall_impl; [exact Hd|]. intros shape. by destruct shape.
Qed.

(** [flatten] runs to completion on every scene that can be counted. *)
Lemma flatten_spec world :
  fits world → ∃ flat, flatten world = Some flat ∧ well_flattened world flat.
Proof.
  intros (Hn & Hf & Hv). unfold flatten.
  destruct (std_partition _ (shapes_ world)) as [l k] eqn:Hp.
  destruct (std_partition_meshes_first _ _ _ Hp) as (Hperm & Hmf).
  pose proof Hmf as (Hk & _).
  pose proof (Permutation_length Hperm) as Hlen.
  assert (face_start l (length l) <= int_max) as Hf'.
  { unfold face_start in *. by rewrite (prefix_perm _ _ _ Hperm). }
  assert (vertex_start l (length l) <= int_max) as Hv'.
  { unfold vertex_start in *. by rewrite (prefix_perm _ _ _ Hperm). }
  rewrite <- Hlen in *.
  rewrite !(to_int_id (Z.of_nat (length l))) by int_range.
  rewrite !(to_int_id (Z.of_nat k)) by int_range.
  rewrite !(to_int_id (Z.of_nat (length l - k))) by int_range.
  rewrite int_add_exact by int_range.
  replace (Z.of_nat k + Z.of_nat (length l - k)) with (Z.of_nat (length l))
    by lia.
  rewrite Nat2Z.id.
  destruct (counting_loops l k
    {| mesh_vertices_start_idx := replicate (length l) 0;
       mesh_faces_start_idx := replicate (length l) 0;
       numvertices := 0; numfaces := 0 |}) as (o1 & o & -> & Hrun & Hc);
    [done..| |].
  { split_and!; cbn; [by rewrite length_replicate..| | |intros; lia].
    - unfold face_start. by rewrite prefix_0.
    - unfold vertex_start. by rewrite prefix_0. }
  cbn. rewrite Hrun. cbn.
  apply counted_full_offsets in Hc. pose proof Hc as (_ & _ & Hnf & Hnv).
  pose proof (face_start_nonneg l (length l)).
  destruct (bounds_loops l k o
    (replicate (Z.to_nat (numfaces o)) bbox_init)
    (replicate (length l) ShapeData.init)) as (st1 & st & -> & Hrun' & Hb);
    [done|done|done|lia| |by rewrite length_replicate|].
  { rewrite length_replicate. lia. }
  cbn. rewrite Hrun'. cbn. eexists. split; [done|].
  exists k. destruct Hb as (? & ? & ?). cbn.
  split_and!; try done; lia.
Qed.
(** The inner loop of the vertex passes, for the shape at position [i]. *)
Lemma vertices_inner l o (i : nat) shape vertexdata :
  offsets_of l o → numvertices o <= int_max →
  l !! i = Some shape →
  Z.of_nat (length vertexdata) = numvertices o →
  vertices_written l i vertexdata →
  ∃ vertexdata',
    copy_vertices (GetVertexData (base_mesh shape)) (vertex_count shape) o
      (Z.of_nat i) (transform_of shape) vertexdata = Some vertexdata' ∧
    length vertexdata' = length vertexdata ∧
    vertices_written l (S i) vertexdata'.
Proof.
  intros Ho Hmax Hi Hlen Hw.
  pose proof (lookup_lt_Some _ _ _ Hi) as Hlt.
  pose proof Ho as (_ & _ & _ & Hnv).
  pose proof (vertex_start_S _ _ _ Hi) as HS.
  pose proof (vertex_start_mono l (S i) (length l) ltac:(lia)) as Hm.
  pose proof (vertex_start_nonneg l i) as H0'.
  pose proof (vertex_count_nonneg shape) as Hc.
  unfold copy_vertices.
  destruct (segment_loop
    (λ j vd, start ← at_ (mesh_vertices_start_idx o) (Z.of_nat i);
             v ← at_ (GetVertexData (base_mesh shape)) j;
             store vd (int_add start j)
               (Some (transform_point v (transform_of shape))))
    (λ j x, ∃ v, at_ (GetVertexData (base_mesh shape)) j = Some v ∧
                 x = Some (transform_point v (transform_of shape)))
    (vertex_start l i) (vertex_count shape) vertexdata)
    as (vd' & Hrun & Hl' & Hin & Hout); [lia..| |].
  { intros j b Hj Hb.
    destruct (lookup_lt_is_Some_2 (GetVertexData (base_mesh shape)) (Z.to_nat j))
      as [v Hv]; [unfold vertex_count, num_vertices in Hj; lia|].
    assert (at_ (GetVertexData (base_mesh shape)) j = Some v) as Hv'
      by (apply at_Some; split; [lia|done]).
    eexists. split; [|by exists v].
    rewrite (vertex_start_at l o i) by done. cbn. rewrite Hv'. cbn.
    rewrite int_add_exact; [done|]. int_range. }
  exists vd'. split_and!; [done..|].
  intros k shape' j v Hk Hk' Hv.
  destruct (decide (k = i)) as [->|Hne].
  - assert (shape' = shape) as -> by congruence.
    pose proof (at_lt _ _ _ Hv) as Hj.
    destruct (Hin j) as (x & Hx & v' & Hv' & ->); [done|].
    rewrite Hx. congruence.
  - pose proof (at_lt _ _ _ Hv) as Hj.
    rewrite Hout; [apply Hw; [lia|done..]|].
    pose proof (vertex_start_S _ _ _ Hk') as HS'.
    pose proof (vertex_start_mono l (S k) i ltac:(lia)).
    unfold vertex_count, num_vertices in HS'. lia.
Qed.

(** Both vertex loops. *)
Lemma vertex_loops l k o (st0 : VertexState) :
  meshes_first l k → offsets_of l o →
  Z.of_nat (length l) <= int_max → numvertices o <= int_max →
  Z.of_nat (length st0.2) = numvertices o →
  ∃ st1 st,
    for_range 0 (Z.of_nat k) (vertices_mesh l o) st0 = Some st1 ∧
    for_range (Z.of_nat k) (Z.of_nat (length l)) (vertices_instance l o) st1
    = Some st ∧
    Z.of_nat (length st.2) = numvertices o ∧
    vertices_written l (length l) st.2.
Proof.
  intros Hmf Ho Hn Hmax Hlv. pose proof Hmf as (Hk & _).
  set (P := λ (j : Z) (st : VertexState),
         Z.of_nat (length st.2) = numvertices o ∧
         vertices_written l (Z.to_nat j) st.2).
  destruct (for_range_inv P (vertices_mesh l o) 0 (Z.of_nat k) st0)
    as (st1 & Hrun1 & H1).
  { rewrite int_min_value. lia. } { lia. } { lia. }
  { split; [done|]. intros ? ? ? ? ?. lia. }
  { intros j [mm vd] Hj (Hvd & Hw). cbn in Hvd, Hw.
    destruct (lookup_lt_is_Some_2 l (Z.to_nat j)) as [shape Hs]; [lia|].
    unfold vertices_mesh.
    rewrite (proj2 (at_Some l j shape)) by (split; [lia|done]). cbn.
    pose proof (mesh_before l k (Z.to_nat j) shape Hmf ltac:(lia) Hs) as Hm.
    destruct shape as [mesh|]; [|done]. cbn.
    destruct (vertices_inner l o (Z.to_nat j) (ShapeMesh mesh) vd)
      as (vd' & Hrun & Hl' & Hw'); [done..|].
    rewrite Z2Nat.id in Hrun by lia. cbn in Hrun.
    change (num_vertices mesh) with (vertex_count (ShapeMesh mesh)).
    rewrite Hrun. cbn.
    eexists. split; [done|]. split; cbn; [lia|].
    by replace (Z.to_nat (j + 1)) with (S (Z.to_nat j)) by lia. }
  destruct (for_range_inv P (vertices_instance l o) (Z.of_nat k)
              (Z.of_nat (length l)) st1) as (st & Hrun2 & H2).
  { rewrite int_min_value. lia. } { lia. } { lia. } { done. }
  { intros j [mm vd] Hj (Hvd & Hw). cbn in Hvd, Hw.
    destruct (lookup_lt_is_Some_2 l (Z.to_nat j)) as [shape Hs]; [lia|].
    unfold vertices_instance.
    rewrite (proj2 (at_Some l j shape)) by (split; [lia|done]). cbn.
    destruct (instance_after l k (Z.to_nat j) shape) as (inst & Hi' & ->);
      [done|lia|done|]. cbn.
    destruct (vertices_inner l o (Z.to_nat j) (ShapeInstance inst) vd)
      as (vd' & Hrun & Hl' & Hw'); [done..|].
    rewrite Z2Nat.id in Hrun by lia. cbn in Hrun.
    change (num_vertices (GetBaseShape inst))
      with (vertex_count (ShapeInstance inst)).
    rewrite Hrun. cbn.
    eexists. split; [done|]. split; cbn; [lia|].
    by replace (Z.to_nat (j + 1)) with (S (Z.to_nat j)) by lia. }
  exists st1, st. destruct H2 as (? & Hw). split_and!; [done..|].
  by rewrite Nat2Z.id in Hw.
Qed.

Lemma write_vertices_spec world flat :
  well_flattened world flat →
  ∃ vertexdata,
    write_vertices flat
      (replicate (Z.to_nat (numvertices (offsets flat))) None)
    = Some vertexdata ∧
    Z.of_nat (length vertexdata) = numvertices (offsets flat) ∧
    vertices_written (shapes flat) (length (shapes flat)) vertexdata.
Proof.
  intros (k & _ & _ & Hmf & Hnm & Hni & _ & Hn & Ho & _ & Hnv & _).
  pose proof Hmf as (Hk & _). pose proof Ho as (_ & _ & _ & Hnv').
  pose proof (vertex_start_nonneg (shapes flat) (length (shapes flat))).
  unfold write_vertices. rewrite Hnm, Hni.
  rewrite int_add_exact by int_range.
  replace (Z.of_nat k + Z.of_nat (length (shapes flat) - k))
    with (Z.of_nat (length (shapes flat))) by lia.
  destruct (vertex_loops (shapes flat) k (offsets flat)
    ((matrix_init, matrix_init),
     replicate (Z.to_nat (numvertices (offsets flat))) None))
    as (st1 & st & -> & Hrun & Hl & Hw); [done..| |].
  { cbn. rewrite length_replicate. lia. }
  cbn. rewrite Hrun. cbn. by exists st.2.
Qed.
(** The face start offsets are in the order [std::upper_bound] needs. *)
Lemma face_starts_nondecreasing l o :
  offsets_of l o → nondecreasing (mesh_faces_start_idx o).
Proof.
  intros (-> & _) i j x y Hij Hi Hj.
  rewrite list_lookup_fmap in Hi, Hj.
  destruct (seq 0 (length l) !! i) as [i'|] eqn:Hi'; [|done].
  destruct (seq 0 (length l) !! j) as [j'|] eqn:Hj'; [|done].
  apply lookup_seq in Hi' as [-> _]. apply lookup_seq in Hj' as [-> _].
  cbn in Hi, Hj. injection Hi as <-. injection Hj as <-.
  by apply face_start_mono.
Qed.

(** The search finds the shape a face number belongs to. *)
Lemma locate_shape l o orig :
  offsets_of l o → 0 <= orig < numfaces o →
  ∃ (k : nat) shape,
    std_upper_bound (mesh_faces_start_idx o) orig = S k ∧
    l !! k = Some shape ∧
    face_start l k <= orig < face_start l k + face_count shape.
Proof.
  intros Ho Horig.
  destruct (std_upper_bound_spec (mesh_faces_start_idx o) orig)
    as (Hr & Hlow & Hhigh); [by eapply face_starts_nondecreasing|].
  set (r := std_upper_bound (mesh_faces_start_idx o) orig) in *.
  pose proof Ho as (Hfs & _ & Hnf & _).
  assert (length (mesh_faces_start_idx o) = length l) as Hlen
    by (by rewrite Hfs, length_fmap, length_seq).
  assert (∀ i, (i < length l)%nat →
            mesh_faces_start_idx o !! i = Some (face_start l i)) as Hat.
  { intros i Hi. rewrite <- at_nat. by eapply face_start_at. }
  assert (length l ≠ 0)%nat as Hn.
  { intros Hz. rewrite Hz in Hnf. unfold face_start in Hnf.
    rewrite prefix_0 in Hnf. lia. }
  assert (r ≠ 0)%nat as Hr0.
  { intros Hz. specialize (Hhigh 0%nat (face_start l 0) ltac:(lia)).
    unfold face_start in Hhigh at 2. rewrite prefix_0 in Hhigh.
    specialize (Hhigh (Hat 0%nat ltac:(lia))). lia. }
  destruct r as [|k] eqn:Er; [done|]. clear Hr0.
  destruct (lookup_lt_is_Some_2 l k) as [shape Hs]; [lia|].
  exists k, shape. split_and!; [done..| |].
  - apply (Hlow k); [lia|]. apply Hat. lia.
  - rewrite <- (face_start_S _ _ _ Hs).
    destruct (decide (S k < length l)%nat) as [Hlt|Hge].
    + apply (Hhigh (S k)); [lia|]. by apply Hat.
    + replace (S k) with (length l) by lia. lia.
Qed.

(** One turn of the face loop. *)
Lemma pack_face_step l k o reordering i facedata :
  meshes_first l k → offsets_of l o →
  Z.of_nat (length l) <= int_max →
  numfaces o <= int_max → numvertices o <= int_max →
  indices_in_range (numfaces o) reordering →
  0 <= i < numfaces o →
  ∃ x, pack_face l o (Z.of_nat k) reordering i facedata
       = store facedata (0 + i) x ∧
       ∃ f, x = Some f ∧ face_packed l o reordering i f.
Proof.
  intros Hmf Ho Hn Hmaxf Hmaxv (Hlen & Hrange) Hi.
  destruct (lookup_lt_is_Some_2 reordering (Z.to_nat i)) as [orig Horig];
    [lia|].
  assert (at_ reordering i = Some orig) as Horig'
    by (apply at_Some; split; [lia|done]).
  pose proof (Forall_lookup_1 _ _ _ _ Hrange Horig) as Hor. cbn in Hor.
  destruct (locate_shape l o orig Ho Hor) as (s & shape & Hub & Hs & Hin).
  pose proof (lookup_lt_Some _ _ _ Hs) as Hlt.
  unfold pack_face. rewrite Horig'. cbn. rewrite Hub.
  replace (Z.of_nat (S s) - 1) with (Z.of_nat s) by lia.
  rewrite to_int_id by int_range.
  rewrite (at_nat l), Hs. cbn.
  assert ((if decide (Z.of_nat s < Z.of_nat k)
           then as_mesh shape
           else instance ← as_instance shape; Some (GetBaseShape instance))
          = Some (base_mesh shape)) as ->.
  { destruct (decide (Z.of_nat s < Z.of_nat k)).
    - eapply mesh_before; [done| |done]. lia.
    - destruct (instance_after l k s shape) as (inst & -> & ->);
        [done|lia|done|]. done. }
  cbn. rewrite (face_start_at l o s) by done. cbn.
  rewrite (vertex_start_at l o s) by done. cbn.
  pose proof (face_start_nonneg l s).
  rewrite int_sub_exact by int_range.
  destruct (lookup_lt_is_Some_2 (GetFaceData (base_mesh shape))
              (Z.to_nat (orig - face_start l s))) as [mf Hmf'].
  { unfold face_count, num_faces in Hin. lia. }
  assert (at_ (GetFaceData (base_mesh shape)) (orig - face_start l s) = Some mf)
    as Hmf'' by (apply at_Some; split; [lia|done]).
  rewrite Hmf''. cbn. eexists. split; [done|].
  eexists. split; [done|].
  exists orig, shape, (face_start l s), (vertex_start l s), mf. cbn.
  split_and!; try done.
  - by rewrite at_nat.
  - by apply face_start_at.
  - lia.
  - by apply vertex_start_at.
Qed.

Lemma write_faces_spec world flat reordering :
  well_flattened world flat →
  indices_in_range (numfaces (offsets flat)) reordering →
  ∃ facedata,
    write_faces flat reordering
      (replicate (Z.to_nat (numfaces (offsets flat))) None)
    = Some facedata ∧
    Z.of_nat (length facedata) = numfaces (offsets flat) ∧
    ∀ i, 0 <= i < numfaces (offsets flat) →
      ∃ f, at_ facedata i = Some (Some f) ∧
           face_packed (shapes flat) (offsets flat) reordering i f.
Proof.
  intros (k & _ & _ & Hmf & Hnm & _ & _ & Hn & Ho & Hnf & Hnv & _) Hidx.
  pose proof Ho as (_ & _ & Hnf' & _).
  pose proof (face_start_nonneg (shapes flat) (length (shapes flat))).
  unfold write_faces. rewrite Hnm.
  destruct (segment_loop
    (pack_face (shapes flat) (offsets flat) (Z.of_nat k) reordering)
    (λ i x, ∃ f, x = Some f ∧
                 face_packed (shapes flat) (offsets flat) reordering i f)
    0 (numfaces (offsets flat))
    (replicate (Z.to_nat (numfaces (offsets flat))) None))
    as (fd & Hrun & Hl & Hin & _).
  { lia. } { lia. } { rewrite length_replicate. lia. } { lia. }
  { intros i b Hi _. by eapply pack_face_step. }
  exists fd. split_and!; [done| |].
  - rewrite Hl, length_replicate. lia.
  - intros i Hi. destruct (Hin i Hi) as (x & Hx & f & -> & Hf).
    exists f. by split.
Qed.
End passes.

(** ** Scene flattening: what the passes leave *)
Section flattening.
Context `{Collaborators}.

Lemma flatten_well_flattened world flat :
  fits world → flatten world = Some flat → well_flattened world flat.
Proof.
  intros Hfits Hflat. destruct (flatten_spec world Hfits) as (flat' & Hf & Hw).
  congruence.
Qed.

(** C3. Bounds building runs to completion and, for every shape [k] of the
    working list and every face [j] of its base mesh, the bound found at
    index [mesh_faces_start_idx[k] + j] is: for a mesh, the world-space bound
    the mesh reports; for an instance, the object-space bound of the base mesh
    transformed by the instance's matrix [m]. *)
Theorem bounds_at_face_start world :
  fits world →
  ∃ flat, flatten world = Some flat ∧
    ∀ (k : nat) shape j,
      shapes flat !! k = Some shape →
      0 <= j < num_faces (base_mesh shape) →
      ∃ start,
        at_ (mesh_faces_start_idx (offsets flat)) (Z.of_nat k) = Some start ∧
        at_ (bounds flat) (start + j)
        = Some (match shape with
                | ShapeMesh mesh => GetFaceBounds mesh j false
                | ShapeInstance instance =>
                    transform_bbox
                      (GetFaceBounds (GetBaseShape instance) j true)
                      (inst_m instance)
                end).
Proof.
  intros Hfits. destruct (flatten_spec world Hfits) as (flat & Hflat & Hw).
  exists flat. split; [done|]. intros k shape j Hk Hj.
  destruct Hw as (km & _ & _ & _ & _ & _ & _ & _ & Ho & _ & _ & _ & _ & Hb).
  pose proof (lookup_lt_Some _ _ _ Hk) as Hlt.
  exists (face_start (shapes flat) k). split; [by apply face_start_at|].
  by apply (Hb k shape j).
Qed.

(** The vertex pass with its loops run in index order runs to completion
    and, for every shape [k] of the working list and every vertex [j] of its
    base mesh, the vertex found at offset [mesh_vertices_start_idx[k] + j]
    is object-space vertex [j] transformed by the matrix of shape [k]
    itself: the mesh's for a mesh, the instance's (not its base mesh's) for
    an instance. *)
Theorem vertices_in_world_space world flat :
  fits world → flatten world = Some flat →
  ∃ vertexdata,
    write_vertices flat
      (replicate (Z.to_nat (numvertices (offsets flat))) None)
    = Some vertexdata ∧
    ∀ (k : nat) shape j v,
      shapes flat !! k = Some shape →
      at_ (GetVertexData (base_mesh shape)) j = Some v →
      ∃ start,
        at_ (mesh_vertices_start_idx (offsets flat)) (Z.of_nat k) = Some start ∧
        at_ vertexdata (start + j)
        = Some (Some (transform_point v
                        match shape with
                        | ShapeMesh mesh => mesh_m mesh
                        | ShapeInstance instance => inst_m instance
                        end)).
Proof.
  intros Hfits Hflat.
  pose proof (flatten_well_flattened _ _ Hfits Hflat) as Hw.
  destruct (write_vertices_spec world flat Hw) as (vd & Hrun & _ & Hv).
  exists vd. split; [done|]. intros k shape j v Hk Hj.
  destruct Hw as (km & _ & _ & _ & _ & _ & _ & _ & Ho & _).
  pose proof (lookup_lt_Some _ _ _ Hk) as Hlt.
  exists (vertex_start (shapes flat) k). split; [by apply vertex_start_at|].
  by apply (Hv k shape j v).
Qed.

(** C1. The face pass runs to completion and, at every output position [i]
    in [0, numfaces), the face [f] it wrote satisfies
    [mesh_faces_start_idx[shapeidx] + id = reordering[i]]; its three vertex
    indices are those of face [id] of the base mesh of shape [shapeidx], each
    added (in [int]) to [mesh_vertices_start_idx[shapeidx]], which is the
    exact sum whenever the mesh's indices name vertices of the mesh; and its
    [cnt] is 0. *)
Theorem faces_follow_reordering world flat reordering :
  fits world → flatten world = Some flat →
  indices_in_range (numfaces (offsets flat)) reordering →
  ∃ facedata,
    write_faces flat reordering
      (replicate (Z.to_nat (numfaces (offsets flat))) None)
    = Some facedata ∧
    ∀ i, 0 <= i < numfaces (offsets flat) →
      ∃ f orig shape start vstart mf,
        at_ facedata i = Some (Some f) ∧
        at_ reordering i = Some orig ∧
        at_ (shapes flat) (Face.shapeidx f) = Some shape ∧
        at_ (mesh_faces_start_idx (offsets flat)) (Face.shapeidx f)
        = Some start ∧
        start + Face.id f = orig ∧
        at_ (mesh_vertices_start_idx (offsets flat)) (Face.shapeidx f)
        = Some vstart ∧
        at_ (GetFaceData (base_mesh shape)) (Face.id f) = Some mf ∧
        Face.idx0 f = int_add (MeshFace.idx0 mf) vstart ∧
        Face.idx1 f = int_add (MeshFace.idx1 mf) vstart ∧
        Face.idx2 f = int_add (MeshFace.idx2 mf) vstart ∧
        Face.cnt f = 0 ∧
        ((∀ c, c ∈ [MeshFace.idx0 mf; MeshFace.idx1 mf; MeshFace.idx2 mf] →
               0 <= c < num_vertices (base_mesh shape)) →
         Face.idx0 f = MeshFace.idx0 mf + vstart ∧
         Face.idx1 f = MeshFace.idx1 mf + vstart ∧
         Face.idx2 f = MeshFace.idx2 mf + vstart).
Proof.
  intros Hfits Hflat Hidx.
  pose proof (flatten_well_flattened _ _ Hfits Hflat) as Hw.
  destruct (write_faces_spec world flat reordering Hw Hidx)
    as (fd & Hrun & _ & Hf).
  exists fd. split; [done|]. intros i Hi.
  destruct (Hf i Hi) as (f & Hat & orig & shape & start & vstart & mf &
    Ho & Hs & Hfs & Hsum & Hvs & Hmf & H0' & H1' & H2' & Hc).
  exists f, orig, shape, start, vstart, mf.
  split_and!; try done. intros Hvalid.
  destruct Hw as (km & _ & _ & _ & _ & _ & _ & _ & Hoff & _ & Hnv & _).
  apply at_Some in Hs as [Hk Hs].
  pose proof (lookup_lt_Some _ _ _ Hs) as Hlt.
  rewrite <- (Z2Nat.id (Face.shapeidx f)) in Hvs by done.
  rewrite (vertex_start_at _ _ _ Hoff Hlt) in Hvs. injection Hvs as <-.
  pose proof (vertex_start_S _ _ _ Hs) as HS.
  pose proof (vertex_start_mono (shapes flat) (S (Z.to_nat (Face.shapeidx f)))
                (length (shapes flat)) ltac:(lia)) as Hm.
  pose proof (vertex_start_nonneg (shapes flat) (Z.to_nat (Face.shapeidx f))).
  destruct Hoff as (_ & _ & _ & Hnv'). unfold vertex_count in HS.
  pose proof (Hvalid (MeshFace.idx0 mf) ltac:(repeat constructor)).
  pose proof (Hvalid (MeshFace.idx1 mf) ltac:(repeat constructor)).
  pose proof (Hvalid (MeshFace.idx2 mf) ltac:(repeat constructor)).
  rewrite H0', H1', H2', !int_add_exact by int_range. done.
Qed.

(** C4, as the code has it. The working shape list is a rearrangement of
    [world.shapes_] in which every non-instance shape stands before every
    instance shape. The order inside the two groups is kept when
    [world.shapes_] already has its non-instance shapes first, the list being
    then unchanged; it is not kept in general. *)
Theorem reordering_puts_meshes_first world :
  fits world →
  ∃ flat, flatten world = Some flat ∧
    shapes flat ≡ₚ shapes_ world ∧
    (∀ (a b : nat) sa sb,
       shapes flat !! a = Some sa → shapes flat !! b = Some sb →
       is_instance sa = false → is_instance sb = true → (a < b)%nat) ∧
    (∀ k, meshes_first (shapes_ world) k → shapes flat = shapes_ world).
Proof.
  intros Hfits. destruct (flatten_spec world Hfits) as (flat & Hflat & Hw).
  exists flat. split; [done|].
  destruct Hw as (km & Hp & Hperm & (Hkm & Hm & Hi) & _).
  split_and!; [done| |].
  - intros a b sa sb Ha Hb Hsa Hsb.
    assert (a < km)%nat.
    { destruct (decide (a < km)%nat); [done|].
      eapply (Forall_lookup_1 _ _ (a - km)) in Hi.
      - rewrite Hsa in Hi. done.
      - rewrite lookup_drop. by replace (km + (a - km))%nat with a by lia. }
    assert (km ≤ b)%nat; [|lia].
    destruct (decide (km ≤ b)%nat); [done|].
    eapply (Forall_lookup_1 _ _ b) in Hm.
    + rewrite Hsb in Hm. done.
    + rewrite lookup_take_lt by lia. done.
  - intros k (Hk & Hmk & Hik).
    unfold std_partition in Hp.
    rewrite <- (take_drop k (shapes_ world)) in Hp at 2.
    rewrite partition_walk_sorted in Hp.
    + rewrite take_drop in Hp. congruence.
    + by rewrite take_drop.
    + eapply Forall_impl; [exact Hmk|]. intros shape ->. done.
    + eapply Forall_impl; [exact Hik|]. intros shape ->. done.
Qed.
End flattening.

(** ** The device and the strategy object *)
Section lifecycle.
Context `{Collaborators}.
Implicit Types (dev : Device) (self : Strategy) (world : World).

Lemma stack_budget_value : stack_budget = 201326592.
Proof. reflexivity. Qed.

Lemma initial_stack_size :
  to_size_t (int_mul kMaxBatchSize kMaxStackSize) = 50331648.
Proof. reflexivity. Qed.

(** What a run of [upload] that returns has done. *)
Lemma upload_inv dev flat bvh dev' self' :
  upload dev flat bvh = Some (dev', self') →
  ∃ vertexdata facedata,
    write_vertices flat (replicate (Z.to_nat (numvertices (offsets flat))) None)
    = Some vertexdata ∧
    write_faces flat (GetIndices bvh)
      (replicate (Z.to_nat (numfaces (offsets flat))) None)
    = Some facedata ∧
    installed dev flat bvh vertexdata facedata dev' self'.
Proof.
  unfold upload, CreateBuffer, UnmapBuffer. cbn.
  destruct (write_vertices flat _) as [vd|]; [|done]. cbn.
  rewrite lookup_insert_eq. cbn.
  destruct (write_faces flat _ _) as [fd|]; [|done]. cbn.
  rewrite lookup_insert_eq. cbn.
  intros [= <- <-]. exists vd, fd. split; [done|]. split; [done|].
  unfold installed, contents_of, size_of. cbn.
  replace (next_handle dev + 1 + 1)%positive with (next_handle dev + 2)%positive
    by lia.
  replace (next_handle dev + 2 + 1)%positive with (next_handle dev + 3)%positive
    by lia.
  replace (next_handle dev + 3 + 1)%positive with (next_handle dev + 4)%positive
    by lia.
  replace (next_handle dev + 4 + 1)%positive with (next_handle dev + 5)%positive
    by lia.
  split_and!; try done.
  - lia.
  - intros h' Hh'. rewrite !lookup_insert_ne by lia. done.
  - intros h' Hh'.
    destruct (decide (next_handle dev ≤ h' < next_handle dev + 6)%positive);
      [by right|left].
    rewrite !lookup_insert_ne in Hh' by lia. done.
  - rewrite !lookup_insert_ne by lia. by rewrite lookup_insert_eq.
  - rewrite !lookup_insert_ne by lia. by rewrite lookup_insert_eq.
  - rewrite !lookup_insert_ne by lia. by rewrite lookup_insert_eq.
  - rewrite !lookup_insert_ne by lia. by rewrite lookup_insert_eq.
  - rewrite !lookup_insert_ne by lia. by rewrite lookup_insert_eq.
  - by rewrite lookup_insert_eq.
Qed.

(** [upload] returns whenever the two passes do. *)
Lemma upload_runs dev flat bvh vertexdata facedata :
  write_vertices flat (replicate (Z.to_nat (numvertices (offsets flat))) None)
  = Some vertexdata →
  write_faces flat (GetIndices bvh)
    (replicate (Z.to_nat (numfaces (offsets flat))) None)
  = Some facedata →
  is_Some (upload dev flat bvh).
Proof.
  intros Hvd Hfd. unfold upload, CreateBuffer, UnmapBuffer. cbn.
  rewrite Hvd. cbn. rewrite lookup_insert_eq. cbn.
  rewrite Hfd. cbn. rewrite lookup_insert_eq. cbn. by eexists.
Qed.

Lemma upload_spec world dev flat bvh :
  well_flattened world flat →
  indices_in_range (numfaces (offsets flat)) (GetIndices bvh) →
  ∃ vertexdata facedata dev' self',
    upload dev flat bvh = Some (dev', self') ∧
    write_vertices flat (replicate (Z.to_nat (numvertices (offsets flat))) None)
    = Some vertexdata ∧
    write_faces flat (GetIndices bvh)
      (replicate (Z.to_nat (numfaces (offsets flat))) None)
    = Some facedata ∧
    installed dev flat bvh vertexdata facedata dev' self'.
Proof.
  intros Hw Hidx.
  destruct (write_vertices_spec world flat Hw) as (vd & Hvd & _).
  destruct (write_faces_spec world flat _ Hw Hidx) as (fd & Hfd & _).
  destruct (upload_runs dev flat bvh vd fd Hvd Hfd) as [[dev' self'] Hup].
  destruct (upload_inv _ _ _ _ _ Hup) as (vd' & fd' & Hvd' & Hfd' & Hinst).
  exists vd, fd, dev', self'. split_and!; [done..|]. congruence.
Qed.

Lemma max_alloc_DeleteBuffer dev b :
  max_alloc_size (DeleteBuffer dev b) = max_alloc_size dev.
Proof. by destruct b. Qed.

Lemma max_alloc_released dev self :
  max_alloc_size (released dev self) = max_alloc_size dev.
Proof.
  unfold released, release_primary. destruct (m_bvh self); [|done].
  by rewrite !max_alloc_DeleteBuffer.
Qed.

Lemma live_false dev b :
  live dev b = false ↔ ∀ h, b = Some h → buffers dev !! h = None.
Proof.
  unfold live. destruct b as [h|]; [|by split].
  rewrite bool_decide_eq_false, <- eq_None_not_Some. split.
  - by intros Hh h' [= <-].
  - intros Hh. by apply Hh.
Qed.

Lemma live_DeleteBuffer_same dev b : live (DeleteBuffer dev b) b = false.
Proof.
  apply live_false. intros h ->. cbn. apply lookup_delete_eq.
Qed.

Lemma live_DeleteBuffer_false dev b b' :
  live dev b' = false → live (DeleteBuffer dev b) b' = false.
Proof.
  rewrite !live_false. intros Hb h Hh. destruct b as [hb|]; cbn; [|by apply Hb].
  rewrite lookup_delete. case_decide; [done|]. by apply Hb.
Qed.

(** After the release block no primary pointer names a buffer. *)
Lemma release_primary_holds_none dev gpu b :
  holds_no_primary (release_primary dev gpu) {| m_bvh := b; m_gpudata := gpu |}
  = true.
Proof.
  unfold holds_no_primary, release_primary, primary. cbn.
  rewrite !andb_true_iff, !negb_true_iff.
  split_and!; [..|done];
    repeat first [apply live_DeleteBuffer_same | apply live_DeleteBuffer_false].
Qed.

Lemma holds_no_primary_gpu dev self self' :
  m_gpudata self' = m_gpudata self →
  holds_no_primary dev self' = holds_no_primary dev self.
Proof. unfold holds_no_primary. by intros ->. Qed.

(** The three ways a rebuilding [Preprocess] ends. *)
Lemma Preprocess_no_memory world dev self :
  rebuild_needed self world = true →
  max_alloc_size dev <= stack_budget →
  Preprocess world dev self
  = Some (Thrown no_stack_memory, released dev self, self).
Proof.
  intros Hr Hm. unfold Preprocess. rewrite Hr. cbn.
  rewrite max_alloc_released. by rewrite decide_True.
Qed.

Lemma Preprocess_rebuild world dev self :
  rebuild_needed self world = true →
  stack_budget < max_alloc_size dev →
  Preprocess world dev self = rebuild world (released dev self) (m_gpudata self).
Proof.
  intros Hr Hm. unfold Preprocess. rewrite Hr. cbn.
  rewrite max_alloc_released. rewrite decide_False by lia. done.
Qed.

Lemma Preprocess_unchanged world dev self :
  rebuild_needed self world = false →
  Preprocess world dev self = Some (Returned, dev, self).
Proof. intros Hr. unfold Preprocess. by rewrite Hr. Qed.

Lemma rebuild_too_high world dev gpu flat :
  flatten world = Some flat →
  height (Bvh_Build (enablesah world) (bounds flat) (numfaces (offsets flat)))
  >= kMaxStackSize →
  rebuild world dev gpu
  = Some (Thrown stack_overflow, dev, {| m_bvh := None; m_gpudata := gpu |}).
Proof.
  intros Hflat Hh. unfold rebuild. rewrite Hflat. cbn. by rewrite decide_True.
Qed.

Lemma rebuild_upload world dev gpu flat :
  flatten world = Some flat →
  height (Bvh_Build (enablesah world) (bounds flat) (numfaces (offsets flat)))
  < kMaxStackSize →
  rebuild world dev gpu
  = '(dev', self') ← upload dev flat
       (Bvh_Build (enablesah world) (bounds flat) (numfaces (offsets flat)));
    Some (Returned, dev', self').
Proof.
  intros Hflat Hh. unfold rebuild. rewrite Hflat. cbn -[upload].
  by rewrite decide_False by lia.
Qed.

(** How a run of [rebuild] can end. *)
Lemma rebuild_inv world dev gpu out dev' self' :
  rebuild world dev gpu = Some (out, dev', self') →
  ∃ flat, flatten world = Some flat ∧
    let bvh := Bvh_Build (enablesah world) (bounds flat)
                 (numfaces (offsets flat)) in
    (height bvh >= kMaxStackSize ∧ out = Thrown stack_overflow ∧
     dev' = dev ∧ self' = {| m_bvh := None; m_gpudata := gpu |}) ∨
    (height bvh < kMaxStackSize ∧ out = Returned ∧
     upload dev flat bvh = Some (dev', self')).
Proof.
  unfold rebuild. destruct (flatten world) as [flat|]; [|done]. cbn -[upload].
  intros Hr. exists flat. split; [done|]. cbn -[upload].
  destruct (decide (height _ >= kMaxStackSize)) as [Hh|Hh].
  - left. by injection Hr as <- <- <-.
  - right. destruct (upload _ _ _) as [[d s]|]; [|done]. cbn in Hr.
    injection Hr as <- <- <-. split_and!; [lia|done..].
Qed.
Lemma kMaxStackSize_value : kMaxStackSize = 48.
Proof. reflexivity. Qed.

(** C5. A rebuilding [Preprocess] that has passed the allocation check
    throws the stack-overflow error exactly when the height of the BVH it
    has just built is at least 48, and the strategy then holds no BVH; when
    the height is below 48 it goes on to translate the BVH and upload: it
    returns with the BVH installed and the nodes, the vertices, the faces
    and the shape table in their buffers. *)
Theorem height_check world dev self flat :
  fits world →
  rebuild_needed self world = true →
  stack_budget < max_alloc_size dev →
  flatten world = Some flat →
  let bvh := Bvh_Build (enablesah world) (bounds flat)
               (numfaces (offsets flat)) in
  (height bvh >= 48 →
   Preprocess world dev self
   = Some (Thrown stack_overflow, released dev self,
           {| m_bvh := None; m_gpudata := m_gpudata self |})) ∧
  (height bvh < 48 →
   indices_in_range (numfaces (offsets flat)) (GetIndices bvh) →
   ∃ vertexdata facedata dev' self',
     Preprocess world dev self = Some (Returned, dev', self') ∧
     m_bvh self' = Some bvh ∧
     write_vertices flat
       (replicate (Z.to_nat (numvertices (offsets flat))) None)
     = Some vertexdata ∧
     write_faces flat (GetIndices bvh)
       (replicate (Z.to_nat (numfaces (offsets flat))) None)
     = Some facedata ∧
     contents_of dev' (GpuData.bvh (m_gpudata self'))
     = Some (Nodes (Translator_Process bvh)) ∧
     contents_of dev' (GpuData.vertices (m_gpudata self'))
     = Some (Vertices vertexdata) ∧
     contents_of dev' (GpuData.faces (m_gpudata self'))
     = Some (Faces facedata) ∧
     contents_of dev' (GpuData.shapes (m_gpudata self'))
     = Some (Shapes (shapedata flat))) ∧
  (∀ dev' self',
     Preprocess world dev self = Some (Thrown stack_overflow, dev', self') →
     height bvh >= 48 ∧ m_bvh self' = None).
Proof.
  intros Hfits Hr Hm Hflat bvh.
  rewrite (Preprocess_rebuild _ _ _ Hr Hm). split_and!.
  - intros Hh. apply (rebuild_too_high _ _ _ flat); [done|].
    by rewrite kMaxStackSize_value.
  - intros Hh Hidx. rewrite (rebuild_upload _ _ _ _ Hflat Hh).
    pose proof (flatten_well_flattened _ _ Hfits Hflat) as Hw.
    destruct (upload_spec world (released dev self) flat bvh Hw Hidx)
      as (vd & fd & dev' & self' & Hup & Hvd & Hfd & Hinst).
    fold bvh. rewrite Hup. cbn.
    destruct Hinst as (Hb & Hg & _ & _ & _ & _ & ? & ? & ? & ? & _).
    exists vd, fd, dev', self'. rewrite Hg. cbn. split_and!; done.
  - intros dev' self' Hrun.
    apply rebuild_inv in Hrun as (flat' & Hflat' & Hcase).
    assert (flat' = flat) as -> by congruence.
    destruct Hcase as [(Hh & _ & _ & ->)|(_ & [=] & _)].
    split; [|done]. by rewrite <- kMaxStackSize_value.
Qed.

Lemma errors_differ : no_stack_memory ≠ stack_overflow.
Proof. discriminate. Qed.

(** C6, as the code has it. A rebuilding [Preprocess] throws the
    stack-memory error if and only if the device's [max_alloc_size] is less
    than or equal to 1,048,576 × 48 × 4 = 201,326,592 bytes; when
    [max_alloc_size] is greater than that, the check passes and the call
    continues with the rebuild. *)
Theorem allocation_check world dev self :
  rebuild_needed self world = true →
  stack_budget = 1048576 * 48 * 4 ∧
  (max_alloc_size dev <= 1048576 * 48 * 4 →
   Preprocess world dev self
   = Some (Thrown no_stack_memory, released dev self, self)) ∧
  (1048576 * 48 * 4 < max_alloc_size dev →
   Preprocess world dev self
   = rebuild world (released dev self) (m_gpudata self)) ∧
  ((∃ dev' self',
      Preprocess world dev self = Some (Thrown no_stack_memory, dev', self'))
   ↔ max_alloc_size dev <= 1048576 * 48 * 4).
Proof.
  intros Hr. change (1048576 * 48 * 4) with stack_budget. split_and!.
  - done.
  - by apply Preprocess_no_memory.
  - by apply Preprocess_rebuild.
  - split.
    + intros (dev' & self' & Hrun).
      destruct (decide (max_alloc_size dev <= stack_budget)) as [|Hgt]; [done|].
      rewrite Preprocess_rebuild in Hrun by (done || lia).
      apply rebuild_inv in Hrun as (flat & _ & [(_ & [=] & _)|(_ & [=] & _)]).
    + intros Hle. eexists _, _. by apply Preprocess_no_memory.
Qed.

(** On every state in which a BVH is only installed on a device that
    passes the allocation check and a strategy without BVH has no live
    primary buffer (every state the strategy reaches on a device whose
    [max_alloc_size] does not change, see [reachable_settled]), a
    [Preprocess] that ends with either error leaves the strategy with no BVH
    and with no primary pointer naming a buffer of the device. *)
Lemma failure_leaves_nothing world dev self what dev' self' :
  settled dev self →
  Preprocess world dev self = Some (Thrown what, dev', self') →
  m_bvh self' = None ∧ holds_no_primary dev' self' = true ∧
  (what = no_stack_memory ∨ what = stack_overflow).
Proof.
  intros [Hbudget Hnone] Hrun.
  destruct (rebuild_needed self world) eqn:Hr.
  - destruct (decide (max_alloc_size dev <= stack_budget)) as [Hle|Hgt].
    + rewrite Preprocess_no_memory in Hrun by done.
      injection Hrun as <- <- <-.
      assert (m_bvh self = None) as Hb.
      { destruct (m_bvh self) eqn:Hb; [|done].
        specialize (Hbudget ltac:(by eexists)). lia. }
      split_and!; [done| |by left].
      unfold released. rewrite Hb. by apply Hnone.
    + rewrite Preprocess_rebuild in Hrun by (done || lia).
      apply rebuild_inv in Hrun
        as (flat & _ & [(_ & [= ->] & -> & ->)|(_ & [=] & _)]).
      split_and!; [done| |by right].
      unfold released. destruct (m_bvh self) eqn:Hb.
      * apply release_primary_holds_none.
      * rewrite <- (Hnone eq_refl). by apply holds_no_primary_gpu.
  - rewrite Preprocess_unchanged in Hrun by done. done.
Qed.
(** ** The invariant of the strategy and its device *)

Lemma consistent_new dev indeterminate :
  (∀ h, is_Some (buffers dev !! h) → (h < next_handle dev)%positive) →
  consistent dev (FatBvhStrategy_new indeterminate).
Proof.
  intros Hfresh. split; [split|split; [done|]].
  - intros [? [=]].
  - done.
  - intros h Hh. unfold primary in Hh. simpl in Hh.
    rewrite !elem_of_cons, elem_of_nil in Hh.
    destruct Hh as [[=]|[[=]|[[=]|[[=]|[[=]|[]]]]]].
Qed.

Lemma buffers_DeleteBuffer dev b h :
  is_Some (buffers (DeleteBuffer dev b) !! h) → is_Some (buffers dev !! h).
Proof.
  destruct b as [hb|]; [|done]. cbn. rewrite lookup_delete.
  case_decide; [by intros [? [=]]|done].
Qed.

Lemma next_handle_DeleteBuffer dev b :
  next_handle (DeleteBuffer dev b) = next_handle dev.
Proof. by destruct b. Qed.

Lemma buffers_released dev self h :
  is_Some (buffers (released dev self) !! h) → is_Some (buffers dev !! h).
Proof.
  unfold released, release_primary. destruct (m_bvh self); [|done].
  intros Hh. by do 5 apply buffers_DeleteBuffer in Hh.
Qed.

Lemma next_handle_released dev self :
  next_handle (released dev self) = next_handle dev.
Proof.
  unfold released, release_primary. destruct (m_bvh self); [|done].
  by rewrite !next_handle_DeleteBuffer.
Qed.

Lemma released_holds_none dev self :
  settled dev self →
  holds_no_primary (released dev self)
    {| m_bvh := None; m_gpudata := m_gpudata self |} = true.
Proof.
  intros [_ Hnone]. unfold released. destruct (m_bvh self) eqn:Hb.
  - apply release_primary_holds_none.
  - rewrite <- (Hnone eq_refl). by apply holds_no_primary_gpu.
Qed.

(** [Preprocess] keeps the invariant, however it ends. *)
Lemma Preprocess_consistent world dev self out dev' self' :
  consistent dev self →
  Preprocess world dev self = Some (out, dev', self') →
  consistent dev' self'.
Proof.
  intros (Hs & Hfresh & Hprim) Hrun. pose proof Hs as [Hbudget Hnone].
  destruct (rebuild_needed self world) eqn:Hr.
  - destruct (decide (max_alloc_size dev <= stack_budget)) as [Hle|Hgt].
    + rewrite Preprocess_no_memory in Hrun by done.
      injection Hrun as <- <- <-.
      assert (m_bvh self = None) as Hb.
      { destruct (m_bvh self) eqn:Hb; [|done].
        specialize (Hbudget ltac:(by eexists)). lia. }
      unfold released. rewrite Hb. done.
    + rewrite Preprocess_rebuild in Hrun by (done || lia).
      apply rebuild_inv in Hrun
        as (flat & _ & [(_ & _ & -> & ->)|(_ & _ & Hup)]).
      * split_and!.
        -- split; [by intros [? [=]]|]. intros _. by apply released_holds_none.
        -- intros h Hh%buffers_released. rewrite next_handle_released. auto.
        -- rewrite next_handle_released. done.
      * apply upload_inv in Hup as (vd & fd & _ & _ & Hinst).
        destruct Hinst as (Hb & Hg & Hn & Hm & _ & Hdom & _).
        rewrite next_handle_released in *. split_and!.
        -- split; [|by rewrite Hb]. intros _.
           rewrite Hm, max_alloc_released. lia.
        -- intros h Hh. rewrite Hn.
           destruct (Hdom h Hh) as [Hold%buffers_released|?]; [|lia].
           specialize (Hfresh h Hold). lia.
        -- intros h Hh. rewrite Hg, Hn in *. unfold primary in Hh.
           simpl in Hh. rewrite !elem_of_cons, elem_of_nil in Hh.
           destruct Hh as [[=]|[[=]|[[=]|[[=]|[[=]|[]]]]]]; lia.
  - rewrite Preprocess_unchanged in Hrun by done.
    by injection Hrun as <- <- <-.
Qed.
(** ** The stack buffer in the query operations *)

(** What the stack block of a query does: it needs a stack pointer that
    names a buffer; it leaves everything as it is when the required size
    does not exceed the size of that buffer, and otherwise deletes the
    buffer and installs a new one of the required size. *)
Lemma relocate_stack_inv stack_size dev self dev' self' :
  relocate_stack stack_size dev self = Some (dev', self') →
  ∃ h buf,
    GpuData.stack (m_gpudata self) = Some h ∧
    buffers dev !! h = Some buf ∧
    ((stack_size <= GetSize buf ∧ dev' = dev ∧ self' = self) ∨
     (stack_size > GetSize buf ∧
      m_bvh self' = m_bvh self ∧
      primary (m_gpudata self') = primary (m_gpudata self) ∧
      GpuData.stack (m_gpudata self') = Some (next_handle dev) ∧
      max_alloc_size dev' = max_alloc_size dev ∧
      next_handle dev' = (next_handle dev + 1)%positive ∧
      executed dev' = executed dev ∧
      buffers dev'
      = <[next_handle dev := {| GetSize := stack_size;
                                contents := Uninitialised |}]>
          (delete h (buffers dev)))).
Proof.
  unfold relocate_stack.
  destruct (GpuData.stack (m_gpudata self)) as [h|] eqn:Hs; [|done]. cbn.
  destruct (buffers dev !! h) as [buf|] eqn:Hb; [|done]. cbn.
  intros Hrun. exists h, buf. split; [done|]. split; [done|].
  destruct (decide (stack_size > GetSize buf)) as [Hgt|Hle].
  - right. injection Hrun as <- <-. cbn. split_and!; done.
  - left. injection Hrun as <- <-. split_and!; [lia|done..].
Qed.

Lemma relocate_stack_runs stack_size dev self h buf :
  GpuData.stack (m_gpudata self) = Some h →
  buffers dev !! h = Some buf →
  is_Some (relocate_stack stack_size dev self).
Proof.
  intros Hs Hb. unfold relocate_stack. rewrite Hs. cbn. rewrite Hb. cbn.
  destruct (decide (stack_size > GetSize buf)); by eexists.
Qed.

(** After the stack block the stack buffer has at least the size the block
    was asked for, and never less than before. *)
Lemma relocate_stack_size stack_size dev self dev' self' :
  relocate_stack stack_size dev self = Some (dev', self') →
  ∃ old,
    size_of dev (GpuData.stack (m_gpudata self)) = Some old ∧
    size_of dev' (GpuData.stack (m_gpudata self'))
    = Some (old `max` stack_size).
Proof.
  intros Hrun.
  destruct (relocate_stack_inv _ _ _ _ _ Hrun) as (h & buf & Hs & Hb & Hcase).
  exists (GetSize buf). unfold size_of. rewrite Hs. cbn. rewrite Hb. cbn.
  split; [done|].
  destruct Hcase as [(Hle & -> & ->)|(Hgt & _ & _ & Hs' & _ & _ & _ & Hbufs)].
  - rewrite Hs. cbn. rewrite Hb. cbn. f_equal. lia.
  - rewrite Hs'. cbn. rewrite Hbufs, lookup_insert_eq. cbn. f_equal. lia.
Qed.

Lemma relocate_stack_consistent stack_size dev self dev' self' :
  consistent dev self →
  relocate_stack stack_size dev self = Some (dev', self') →
  consistent dev' self'.
Proof.
  intros (Hs & Hfresh & Hprim) Hrun. pose proof Hs as [Hbudget Hnone].
  destruct (relocate_stack_inv _ _ _ _ _ Hrun) as (h & buf & Hst & Hb & Hcase).
  destruct Hcase as [(_ & -> & ->)|
    (_ & Hbvh & Hp & _ & Hm & Hn & _ & Hbufs)]; [done|].
  split_and!.
  - split.
    + rewrite Hbvh, Hm. done.
    + rewrite Hbvh. intros Hnb. specialize (Hnone Hnb).
      unfold holds_no_primary in *. rewrite Hp.
      rewrite forallb_forall in *. intros b Hin. specialize (Hnone b Hin).
      rewrite negb_true_iff in *. rewrite live_false in *.
      intros hb ->. rewrite Hbufs.
      assert (hb < next_handle dev)%positive as Hlt.
      { apply Hprim. by apply list_elem_of_In. }
      rewrite lookup_insert_ne by lia. rewrite lookup_delete.
      case_decide; [done|]. by apply Hnone.
  - intros h' Hh'. rewrite Hn. rewrite Hbufs in Hh'.
    destruct (decide (h' = next_handle dev)) as [->|Hne]; [lia|].
    rewrite lookup_insert_ne, lookup_delete in Hh' by done.
    case_decide; [by destruct Hh'|]. specialize (Hfresh h' Hh'). lia.
  - intros h' Hh'. rewrite Hn. rewrite Hp in Hh'.
    specialize (Hprim h' Hh'). lia.
Qed.

Lemma launch_consistent func count queueidx rays hits n dev self :
  consistent dev self →
  consistent (launch func count queueidx rays hits n dev self) self.
Proof. done. Qed.

(** A query operation is its stack block followed by the launch. *)
Lemma QueryIntersection_inv queueidx rays numrays hits dev self dev' self' :
  QueryIntersection queueidx rays numrays hits dev self = Some (dev', self') →
  ∃ dev1,
    relocate_stack (required_stack_size numrays) dev self = Some (dev1, self') ∧
    dev' = launch "IntersectClosest" (ArgValue 4 numrays) queueidx rays hits
             numrays dev1 self'.
Proof.
  unfold QueryIntersection.
  destruct (relocate_stack _ dev self) as [[d s]|]; [|done]. cbn.
  intros [= <- <-]. by exists d.
Qed.

Lemma QueryOcclusion_inv queueidx rays numrays hits dev self dev' self' :
  QueryOcclusion queueidx rays numrays hits dev self = Some (dev', self') →
  ∃ dev1,
    relocate_stack (required_stack_size numrays) dev self = Some (dev1, self') ∧
    dev' = launch "IntersectAny" (ArgValue 4 numrays) queueidx rays hits
             numrays dev1 self'.
Proof.
  unfold QueryOcclusion.
  destruct (relocate_stack _ dev self) as [[d s]|]; [|done]. cbn.
  intros [= <- <-]. by exists d.
Qed.

Lemma QueryIntersection_indirect_inv queueidx rays numrays maxrays hits
    dev self dev' self' :
  QueryIntersection_indirect queueidx rays numrays maxrays hits dev self
  = Some (dev', self') →
  ∃ dev1,
    relocate_stack (required_stack_size maxrays) dev self = Some (dev1, self') ∧
    dev' = launch "IntersectClosestRC" (ArgBuffer numrays) queueidx rays hits
             maxrays dev1 self'.
Proof.
  unfold QueryIntersection_indirect.
  destruct (relocate_stack _ dev self) as [[d s]|]; [|done]. cbn.
  intros [= <- <-]. by exists d.
Qed.

Lemma QueryOcclusion_indirect_inv queueidx rays numrays maxrays hits
    dev self dev' self' :
  QueryOcclusion_indirect queueidx rays numrays maxrays hits dev self
  = Some (dev', self') →
  ∃ dev1,
    relocate_stack (required_stack_size maxrays) dev self = Some (dev1, self') ∧
    dev' = launch "IntersectAnyRC" (ArgBuffer numrays) queueidx rays hits
             maxrays dev1 self'.
Proof.
  unfold QueryOcclusion_indirect.
  destruct (relocate_stack _ dev self) as [[d s]|]; [|done]. cbn.
  intros [= <- <-]. by exists d.
Qed.

(** Every state the strategy reaches satisfies the invariant. *)
Lemma holds_no_primary_false dev self :
  holds_no_primary dev self = true ↔
  ∀ b, b ∈ primary (m_gpudata self) → live dev b = false.
Proof.
  unfold holds_no_primary. rewrite forallb_forall. split.
  - intros Hf b Hb. apply list_elem_of_In in Hb. specialize (Hf b Hb).
    by apply negb_true_iff.
  - intros Hf b Hb. apply negb_true_iff, Hf. by apply list_elem_of_In.
Qed.

Lemma application_step_consistent protected dev self dev' :
  consistent dev self → application_step protected dev dev' →
  consistent dev' self.
Proof.
  intros ([Hbudget Hnone] & Hfresh & Hprim) Hstep.
  destruct Hstep as [size init|b data dev' _ Hrun|b _|d].
  - split_and!.
    + split; [done|]. intros Hn. specialize (Hnone Hn).
      rewrite holds_no_primary_false in *. intros b Hb.
      specialize (Hnone b Hb). rewrite live_false in *. intros h ->. cbn.
      rewrite lookup_insert_ne by (specialize (Hprim h Hb); lia).
      by apply Hnone.
    + intros h Hh. cbn in *.
      destruct (decide (h = next_handle dev)) as [->|Hne]; [lia|].
      rewrite lookup_insert_ne in Hh by done. specialize (Hfresh h Hh). lia.
    + intros h Hh. cbn. specialize (Hprim h Hh). lia.
  - unfold UnmapBuffer in Hrun. destruct b as [hb|]; [|done]. cbn in Hrun.
    destruct (buffers dev !! hb) as [buf|] eqn:Hbuf; [|done]. cbn in Hrun.
    injection Hrun as <-. split_and!.
    + split; [done|]. intros Hn. specialize (Hnone Hn).
      rewrite holds_no_primary_false in *. intros b Hbin.
      specialize (Hnone b Hbin). rewrite live_false in *. intros h ->. cbn.
      pose proof (Hnone h eq_refl) as Hdead.
      rewrite lookup_insert_ne by congruence. done.
    + intros h Hh. cbn in *.
      destruct (decide (h = hb)) as [->|Hne].
      * apply Hfresh. by eexists.
      * rewrite lookup_insert_ne in Hh by done. by apply Hfresh.
    + done.
  - split_and!.
    + split; [by rewrite max_alloc_DeleteBuffer|]. intros Hn.
      specialize (Hnone Hn). rewrite holds_no_primary_false in *.
      intros b' Hb'. by apply live_DeleteBuffer_false, Hnone.
    + intros h Hh%buffers_DeleteBuffer. rewrite next_handle_DeleteBuffer. auto.
    + by rewrite next_handle_DeleteBuffer.
  - done.
Qed.

(** With six allocations granted, [upload_upto] is [upload]. *)
Lemma upload_upto_all dev flat bvh gpu :
  upload_upto 6 dev flat bvh gpu = upload dev flat bvh.
Proof.
  unfold upload_upto, upload, CreateBuffer, UnmapBuffer. cbn.
  destruct (write_vertices flat _) as [vd|]; [|done]. cbn.
  rewrite lookup_insert_eq. cbn.
  destruct (write_faces flat _ _) as [fd|]; [|done]. cbn.
  rewrite lookup_insert_eq. cbn. done.
Qed.

Lemma upload_upto_inv grants dev flat bvh gpu dev' self' :
  upload_upto grants dev flat bvh gpu = Some (dev', self') →
  m_bvh self' = Some bvh ∧
  max_alloc_size dev' = max_alloc_size dev ∧
  executed dev' = executed dev ∧
  (next_handle dev ≤ next_handle dev')%positive ∧
  (∀ h, is_Some (buffers dev' !! h) →
        is_Some (buffers dev !! h) ∨
        (next_handle dev ≤ h < next_handle dev')%positive) ∧
  (∀ h, Some h ∈ primary (m_gpudata self') →
        Some h ∈ primary gpu ∨ (h < next_handle dev')%positive) ∧
  ((grants < 6)%nat → GpuData.stack (m_gpudata self') = GpuData.stack gpu).
Proof.
  unfold upload_upto, CreateBuffer, UnmapBuffer.
  destruct grants as [|[|[|[|[|[|g]]]]]]; cbn;
    repeat match goal with
    | |- context [write_vertices ?f ?v] =>
        destruct (write_vertices f v); [|done]; cbn;
        rewrite ?lookup_insert_eq; cbn
    | |- context [write_faces ?f ?r ?v] =>
        destruct (write_faces f r v); [|done]; cbn;
        rewrite ?lookup_insert_ne, ?lookup_insert_eq by lia; cbn
    end;
    intros [= <- <-]; cbn; unfold primary; cbn;
    (split_and!;
     [done|done|done|lia
     |intros h Hh;
      match goal with
      | |- _ ∨ (?lo ≤ _ < ?hi)%positive =>
          destruct (decide (lo ≤ h < hi)%positive); [by right|left]
      end;
      rewrite ?lookup_insert_ne in Hh by lia; done
     |intros h Hh; rewrite !elem_of_cons, elem_of_nil in Hh;
      rewrite !elem_of_cons;
      repeat (destruct Hh as [Hh|Hh];
              [first [injection Hh as ->; right; lia|tauto]|]);
      done
     |first [done|lia|intros; lia]]).
Qed.

Lemma Preprocess_refused_inv grants world dev self dev' self' :
  Preprocess_refused grants world dev self = Some (dev', self') →
  rebuild_needed self world = true ∧
  stack_budget < max_alloc_size dev ∧
  (grants < 6)%nat ∧
  ∃ flat,
    flatten world = Some flat ∧
    let bvh := Bvh_Build (enablesah world) (bounds flat)
                 (numfaces (offsets flat)) in
    height bvh < kMaxStackSize ∧
    upload_upto grants (released dev self) flat bvh (m_gpudata self)
    = Some (dev', self').
Proof.
  unfold Preprocess_refused.
  destruct (rebuild_needed self world); [|done].
  destruct (decide (max_alloc_size (released dev self) <= stack_budget))
    as [|Hgt]; [done|].
  rewrite max_alloc_released in Hgt.
  destruct (flatten world) as [flat|]; [|done]. cbn.
  destruct (decide (height _ >= kMaxStackSize)) as [|Hh]; [done|].
  destruct (decide (grants < 6)%nat) as [Hg|]; [|done].
  intros Hup. split_and!; [done|lia|done|].
  exists flat. split; [done|]. cbv zeta. split; [lia|done].
Qed.

Lemma Preprocess_refused_consistent grants world dev self dev' self' :
  consistent dev self →
  Preprocess_refused grants world dev self = Some (dev', self') →
  consistent dev' self'.
Proof.
  intros (Hs & Hfresh & Hprim) Hrun.
  apply Preprocess_refused_inv in Hrun
    as (_ & Hgt & _ & flat & _ & Hcase). cbv zeta in Hcase.
  destruct Hcase as [_ Hup].
  apply upload_upto_inv in Hup as (Hb & Hm & _ & Hn & Hdom & Hp & _).
  rewrite next_handle_released in *. rewrite max_alloc_released in Hm.
  split_and!.
  - split; [intros _; lia|]. by rewrite Hb.
  - intros h Hh. destruct (Hdom h Hh) as [Hold%buffers_released|?]; [|lia].
    specialize (Hfresh h Hold). lia.
  - intros h Hh. destruct (Hp h Hh) as [Hold|?]; [|lia].
    specialize (Hprim h Hold). lia.
Qed.

Lemma relocate_stack_refused_inv stack_size dev self dev' self' :
  relocate_stack_refused stack_size dev self = Some (dev', self') →
  ∃ h buf,
    GpuData.stack (m_gpudata self) = Some h ∧
    buffers dev !! h = Some buf ∧
    stack_size > GetSize buf ∧
    dev' = DeleteBuffer dev (Some h) ∧
    m_bvh self' = m_bvh self ∧
    primary (m_gpudata self') = primary (m_gpudata self) ∧
    GpuData.stack (m_gpudata self') = None.
Proof.
  unfold relocate_stack_refused.
  destruct (GpuData.stack (m_gpudata self)) as [h|] eqn:Hs; [|done]. cbn.
  destruct (buffers dev !! h) as [buf|] eqn:Hb; [|done]. cbn.
  destruct (decide (stack_size > GetSize buf)) as [Hgt|]; [|done].
  intros [= <- <-]. exists h, buf. by split_and!.
Qed.

Lemma relocate_stack_refused_consistent stack_size dev self dev' self' :
  consistent dev self →
  relocate_stack_refused stack_size dev self = Some (dev', self') →
  consistent dev' self'.
Proof.
  intros ([Hbudget Hnone] & Hfresh & Hprim) Hrun.
  apply relocate_stack_refused_inv in Hrun
    as (h & buf & _ & _ & _ & -> & Hb & Hp & _).
  split_and!.
  - split.
    + by rewrite Hb, max_alloc_DeleteBuffer.
    + rewrite Hb. intros Hn. specialize (Hnone Hn).
      rewrite holds_no_primary_false in *. rewrite Hp.
      intros b' Hb'. by apply live_DeleteBuffer_false, Hnone.
  - intros h' Hh%buffers_DeleteBuffer. rewrite next_handle_DeleteBuffer. auto.
  - rewrite Hp, next_handle_DeleteBuffer. done.
Qed.

Lemma reachable_consistent dev self : reachable dev self → consistent dev self.
Proof.
  induction 1 as
    [dev ind Hfresh
    |dev self dev' _ IH Hstep
    |world dev self out dev' self' _ IH Hrun
    |q r n hi dev self dev' self' _ IH Hrun
    |q r n hi dev self dev' self' _ IH Hrun
    |q r n m hi dev self dev' self' _ IH Hrun
    |q r n m hi dev self dev' self' _ IH Hrun
    |g world dev self dev' self' _ IH Hrun
    |n dev self dev' self' _ IH Hrun].
  - by apply consistent_new.
  - by eapply application_step_consistent.
  - by eapply Preprocess_consistent.
  - apply QueryIntersection_inv in Hrun as (d & Hrel & ->).
    apply launch_consistent. by eapply relocate_stack_consistent.
  - apply QueryOcclusion_inv in Hrun as (d & Hrel & ->).
    apply launch_consistent. by eapply relocate_stack_consistent.
  - apply QueryIntersection_indirect_inv in Hrun as (d & Hrel & ->).
    apply launch_consistent. by eapply relocate_stack_consistent.
  - apply QueryOcclusion_indirect_inv in Hrun as (d & Hrel & ->).
    apply launch_consistent. by eapply relocate_stack_consistent.
  - by eapply Preprocess_refused_consistent.
  - by eapply relocate_stack_refused_consistent.
Qed.

Lemma reachable_settled dev self : reachable dev self → settled dev self.
Proof. intros Hr. by apply reachable_consistent in Hr as [Hs _]. Qed.

Lemma application_step_mono protected dev dev' :
  application_step protected dev dev' → application_step [] dev dev'.
Proof.
  intros [size init|b data dev'' _ Hrun|b _|d].
  - apply app_CreateBuffer.
  - eapply app_UnmapBuffer; [apply not_elem_of_nil|done].
  - apply app_DeleteBuffer, not_elem_of_nil.
  - apply app_Execute.
Qed.

Lemma granted_reachable dev self : granted dev self → reachable dev self.
Proof.
  induction 1.
  - by apply reach_new.
  - eapply reach_application; [done|]. by eapply application_step_mono.
  - by eapply reach_Preprocess.
  - by eapply reach_QueryIntersection.
  - by eapply reach_QueryOcclusion.
  - by eapply reach_QueryIntersection_indirect.
  - by eapply reach_QueryOcclusion_indirect.
Qed.

(** C7. In every state the strategy can be in (after construction, any
    use of the device by the application, and any [Preprocess] and query
    calls, returned, thrown or ended by a refused allocation), a
    [Preprocess] that ends with one of its two errors leaves the strategy
    with no BVH and with none of its five primary pointers naming a buffer
    of the device; this includes the rebuild of an installed BVH. *)
Theorem fatal_error_leaves_nothing world dev self what dev' self' :
  reachable dev self →
  Preprocess world dev self = Some (Thrown what, dev', self') →
  (what = no_stack_memory ∨ what = stack_overflow) ∧
  m_bvh self' = None ∧
  ∀ b, b ∈ primary (m_gpudata self') → live dev' b = false.
Proof.
  intros Hreach Hrun.
  destruct (failure_leaves_nothing _ _ _ _ _ _ (reachable_settled _ _ Hreach)
              Hrun) as (Hb & Hp & Hw).
  split_and!; [done|done|]. by apply holds_no_primary_false.
Qed.
(** The required stack size is [4 * numrays * 48] as long as that product
    fits 32 bits, that is up to 22,369,621 rays. *)
Lemma required_stack_size_exact numrays :
  0 <= numrays → 4 * numrays * 48 < 2 ^ 32 →
  required_stack_size numrays = 4 * numrays * 48.
Proof.
  intros H0' Hlt. unfold required_stack_size, uint32_mul, to_uint32, to_size_t.
  change kMaxStackSize with 48.
  rewrite (Z.mod_small (4 * numrays)) by lia.
  rewrite (Z.mod_small (4 * numrays * 48)) by lia.
  rewrite Z.mod_small; lia.
Qed.

(** A rebuilding [Preprocess] that returns has created the stack buffer
    anew, under a handle of its own, with 1,048,576 × 48 bytes. *)
Lemma Preprocess_creates_stack world dev self dev' self' :
  rebuild_needed self world = true →
  Preprocess world dev self = Some (Returned, dev', self') →
  GpuData.stack (m_gpudata self') = Some (next_handle dev + 5)%positive ∧
  size_of dev' (GpuData.stack (m_gpudata self')) = Some (1048576 * 48) ∧
  ∀ h, (h < next_handle dev)%positive →
       buffers dev' !! h = buffers (released dev self) !! h.
Proof.
  intros Hr Hrun.
  destruct (decide (max_alloc_size dev <= stack_budget)) as [Hle|Hgt].
  { rewrite Preprocess_no_memory in Hrun by done. done. }
  rewrite Preprocess_rebuild in Hrun by (done || lia).
  apply rebuild_inv in Hrun as (flat & _ & [(_ & [=] & _)|(_ & _ & Hup)]).
  apply upload_inv in Hup as (vd & fd & _ & _ & Hinst).
  destruct Hinst as (_ & Hg & _ & _ & Hold & _ & _ & _ & _ & _ & _ & Hsz).
  rewrite next_handle_released in *. rewrite Hg. cbn. split_and!; done.
Qed.

(** For a batch whose required size fits 32 bits, the stack buffer has at
    least [4 * numrays * 48] bytes after the stack block, and is replaced
    exactly when that exceeds its size on entry. *)
Lemma relocate_stack_small_batch numrays dev self dev' self' :
  0 <= numrays → 4 * numrays * 48 < 2 ^ 32 →
  relocate_stack (required_stack_size numrays) dev self = Some (dev', self') →
  ∃ old,
    size_of dev (GpuData.stack (m_gpudata self)) = Some old ∧
    size_of dev' (GpuData.stack (m_gpudata self'))
    = Some (old `max` (4 * numrays * 48)) ∧
    (4 * numrays * 48 <= old → buffers dev' = buffers dev ∧ self' = self) ∧
    (4 * numrays * 48 > old →
     GpuData.stack (m_gpudata self') = Some (next_handle dev)).
Proof.
  intros H0' Hlt Hrun. rewrite required_stack_size_exact in Hrun by done.
  destruct (relocate_stack_size _ _ _ _ _ Hrun) as (old & Hold & Hnew).
  exists old. split_and!; [done..| |].
  - intros Hle.
    destruct (relocate_stack_inv _ _ _ _ _ Hrun) as (h & buf & Hs & Hb & Hcase).
    unfold size_of in Hold. rewrite Hs in Hold. cbn in Hold.
    rewrite Hb in Hold. injection Hold as <-.
    destruct Hcase as [(_ & -> & ->)|(Hgt & _)]; [done|lia].
  - intros Hgt.
    destruct (relocate_stack_inv _ _ _ _ _ Hrun) as (h & buf & Hs & Hb & Hcase).
    unfold size_of in Hold. rewrite Hs in Hold. cbn in Hold.
    rewrite Hb in Hold. injection Hold as <-.
    destruct Hcase as [(Hle & _)|(_ & _ & _ & Hs' & _)]; [lia|done].
Qed.
(** The four query operations on batches whose required size fits 32
    bits. *)
Lemma QueryIntersection_stack queueidx rays numrays hits dev self dev' self' :
  0 <= numrays → 4 * numrays * 48 < 2 ^ 32 →
  QueryIntersection queueidx rays numrays hits dev self = Some (dev', self') →
  ∃ old,
    size_of dev (GpuData.stack (m_gpudata self)) = Some old ∧
    size_of dev' (GpuData.stack (m_gpudata self'))
    = Some (old `max` (4 * numrays * 48)).
Proof.
  intros H0' Hlt (d & Hrel & ->)%QueryIntersection_inv.
  destruct (relocate_stack_small_batch _ _ _ _ _ H0' Hlt Hrel)
    as (old & ? & ? & _).
  by exists old.
Qed.

Lemma QueryOcclusion_stack queueidx rays numrays hits dev self dev' self' :
  0 <= numrays → 4 * numrays * 48 < 2 ^ 32 →
  QueryOcclusion queueidx rays numrays hits dev self = Some (dev', self') →
  ∃ old,
    size_of dev (GpuData.stack (m_gpudata self)) = Some old ∧
    size_of dev' (GpuData.stack (m_gpudata self'))
    = Some (old `max` (4 * numrays * 48)).
Proof.
  intros H0' Hlt (d & Hrel & ->)%QueryOcclusion_inv.
  destruct (relocate_stack_small_batch _ _ _ _ _ H0' Hlt Hrel)
    as (old & ? & ? & _).
  by exists old.
Qed.

Lemma QueryIntersection_indirect_stack queueidx rays numrays maxrays hits
    dev self dev' self' :
  0 <= maxrays → 4 * maxrays * 48 < 2 ^ 32 →
  QueryIntersection_indirect queueidx rays numrays maxrays hits dev self
  = Some (dev', self') →
  ∃ old,
    size_of dev (GpuData.stack (m_gpudata self)) = Some old ∧
    size_of dev' (GpuData.stack (m_gpudata self'))
    = Some (old `max` (4 * maxrays * 48)).
Proof.
  intros H0' Hlt (d & Hrel & ->)%QueryIntersection_indirect_inv.
  destruct (relocate_stack_small_batch _ _ _ _ _ H0' Hlt Hrel)
    as (old & ? & ? & _).
  by exists old.
Qed.

Lemma QueryOcclusion_indirect_stack queueidx rays numrays maxrays hits
    dev self dev' self' :
  0 <= maxrays → 4 * maxrays * 48 < 2 ^ 32 →
  QueryOcclusion_indirect queueidx rays numrays maxrays hits dev self
  = Some (dev', self') →
  ∃ old,
    size_of dev (GpuData.stack (m_gpudata self)) = Some old ∧
    size_of dev' (GpuData.stack (m_gpudata self'))
    = Some (old `max` (4 * maxrays * 48)).
Proof.
  intros H0' Hlt (d & Hrel & ->)%QueryOcclusion_indirect_inv.
  destruct (relocate_stack_small_batch _ _ _ _ _ H0' Hlt Hrel)
    as (old & ? & ? & _).
  by exists old.
Qed.
End lifecycle.

(** ** The vertex loops under OpenMP: the run of one thread *)
Section parallel_loops.
Context `{Collaborators}.
Implicit Types (view : Shape → option (Mesh * (matrix * matrix))).

Lemma advance_None lo step schedule :
  foldl (advance lo step) None schedule = None.
Proof. by induction schedule. Qed.

Lemma advance_Some lo step progress st i p p' st' :
  lo <= i → progress !! Z.to_nat (i - lo) = Some p →
  step i p st = Some (p', st') →
  advance lo step (Some (progress, st)) i
  = Some (<[Z.to_nat (i - lo) := p']> progress, st').
Proof.
  intros Hlo Hp Hstep. pose proof (lookup_lt_Some _ _ _ Hp) as Hlt.
  unfold advance. cbn.
  rewrite (proj2 (at_Some progress (i - lo) p)) by (split; [lia|done]). cbn.
  rewrite Hstep. cbn. rewrite store_Some by lia. done.
Qed.

(** The trips of the inner loop of an iteration, taken without
    interruption, copy what the inner loop copies. *)
Lemma copying_steps view shapes o lo i shape mesh m minv :
  at_ shapes i = Some shape → view shape = Some (mesh, (m, minv)) →
  lo <= i → num_vertices mesh <= int_max →
  ∀ (n : nat) j vd vd' progress,
    progress !! Z.to_nat (i - lo) = Some (Copying j) →
    0 <= j → j + Z.of_nat n <= num_vertices mesh →
    for_loop n j
      (λ j vertexdata,
         start ← at_ (mesh_vertices_start_idx o) i;
         v ← at_ (GetVertexData mesh) j;
         store vertexdata (int_add start j) (Some (transform_point v m)))
      vd = Some vd' →
    foldl (advance lo (vertex_step view shapes o))
      (Some (progress, ((m, minv), vd))) (replicate n i)
    = Some (<[Z.to_nat (i - lo) := Copying (j + Z.of_nat n)]> progress,
            ((m, minv), vd')).
Proof.
  intros Hs Hv Hlo Hmax.
  induction n as [|n IH]; intros j vd vd' progress Hp Hj Hjn Hrun.
  - cbn in *. injection Hrun as <-. rewrite Z.add_0_r.
    by rewrite list_insert_id.
  - pose proof (lookup_lt_Some _ _ _ Hp) as Hlt.
    cbn [for_loop] in Hrun. cbn [replicate foldl].
    destruct (at_ (mesh_vertices_start_idx o) i) as [start|] eqn:Hst;
      [|done]. cbn in Hrun.
    destruct (at_ (GetVertexData mesh) j) as [v|] eqn:Hvj; [|done].
    cbn in Hrun.
    destruct (store vd (int_add start j) (Some (transform_point v m)))
      as [vd1|] eqn:Hstore; [|done]. cbn in Hrun.
    rewrite int_add_exact in Hrun by int_range.
    rewrite (advance_Some _ _ _ _ _ (Copying j) (Copying (j + 1))
               ((m, minv), vd1)); [|done|done|].
    2:{ unfold vertex_step. rewrite Hs. cbn. rewrite Hv. cbn.
        rewrite decide_True by lia. rewrite Hst. cbn. rewrite Hvj. cbn.
        rewrite Hstore. cbn. by rewrite int_add_exact by int_range. }
    rewrite (IH (j + 1) vd1 vd'); [| |lia|lia|done].
    2:{ apply list_lookup_insert_eq. lia. }
    rewrite list_insert_insert_eq.
    by replace (j + 1 + Z.of_nat n) with (j + Z.of_nat (S n)) by lia.
Qed.

(** An iteration taken from its first step to its last without
    interruption does what the loop body does. *)
Lemma iteration_steps view shapes o lo i shape mesh m minv progress st vd' :
  at_ shapes i = Some shape → view shape = Some (mesh, (m, minv)) →
  lo <= i → num_vertices mesh <= int_max →
  progress !! Z.to_nat (i - lo) = Some Waiting →
  copy_vertices (GetVertexData mesh) (num_vertices mesh) o i m st.2
  = Some vd' →
  foldl (advance lo (vertex_step view shapes o)) (Some (progress, st))
    (replicate (2 + Z.to_nat (num_vertices mesh)) i)
  = Some (<[Z.to_nat (i - lo) := Finished]> progress, ((m, minv), vd')).
Proof.
  intros Hs Hv Hlo Hmax Hp Hcopy.
  pose proof (lookup_lt_Some _ _ _ Hp) as Hlt.
  assert (0 <= num_vertices mesh) as Hnn by (unfold num_vertices; lia).
  replace (2 + Z.to_nat (num_vertices mesh))%nat
    with (1 + (Z.to_nat (num_vertices mesh) + 1))%nat by lia.
  rewrite !replicate_add, !foldl_app. cbn [replicate foldl].
  rewrite (advance_Some _ _ _ _ _ Waiting (Copying 0) ((m, minv), st.2));
    [|done|done|].
  2:{ unfold vertex_step. rewrite Hs. cbn. by rewrite Hv. }
  unfold copy_vertices, for_range in Hcopy. rewrite Z.sub_0_r in Hcopy.
  rewrite (copying_steps view shapes o lo i shape mesh m minv Hs Hv Hlo Hmax
             (Z.to_nat (num_vertices mesh)) 0 st.2 vd');
    [| |done|lia|done].
  2:{ apply list_lookup_insert_eq. lia. }
  rewrite list_insert_insert_eq.
  replace (0 + Z.of_nat (Z.to_nat (num_vertices mesh)))
    with (num_vertices mesh) by lia.
  rewrite (advance_Some _ _ _ _ _ (Copying (num_vertices mesh)) Finished
             ((m, minv), vd')); [|done| |].
  - by rewrite list_insert_insert_eq.
  - apply list_lookup_insert_eq. lia.
  - unfold vertex_step. rewrite Hs. cbn. rewrite Hv. cbn.
    by rewrite decide_False by lia.
Qed.

(** The loop a thread runs alone, iteration after iteration. *)
Lemma in_order_steps view shapes o lo
    (body : Z → VertexState → option VertexState) :
  (∀ i st st',
     body i st = Some st' →
     ∃ shape mesh m minv,
       at_ shapes i = Some shape ∧ view shape = Some (mesh, (m, minv)) ∧
       num_vertices mesh = num_vertices (base_mesh shape) ∧
       ∃ vd', copy_vertices (GetVertexData mesh) (num_vertices mesh) o i m st.2
              = Some vd' ∧ st' = ((m, minv), vd')) →
  Forall (λ shape, num_vertices (base_mesh shape) <= int_max) shapes →
  ∀ (n d : nat) st st',
    lo + Z.of_nat d + Z.of_nat n <= int_max → int_min <= lo →
    for_loop n (lo + Z.of_nat d) body st = Some st' →
    foldl (advance lo (vertex_step view shapes o))
      (Some (replicate d Finished ++ replicate n Waiting, st))
      (flat_map
         (λ k : nat,
            match at_ shapes (lo + Z.of_nat k) with
            | Some shape =>
                replicate (2 + Z.to_nat (num_vertices (base_mesh shape)))
                  (lo + Z.of_nat k)
            | None => []
            end)
         (seq d n))
    = Some (replicate (d + n) Finished, st').
Proof.
  intros Hbody Hsmall. induction n as [|n IH]; intros d st st' Hhi Hlo Hrun.
  - cbn in *. injection Hrun as <-. by rewrite app_nil_r, Nat.add_0_r.
  - cbn [for_loop] in Hrun. cbn [seq flat_map].
    destruct (body (lo + Z.of_nat d) st) as [st1|] eqn:Hb; [|done].
    cbn in Hrun.
    destruct (Hbody _ _ _ Hb)
      as (shape & mesh & m & minv & Hs & Hv & Hnv & vd' & Hcopy & ->).
    rewrite Hs, foldl_app, <- Hnv.
    assert (num_vertices mesh <= int_max) as Hmax.
    { rewrite Hnv. apply at_Some in Hs as [_ Hs].
      by apply (Forall_lookup_1 _ _ _ _ Hsmall Hs). }
    assert (Z.to_nat (lo + Z.of_nat d - lo) = d) as Hd by lia.
    rewrite (iteration_steps view shapes o lo (lo + Z.of_nat d) shape mesh
               m minv _ st vd'); [|done|done|lia|done| |done].
    2:{ rewrite Hd, lookup_app_r by (rewrite length_replicate; lia).
        rewrite length_replicate, Nat.sub_diag. done. }
    rewrite Hd. rewrite int_add_exact in Hrun by int_range.
    replace (lo + Z.of_nat d + 1) with (lo + Z.of_nat (S d)) in Hrun by lia.
    replace (<[d:=Finished]> (replicate d Finished ++ replicate (S n) Waiting))
      with (replicate (S d) Finished ++ replicate n Waiting).
    2:{ rewrite insert_app_r_alt by (rewrite length_replicate; lia).
        rewrite length_replicate, Nat.sub_diag.
        replace (S d) with (d + 1)%nat by lia.
        by rewrite replicate_add, <- app_assoc. }
    rewrite (IH (S d) _ st'); [|lia|done|done].
    by replace (S d + n)%nat with (d + S n)%nat by lia.
Qed.

Lemma parallel_for_in_order view shapes o lo hi
    (body : Z → VertexState → option VertexState) st st' :
  (∀ i st st',
     body i st = Some st' →
     ∃ shape mesh m minv,
       at_ shapes i = Some shape ∧ view shape = Some (mesh, (m, minv)) ∧
       num_vertices mesh = num_vertices (base_mesh shape) ∧
       ∃ vd', copy_vertices (GetVertexData mesh) (num_vertices mesh) o i m st.2
              = Some vd' ∧ st' = ((m, minv), vd')) →
  Forall (λ shape, num_vertices (base_mesh shape) <= int_max) shapes →
  int_min <= lo → lo <= hi → hi <= int_max →
  for_range lo hi body st = Some st' →
  parallel_for lo hi (vertex_step view shapes o)
    (in_order shapes lo (Z.to_nat (hi - lo))) st
  = Some st'.
Proof.
  intros Hbody Hsmall Hlo Hle Hhi Hrun. unfold parallel_for, in_order.
  unfold for_range in Hrun.
  pose proof (in_order_steps view shapes o lo body Hbody Hsmall
                (Z.to_nat (hi - lo)) 0 st st') as Hsteps.
  rewrite Z.add_0_r in Hsteps. cbn [replicate app] in Hsteps.
  rewrite Hsteps by (done || lia). cbn.
  replace (forallb is_finished (replicate (Z.to_nat (hi - lo)) Finished))
    with true; [done|].
  symmetry. apply forallb_forall.
  intros p Hp%list_elem_of_In. by apply elem_of_replicate in Hp as [-> _].
Qed.

(** With one thread the parallel vertex pass is the vertex pass run in
    index order: [write_vertices] is one of the runs of
    [write_vertices_parallel]. *)
Lemma write_vertices_in_order world flat vertexdata vertexdata' :
  well_flattened world flat →
  write_vertices flat vertexdata = Some vertexdata' →
  write_vertices_parallel flat
    (in_order (shapes flat) 0 (Z.to_nat (nummeshes flat)))
    (in_order (shapes flat) (nummeshes flat) (Z.to_nat (numinstances flat)))
    vertexdata
  = Some vertexdata'.
Proof.
  intros (km & _ & _ & [Hk _] & Hnm & Hni & _ & Hlen & Ho & _ & Hvmax & _) Hrun.
  unfold write_vertices in Hrun. unfold write_vertices_parallel.
  destruct (for_range 0 (nummeshes flat) _ _) as [st1|] eqn:H1; [|done].
  cbn in Hrun.
  destruct (for_range (nummeshes flat) _ _ st1) as [st2|] eqn:H2; [|done].
  cbn in Hrun. injection Hrun as <-.
  assert (Forall (λ shape, num_vertices (base_mesh shape) <= int_max)
            (shapes flat)) as Hsmall.
  { apply Forall_lookup_2. intros k shape Hs.
    pose proof (lookup_lt_Some _ _ _ Hs) as Hlt.
    pose proof (vertex_start_S _ _ _ Hs) as HS.
    pose proof (vertex_start_mono (shapes flat) (S k) (length (shapes flat))
                  ltac:(lia)) as Hm.
    pose proof (vertex_start_nonneg (shapes flat) k).
    destruct Ho as (_ & _ & _ & Hnv). unfold vertex_count in HS. lia. }
  rewrite int_add_exact in * by int_range.
  replace (Z.to_nat (nummeshes flat))
    with (Z.to_nat (nummeshes flat - 0)) by lia.
  rewrite (parallel_for_in_order mesh_view (shapes flat) (offsets flat) 0
             (nummeshes flat) (vertices_mesh (shapes flat) (offsets flat))
             _ st1); [| |done|int_range|lia|int_range|done].
  2:{ intros i st st' Hb. unfold vertices_mesh in Hb.
      destruct (at_ (shapes flat) i) as [shape|]; [|done]. cbn in Hb.
      destruct shape as [mesh|]; [|done]. cbn in Hb.
      destruct (copy_vertices _ _ _ _ _ _) as [vd'|] eqn:Hc; [|done].
      cbn in Hb. injection Hb as <-.
      exists (ShapeMesh mesh), mesh, (mesh_m mesh), (mesh_minv mesh).
      split_and!; [done..|]. by exists vd'. }
  cbn.
  replace (Z.to_nat (numinstances flat))
    with (Z.to_nat (nummeshes flat + numinstances flat - nummeshes flat))
    by lia.
  rewrite (parallel_for_in_order instance_view (shapes flat) (offsets flat)
             (nummeshes flat) (nummeshes flat + numinstances flat)
             (vertices_instance (shapes flat) (offsets flat)) _ st2);
    [done| |done|int_range|lia|int_range|done].
  intros i st st' Hb. unfold vertices_instance in Hb.
  destruct (at_ (shapes flat) i) as [shape|]; [|done]. cbn in Hb.
  destruct shape as [|inst]; [done|]. cbn in Hb.
  destruct (copy_vertices _ _ _ _ _ _) as [vd'|] eqn:Hc; [|done].
  cbn in Hb. injection Hb as <-.
  exists (ShapeInstance inst), (GetBaseShape inst), (inst_m inst),
    (inst_minv inst).
  split_and!; [done..|]. by exists vd'.
Qed.
End parallel_loops.

(** ** More on scene flattening *)
Section flattening_more.
Context `{Collaborators}.
Implicit Types (l : list Shape) (o : Offsets).

Lemma filter_all {A} (P : A → Prop) `{∀ x, Decision (P x)} (v : list A) :
  Forall P v → filter P v = v.
Proof.
  induction 1 as [|x v Hx _ IH]; [done|].
  by rewrite filter_cons_True, IH.
Qed.

Lemma filter_none {A} (P : A → Prop) `{∀ x, Decision (P x)} (v : list A) :
  Forall (λ x, ¬ P x) v → filter P v = [].
Proof.
  induction 1 as [|x v Hx _ IH]; [done|].
  by rewrite filter_cons_False.
Qed.

Lemma meshes_first_count l k :
  meshes_first l k →
  length (filter (λ shape, is_instance shape = false) l) = k.
Proof.
  intros (Hk & Hm & Hi). rewrite <- (take_drop k l), filter_app.
  rewrite (filter_all _ _ Hm), filter_none, app_nil_r.
  - rewrite length_take. lia.
  - eapply Forall_impl; [exact Hi|]. intros shape ->. done.
Qed.

Lemma face_start_lookup l o (i : nat) :
  offsets_of l o → (i < length l)%nat →
  mesh_faces_start_idx o !! i = Some (face_start l i).
Proof. intros Ho Hi. rewrite <- at_nat. by apply face_start_at. Qed.

Lemma vertex_start_lookup l o (i : nat) :
  offsets_of l o → (i < length l)%nat →
  mesh_vertices_start_idx o !! i = Some (vertex_start l i).
Proof. intros Ho Hi. rewrite <- at_nat. by apply vertex_start_at. Qed.

(** X1. The totals [flatten] ends with are those of the world: [numfaces]
    and [numvertices] are the numbers of faces and of vertices of all shapes
    of [world.shapes_] (through their base meshes), [nummeshes] is the number
    of non-instance shapes, [nummeshes + numinstances] is the number of shapes,
    and the bounds vector and the shape table have [numfaces] and
    [numshapes] entries. *)
Theorem flatten_totals world :
  fits world →
  ∃ flat, flatten world = Some flat ∧
    numfaces (offsets flat)
    = sumZ ((λ shape, num_faces (base_mesh shape)) <$> shapes_ world) ∧
    numvertices (offsets flat)
    = sumZ ((λ shape, num_vertices (base_mesh shape)) <$> shapes_ world) ∧
    nummeshes flat
    = Z.of_nat (length (filter (λ shape, is_instance shape = false)
                          (shapes_ world))) ∧
    nummeshes flat + numinstances flat = Z.of_nat (length (shapes_ world)) ∧
    numshapes flat = Z.of_nat (length (shapes_ world)) ∧
    Z.of_nat (length (bounds flat)) = numfaces (offsets flat) ∧
    length (shapedata flat) = length (shapes_ world).
Proof.
  intros Hfits. destruct (flatten_spec world Hfits) as (flat & Hflat & Hw).
  exists flat. split; [done|].
  destruct Hw as (k & _ & Hperm & Hmf & Hnm & Hni & Hns & _ & Ho & _ & _ &
    Hlb & Hls & _).
  destruct Ho as (_ & _ & Hnf & Hnv). pose proof Hmf as (Hk & _).
  pose proof (Permutation_length Hperm) as Hlen.
  split_and!.
  - rewrite Hnf. unfold face_start. rewrite (prefix_perm _ _ _ Hperm).
    unfold prefix. by rewrite firstn_all.
  - rewrite Hnv. unfold vertex_start. rewrite (prefix_perm _ _ _ Hperm).
    unfold prefix. by rewrite firstn_all.
  - rewrite Hnm, <- Hperm. by rewrite (meshes_first_count _ _ Hmf).
  - rewrite Hnm, Hni. lia.
  - rewrite Hns. lia.
  - done.
  - lia.
Qed.

(** X2. The start offsets tile the flattened streams: shape 0 starts at 0,
    every shape starts where the one before it ends, and the last shape ends
    at the total. This holds for the face offsets with the face counts and
    for the vertex offsets with the vertex counts. *)
Theorem offsets_tile world flat :
  fits world → flatten world = Some flat →
  ∀ (k : nat) shape,
    shapes flat !! k = Some shape →
    ∃ fstart vstart,
      mesh_faces_start_idx (offsets flat) !! k = Some fstart ∧
      mesh_vertices_start_idx (offsets flat) !! k = Some vstart ∧
      (k = 0%nat → fstart = 0 ∧ vstart = 0) ∧
      0 <= fstart ∧ 0 <= vstart ∧
      (if decide (S k < length (shapes flat))%nat
       then mesh_faces_start_idx (offsets flat) !! S k
            = Some (fstart + num_faces (base_mesh shape)) ∧
            mesh_vertices_start_idx (offsets flat) !! S k
            = Some (vstart + num_vertices (base_mesh shape))
       else numfaces (offsets flat) = fstart + num_faces (base_mesh shape) ∧
            numvertices (offsets flat)
            = vstart + num_vertices (base_mesh shape)).
Proof.
  intros Hfits Hflat k shape Hk.
  pose proof (flatten_well_flattened _ _ Hfits Hflat) as Hw.
  destruct Hw as (km & _ & _ & _ & _ & _ & _ & _ & Ho & _).
  pose proof (lookup_lt_Some _ _ _ Hk) as Hlt.
  exists (face_start (shapes flat) k), (vertex_start (shapes flat) k).
  rewrite (face_start_lookup _ _ _ Ho Hlt), (vertex_start_lookup _ _ _ Ho Hlt).
  pose proof (face_start_S _ _ _ Hk) as HfS.
  pose proof (vertex_start_S _ _ _ Hk) as HvS.
  unfold face_count, vertex_count in *.
  split_and!; [done|done| | | |].
  - intros ->. unfold face_start, vertex_start. by rewrite !prefix_0.
  - apply face_start_nonneg.
  - apply vertex_start_nonneg.
  - case_decide as Hn.
    + rewrite (face_start_lookup _ _ _ Ho Hn), (vertex_start_lookup _ _ _ Ho Hn).
      by rewrite HfS, HvS.
    + destruct Ho as (_ & _ & -> & ->).
      replace (length (shapes flat)) with (S k) by lia. by rewrite HfS, HvS.
Qed.

(** X3. The shape lookup of the face pass: for every face number [orig]
    in [0, numfaces), [std::upper_bound] over the face start offsets returns
    the position after the one shape whose face range contains [orig], also
    when shapes without faces share their start offset with it; the face
    number inside that shape, [orig - start], is a valid index of its base
    mesh. *)
Theorem shape_lookup world flat orig :
  fits world → flatten world = Some flat →
  0 <= orig < numfaces (offsets flat) →
  ∃ (k : nat) shape start,
    std_upper_bound (mesh_faces_start_idx (offsets flat)) orig = S k ∧
    shapes flat !! k = Some shape ∧
    mesh_faces_start_idx (offsets flat) !! k = Some start ∧
    0 <= orig - start < num_faces (base_mesh shape) ∧
    ∀ (k' : nat) shape' start',
      shapes flat !! k' = Some shape' →
      mesh_faces_start_idx (offsets flat) !! k' = Some start' →
      0 <= orig - start' < num_faces (base_mesh shape') →
      k' = k.
Proof.
  intros Hfits Hflat Horig.
  pose proof (flatten_well_flattened _ _ Hfits Hflat) as Hw.
  destruct Hw as (km & _ & _ & _ & _ & _ & _ & _ & Ho & _).
  destruct (locate_shape _ _ _ Ho Horig) as (k & shape & Hub & Hk & Hin).
  pose proof (lookup_lt_Some _ _ _ Hk) as Hlt.
  exists k, shape, (face_start (shapes flat) k).
  rewrite (face_start_lookup _ _ _ Ho Hlt).
  unfold face_count in Hin. split_and!; [done..|lia|lia|].
  intros k' shape' start' Hk' Hs' Hin'.
  pose proof (lookup_lt_Some _ _ _ Hk') as Hlt'.
  rewrite (face_start_lookup _ _ _ Ho Hlt') in Hs'.
  injection Hs' as <-.
  pose proof (face_start_S _ _ _ Hk) as HS.
  pose proof (face_start_S _ _ _ Hk') as HS'.
  unfold face_count in *.
  destruct (decide (k' < k)%nat) as [Hc|Hc].
  { pose proof (face_start_mono (shapes flat) (S k') k ltac:(lia)). lia. }
  destruct (decide (k < k')%nat) as [Hc'|Hc']; [|lia].
  pose proof (face_start_mono (shapes flat) (S k) k' ltac:(lia)). lia.
Qed.
Lemma set_id_mask_spec (shapedata : list ShapeData.t) (i : nat) sd id mask :
  shapedata !! i = Some sd →
  set_id_mask shapedata (Z.of_nat i) id mask
  = Some (<[i := ShapeData.mk id (ShapeData.bvhidx sd) mask
                   (ShapeData.padding1 sd)]> shapedata).
Proof.
  intros Hi. pose proof (lookup_lt_Some _ _ _ Hi).
  unfold set_id_mask. rewrite at_nat, Hi. cbn.
  rewrite store_Some by lia. by rewrite Nat2Z.id.
Qed.

(** Both bounds loops again, now for what they leave in the shape table. *)
Lemma bounds_loops_records l k o bounds0 :
  meshes_first l k → offsets_of l o →
  Z.of_nat (length l) <= int_max → numfaces o <= int_max →
  Z.of_nat (length bounds0) = numfaces o →
  ∃ st1 st,
    for_range 0 (Z.of_nat k) (bounds_mesh l o)
      (bounds0, replicate (length l) ShapeData.init) = Some st1 ∧
    for_range (Z.of_nat k) (Z.of_nat (length l)) (bounds_instance l o) st1
    = Some st ∧
    records_written l (length l) st.2.
Proof.
  intros Hmf Ho Hn Hmax Hlb. pose proof Hmf as (Hk & _).
  set (P := λ (j : Z) (st : list bbox * list ShapeData.t),
         Z.of_nat (length st.1) = numfaces o ∧ length st.2 = length l ∧
         bounds_written l (Z.to_nat j) st.1 ∧
         records_written l (Z.to_nat j) st.2 ∧
         ∀ i, (Z.to_nat j ≤ i < length l)%nat →
              st.2 !! i = Some ShapeData.init).
  assert (∀ (j : Z) b sd shape,
    0 <= j < Z.of_nat (length l) → l !! Z.to_nat j = Some shape →
    P j (b, sd) →
    ∀ b', length b' = length b → bounds_written l (S (Z.to_nat j)) b' →
    ∃ sd', set_id_mask sd j (shape_id shape) (shape_mask shape) = Some sd' ∧
           P (j + 1) (b', sd')) as Hstep.
  { intros j b sd shape Hj Hs (Hb & Hsd & Hw & Hr & Hinit) b' Hlb' Hw'.
    cbn in Hb, Hsd, Hw, Hr, Hinit.
    pose proof (Hinit (Z.to_nat j) ltac:(lia)) as Hat.
    pose proof (set_id_mask_spec sd (Z.to_nat j) _ (shape_id shape)
                  (shape_mask shape) Hat) as Hset.
    rewrite Z2Nat.id in Hset by lia. eexists. split; [exact Hset|].
    assert (Z.to_nat (j + 1) = S (Z.to_nat j)) as Hj1 by lia.
    unfold P. rewrite Hj1. split_and!.
    - cbn. lia.
    - cbn. by rewrite length_insert.
    - exact Hw'.
    - cbn. intros i shape' Hi Hi'. destruct (decide (i = Z.to_nat j)) as [->|Hne].
      + rewrite list_lookup_insert_eq by lia.
        assert (shape' = shape) as -> by congruence. done.
      + rewrite list_lookup_insert_ne by done. apply Hr; [lia|done].
    - cbn. intros i Hi. rewrite list_lookup_insert_ne by lia.
      apply Hinit. lia. }
  destruct (for_range_inv P (bounds_mesh l o) 0 (Z.of_nat k)
              (bounds0, replicate (length l) ShapeData.init))
    as (st1 & Hrun1 & H1).
  { rewrite int_min_value. lia. } { lia. } { lia. }
  { split_and!; cbn.
    - done.
    - by rewrite length_replicate.
    - intros ? ? ? ?. lia.
    - intros ? ? ?. lia.
    - intros i Hi. apply lookup_replicate_2. lia. }
  { intros j [b sd] Hj HP. pose proof HP as (Hb & Hsd & Hw & _).
    cbn in Hb, Hsd, Hw.
    destruct (lookup_lt_is_Some_2 l (Z.to_nat j)) as [shape Hs]; [lia|].
    unfold bounds_mesh.
    rewrite (proj2 (at_Some l j shape)) by (split; [lia|done]). cbn.
    pose proof (mesh_before l k (Z.to_nat j) shape Hmf ltac:(lia) Hs) as Hm.
    destruct shape as [mesh|]; [|done]. cbn.
    destruct (bounds_inner l o (Z.to_nat j) (ShapeMesh mesh) b)
      as (b' & Hrun & Hl' & Hw'); [done..|].
    rewrite Z2Nat.id in Hrun by lia. cbn in Hrun.
    change (num_faces mesh) with (face_count (ShapeMesh mesh)).
    rewrite Hrun. cbn.
    destruct (Hstep j b sd (ShapeMesh mesh) ltac:(lia) Hs HP b' Hl' Hw')
      as (sd' & Hsd' & HP').
    cbn in Hsd'. rewrite Hsd'. cbn. by eexists. }
  destruct (for_range_inv P (bounds_instance l o) (Z.of_nat k)
              (Z.of_nat (length l)) st1) as (st & Hrun2 & H2).
  { rewrite int_min_value. lia. } { lia. } { lia. } { done. }
  { intros j [b sd] Hj HP. pose proof HP as (Hb & Hsd & Hw & _).
    cbn in Hb, Hsd, Hw.
    destruct (lookup_lt_is_Some_2 l (Z.to_nat j)) as [shape Hs]; [lia|].
    unfold bounds_instance.
    rewrite (proj2 (at_Some l j shape)) by (split; [lia|done]). cbn.
    destruct (instance_after l k (Z.to_nat j) shape) as (inst & Hi' & ->);
      [done|lia|done|]. cbn.
    destruct (bounds_inner l o (Z.to_nat j) (ShapeInstance inst) b)
      as (b' & Hrun & Hl' & Hw'); [done..|].
    rewrite Z2Nat.id in Hrun by lia. cbn in Hrun.
    change (num_faces (GetBaseShape inst))
      with (face_count (ShapeInstance inst)).
    rewrite Hrun. cbn.
    destruct (Hstep j b sd (ShapeInstance inst) ltac:(lia) Hs HP b' Hl' Hw')
      as (sd' & Hsd' & HP').
    cbn in Hsd'. rewrite Hsd'. cbn. by eexists. }
  exists st1, st. destruct H2 as (_ & _ & _ & Hr & _). split_and!; [done..|].
  by rewrite Nat2Z.id in Hr.
Qed.

(** X4. The shape table: for every shape [k] of the working list, entry
    [k] holds the shape's own id and mask (the instance's for an instance,
    not its base mesh's), with [bvhidx] and [padding1] left at zero. *)
Theorem shape_table world :
  fits world →
  ∃ flat, flatten world = Some flat ∧
    ∀ (k : nat) shape,
      shapes flat !! k = Some shape →
      shapedata flat !! k
      = Some (ShapeData.mk
                match shape with
                | ShapeMesh mesh => mesh_id mesh
                | ShapeInstance instance => inst_id instance
                end
                0
                match shape with
                | ShapeMesh mesh => mesh_mask mesh
                | ShapeInstance instance => inst_mask instance
                end
                0).
Proof.
  intros (Hn & Hf & Hv). unfold flatten.
  destruct (std_partition _ (shapes_ world)) as [l k] eqn:Hp.
  destruct (std_partition_meshes_first _ _ _ Hp) as (Hperm & Hmf).
  pose proof Hmf as (Hk & _).
  pose proof (Permutation_length Hperm) as Hlen.
  assert (face_start l (length l) <= int_max) as Hf'.
  { unfold face_start in *. by rewrite (prefix_perm _ _ _ Hperm). }
  assert (vertex_start l (length l) <= int_max) as Hv'.
  { unfold vertex_start in *. by rewrite (prefix_perm _ _ _ Hperm). }
  rewrite <- Hlen in *.
  rewrite !(to_int_id (Z.of_nat (length l))) by int_range.
  rewrite !(to_int_id (Z.of_nat k)) by int_range.
  rewrite !(to_int_id (Z.of_nat (length l - k))) by int_range.
  rewrite int_add_exact by int_range.
  replace (Z.of_nat k + Z.of_nat (length l - k)) with (Z.of_nat (length l))
    by lia.
  rewrite Nat2Z.id.
  destruct (counting_loops l k
    {| mesh_vertices_start_idx := replicate (length l) 0;
       mesh_faces_start_idx := replicate (length l) 0;
       numvertices := 0; numfaces := 0 |}) as (o1 & o & -> & Hrun & Hc);
    [done..| |].
  { split_and!; cbn; [by rewrite length_replicate..| | |intros; lia].
    - unfold face_start. by rewrite prefix_0.
    - unfold vertex_start. by rewrite prefix_0. }
  cbn. rewrite Hrun. cbn.
  apply counted_full_offsets in Hc. pose proof Hc as (_ & _ & Hnf & Hnv).
  pose proof (face_start_nonneg l (length l)).
  destruct (bounds_loops_records l k o
    (replicate (Z.to_nat (numfaces o)) bbox_init))
    as (st1 & st & -> & Hrun' & Hr); [done|done|done|lia| |].
  { rewrite length_replicate. lia. }
  cbn. rewrite Hrun'. cbn. eexists. split; [done|]. cbn.
  intros i shape Hi. rewrite (Hr i shape); [by destruct shape| |done].
  by eapply lookup_lt_Some.
Qed.

(** Every position below a total of counts belongs to one element. *)
Lemma prefix_locate {A} (f : A → Z) (v : list A) (n : nat) p :
  (n ≤ length v)%nat → 0 <= p < prefix f v n →
  ∃ (k : nat) a, v !! k = Some a ∧ prefix f v k <= p < prefix f v k + f a.
Proof.
  induction n as [|n IH]; intros Hn Hp.
  - rewrite prefix_0 in Hp. lia.
  - destruct (lookup_lt_is_Some_2 v n) as [a Ha]; [lia|].
    rewrite (prefix_S f v n a Ha) in Hp.
    destruct (decide (p < prefix f v n)) as [Hlt|Hge].
    + apply IH; lia.
    + exists n, a. split; [done|lia].
Qed.

(** X5. No bound is left as constructed: every entry [p] of the bounds
    vector handed to [Bvh::Build] is the bound of face [j] of some shape [k]
    with [p = mesh_faces_start_idx[k] + j]. *)
Theorem bounds_complete world :
  fits world →
  ∃ flat, flatten world = Some flat ∧
    ∀ p, 0 <= p < numfaces (offsets flat) →
      ∃ (k : nat) shape start j,
        shapes flat !! k = Some shape ∧
        mesh_faces_start_idx (offsets flat) !! k = Some start ∧
        p = start + j ∧ 0 <= j < num_faces (base_mesh shape) ∧
        at_ (bounds flat) p
        = Some (match shape with
                | ShapeMesh mesh => GetFaceBounds mesh j false
                | ShapeInstance instance =>
                    transform_bbox
                      (GetFaceBounds (GetBaseShape instance) j true)
                      (inst_m instance)
                end).
Proof.
  intros Hfits. destruct (flatten_spec world Hfits) as (flat & Hflat & Hw).
  exists flat. split; [done|]. intros p Hp.
  destruct Hw as (km & _ & _ & _ & _ & _ & _ & _ & Ho & _ & _ & _ & _ & Hb).
  pose proof Ho as (_ & _ & Hnf & _). rewrite Hnf in Hp.
  destruct (prefix_locate face_count (shapes flat) (length (shapes flat)) p)
    as (k & shape & Hk & Hin); [lia|done|].
  pose proof (lookup_lt_Some _ _ _ Hk) as Hlt.
  exists k, shape, (face_start (shapes flat) k),
    (p - face_start (shapes flat) k).
  fold (face_start (shapes flat) k) in Hin. unfold face_count in Hin.
  split_and!; [done|by apply face_start_lookup|lia|lia|lia|].
  replace p with (face_start (shapes flat) k
                  + (p - face_start (shapes flat) k)) at 1 by lia.
  apply (Hb k shape); [done|done|]. unfold face_count. lia.
Qed.

(** X6. No vertex slot is left unwritten: the vertex pass ends with
    [numvertices] entries, and every entry [p] is vertex [j] of some shape
    [k], with [p = mesh_vertices_start_idx[k] + j], transformed by the matrix
    of that shape. *)
Theorem vertices_complete world flat :
  fits world → flatten world = Some flat →
  ∃ vertexdata,
    write_vertices flat
      (replicate (Z.to_nat (numvertices (offsets flat))) None)
    = Some vertexdata ∧
    Z.of_nat (length vertexdata) = numvertices (offsets flat) ∧
    ∀ p, 0 <= p < numvertices (offsets flat) →
      ∃ (k : nat) shape start j v,
        shapes flat !! k = Some shape ∧
        mesh_vertices_start_idx (offsets flat) !! k = Some start ∧
        p = start + j ∧
        at_ (GetVertexData (base_mesh shape)) j = Some v ∧
        at_ vertexdata p
        = Some (Some (transform_point v
                        match shape with
                        | ShapeMesh mesh => mesh_m mesh
                        | ShapeInstance instance => inst_m instance
                        end)).
Proof.
  intros Hfits Hflat.
  pose proof (flatten_well_flattened _ _ Hfits Hflat) as Hw.
  destruct (write_vertices_spec world flat Hw) as (vd & Hrun & Hlen & Hv).
  exists vd. split_and!; [done..|]. intros p Hp.
  destruct Hw as (km & _ & _ & _ & _ & _ & _ & _ & Ho & _).
  pose proof Ho as (_ & _ & _ & Hnv). rewrite Hnv in Hp.
  destruct (prefix_locate vertex_count (shapes flat) (length (shapes flat)) p)
    as (k & shape & Hk & Hin); [lia|done|].
  pose proof (lookup_lt_Some _ _ _ Hk) as Hlt.
  fold (vertex_start (shapes flat) k) in Hin.
  unfold vertex_count, num_vertices in Hin.
  destruct (lookup_lt_is_Some_2 (GetVertexData (base_mesh shape))
              (Z.to_nat (p - vertex_start (shapes flat) k))) as [v Hvx];
    [lia|].
  assert (at_ (GetVertexData (base_mesh shape))
            (p - vertex_start (shapes flat) k) = Some v) as Hat
    by (apply at_Some; split; [lia|done]).
  exists k, shape, (vertex_start (shapes flat) k),
    (p - vertex_start (shapes flat) k), v.
  split_and!; [done|by apply vertex_start_lookup|lia|done|].
  replace p with (vertex_start (shapes flat) k
                  + (p - vertex_start (shapes flat) k)) at 1 by lia.
  by apply (Hv k shape).
Qed.

(** X7. When the faces of every mesh name vertices of that mesh, every
    flattened face refers into the device buffers only: its [shapeidx] is a
    position of the shape table, its [id] a face of that shape's base mesh,
    and each of its three vertex indices lies in the vertex range of its
    shape, hence in [0, numvertices). *)
Theorem faces_stay_in_range world flat reordering :
  fits world → well_indexed world → flatten world = Some flat →
  indices_in_range (numfaces (offsets flat)) reordering →
  ∃ facedata,
    write_faces flat reordering
      (replicate (Z.to_nat (numfaces (offsets flat))) None)
    = Some facedata ∧
    ∀ i, 0 <= i < numfaces (offsets flat) →
      ∃ f shape vstart,
        at_ facedata i = Some (Some f) ∧
        0 <= Face.shapeidx f < numshapes flat ∧
        at_ (shapes flat) (Face.shapeidx f) = Some shape ∧
        0 <= Face.id f < num_faces (base_mesh shape) ∧
        at_ (mesh_vertices_start_idx (offsets flat)) (Face.shapeidx f)
        = Some vstart ∧
        0 <= vstart ∧
        vstart + num_vertices (base_mesh shape) <= numvertices (offsets flat) ∧
        ∀ c, c ∈ [Face.idx0 f; Face.idx1 f; Face.idx2 f] →
             vstart <= c < vstart + num_vertices (base_mesh shape).
Proof.
  intros Hfits Hvalid Hflat Hidx.
  pose proof (flatten_well_flattened _ _ Hfits Hflat) as Hw.
  destruct (write_faces_spec world flat reordering Hw Hidx)
    as (fd & Hrun & _ & Hf).
  exists fd. split; [done|]. intros i Hi.
  destruct (Hf i Hi) as (f & Hat & orig & shape & start & vstart & mf & _ &
    Hs & _ & _ & Hvs & Hmf & E0 & E1 & E2 & _).
  destruct Hw as (km & _ & Hperm & _ & _ & _ & Hns & _ & Ho & _ & Hvmax & _).
  pose proof (at_lt _ _ _ Hs) as Hsi. pose proof (at_lt _ _ _ Hmf) as Hfi.
  apply at_Some in Hs as [Hk Hs].
  pose proof (lookup_lt_Some _ _ _ Hs) as Hlt.
  assert (indices_valid (base_mesh shape)) as Hiv.
  { unfold well_indexed in Hvalid. rewrite <- Hperm in Hvalid.
    by apply (Forall_lookup_1 _ _ _ _ Hvalid Hs). }
  apply at_Some in Hmf as [_ Hmf].
  pose proof (Forall_lookup_1 _ _ _ _ Hiv Hmf) as (H0' & H1' & H2').
  assert (vstart = vertex_start (shapes flat) (Z.to_nat (Face.shapeidx f)))
    as Hvst.
  { rewrite <- (Z2Nat.id (Face.shapeidx f)) in Hvs by done.
    rewrite (vertex_start_at _ _ _ Ho Hlt) in Hvs. congruence. }
  pose proof (vertex_start_S _ _ _ Hs) as HS.
  pose proof (vertex_start_mono (shapes flat) (S (Z.to_nat (Face.shapeidx f)))
                (length (shapes flat)) ltac:(lia)) as Hm.
  pose proof (vertex_start_nonneg (shapes flat) (Z.to_nat (Face.shapeidx f))).
  destruct Ho as (_ & _ & _ & Hnv). unfold vertex_count in HS.
  subst vstart. rewrite int_add_exact in E0, E1, E2 by int_range.
  exists f, shape, (vertex_start (shapes flat) (Z.to_nat (Face.shapeidx f))).
  split_and!; [done|lia|lia| |unfold num_faces; lia|unfold num_faces; lia|
               done|lia|lia|].
  - apply at_Some. by split.
  - intros c Hc. rewrite !elem_of_cons, elem_of_nil in Hc.
    destruct Hc as [->|[->|[->|[]]]]; lia.
Qed.
(** A face number lies in the face range of one shape only. *)
Lemma face_range_unique l (k k' : nat) shape shape' orig :
  l !! k = Some shape → l !! k' = Some shape' →
  face_start l k <= orig < face_start l k + face_count shape →
  face_start l k' <= orig < face_start l k' + face_count shape' →
  k' = k.
Proof.
  intros Hk Hk' Hin Hin'.
  pose proof (face_start_S _ _ _ Hk) as HS.
  pose proof (face_start_S _ _ _ Hk') as HS'.
  destruct (decide (k' < k)%nat) as [Hc|Hc].
  { pose proof (face_start_mono l (S k') k ltac:(lia)). lia. }
  destruct (decide (k < k')%nat) as [Hc'|Hc']; [|lia].
  pose proof (face_start_mono l (S k) k' ltac:(lia)). lia.
Qed.

(** What [face_packed] says about where a face comes from. *)
Lemma face_packed_origin l o reordering i f :
  offsets_of l o → face_packed l o reordering i f →
  ∃ orig shape,
    at_ reordering i = Some orig ∧ 0 <= Face.shapeidx f ∧
    l !! Z.to_nat (Face.shapeidx f) = Some shape ∧
    face_start l (Z.to_nat (Face.shapeidx f)) + Face.id f = orig ∧
    0 <= Face.id f < face_count shape.
Proof.
  intros Ho (orig & shape & start & vstart & mf & Hor & Hs & Hst & Hsum & _ &
             Hmf & _).
  pose proof (at_lt _ _ _ Hmf) as Hlt.
  apply at_Some in Hmf as [Hid _]. apply at_Some in Hs as [Hk Hs].
  pose proof (lookup_lt_Some _ _ _ Hs) as Hlt'.
  rewrite <- (Z2Nat.id (Face.shapeidx f)) in Hst by done.
  rewrite (face_start_at _ _ _ Ho Hlt') in Hst. injection Hst as <-.
  exists orig, shape. unfold face_count, num_faces. split_and!; [done..|lia].
Qed.

(** X19. When the BVH's index list names no face twice, no face is
    uploaded twice: two entries of the face buffer with the same [shapeidx]
    and [id] are the same entry. *)
Theorem faces_are_distinct world flat reordering :
  fits world → flatten world = Some flat →
  indices_in_range (numfaces (offsets flat)) reordering →
  NoDup reordering →
  ∃ facedata,
    write_faces flat reordering
      (replicate (Z.to_nat (numfaces (offsets flat))) None)
    = Some facedata ∧
    ∀ i i' f f',
      at_ facedata i = Some (Some f) → at_ facedata i' = Some (Some f') →
      Face.shapeidx f = Face.shapeidx f' → Face.id f = Face.id f' →
      i = i'.
Proof.
  intros Hfits Hflat Hidx Hnd.
  pose proof (flatten_well_flattened _ _ Hfits Hflat) as Hw.
  destruct (write_faces_spec world flat reordering Hw Hidx)
    as (fd & Hrun & Hlen & Hf).
  destruct Hw as (km & _ & _ & _ & _ & _ & _ & _ & Ho & _).
  exists fd. split; [done|]. intros i i' f f' Hi Hi' Hs Hid.
  assert (∀ i f, at_ fd i = Some (Some f) →
            0 <= i ∧
            reordering !! Z.to_nat i
            = Some (face_start (shapes flat) (Z.to_nat (Face.shapeidx f))
                    + Face.id f)) as Horigin.
  { intros j g Hj. pose proof (at_lt _ _ _ Hj) as Hlt.
    pose proof (proj1 (at_Some _ _ _) Hj) as [Hj0 _].
    destruct (Hf j ltac:(lia)) as (g' & Hg' & Hp).
    assert (g' = g) as -> by congruence.
    destruct (face_packed_origin _ _ _ _ _ Ho Hp)
      as (orig & shape & Hor & _ & _ & <- & _).
    apply at_Some in Hor as [_ Hor]. done. }
  destruct (Horigin i f Hi) as [H0i Hri].
  destruct (Horigin i' f' Hi') as [H0i' Hri'].
  rewrite Hs, Hid in Hri.
  pose proof (NoDup_lookup _ _ _ _ Hnd Hri Hri'). lia.
Qed.

(** X20. When the BVH's index list is a permutation of the face numbers
    [0, numfaces), no face is lost: every face [j] of every shape [k] of the
    working list is in the face buffer, as an entry with [shapeidx = k] and
    [id = j]. *)
Theorem every_face_is_uploaded world flat reordering :
  fits world → flatten world = Some flat →
  reordering ≡ₚ seqZ 0 (numfaces (offsets flat)) →
  ∃ facedata,
    write_faces flat reordering
      (replicate (Z.to_nat (numfaces (offsets flat))) None)
    = Some facedata ∧
    ∀ (k : nat) shape j,
      shapes flat !! k = Some shape → 0 <= j < num_faces (base_mesh shape) →
      ∃ i f, at_ facedata i = Some (Some f) ∧
             Face.shapeidx f = Z.of_nat k ∧ Face.id f = j.
Proof.
  intros Hfits Hflat Hperm.
  pose proof (flatten_well_flattened _ _ Hfits Hflat) as Hw.
  pose proof Hw as (km & _ & _ & _ & _ & _ & _ & _ & Ho & _).
  pose proof Ho as (_ & _ & Hnf & _).
  pose proof (face_start_nonneg (shapes flat) (length (shapes flat))) as Hnn.
  assert (indices_in_range (numfaces (offsets flat)) reordering) as Hidx.
  { split.
    - rewrite (Permutation_length Hperm), length_seqZ. lia.
    - rewrite Hperm. apply Forall_seqZ. intros; lia. }
  destruct (write_faces_spec world flat reordering Hw Hidx)
    as (fd & Hrun & Hlen & Hf).
  exists fd. split; [done|]. intros k shape j Hk Hj.
  pose proof (lookup_lt_Some _ _ _ Hk) as Hlt.
  pose proof (face_start_S _ _ _ Hk) as HS.
  pose proof (face_start_mono (shapes flat) (S k) (length (shapes flat))
                ltac:(lia)) as Hm.
  pose proof (face_start_nonneg (shapes flat) k) as Hk0.
  unfold face_count in HS. unfold num_faces in Hj.
  assert (face_start (shapes flat) k + j ∈ reordering) as Hin.
  { rewrite Hperm. apply elem_of_seqZ. unfold num_faces in *. lia. }
  apply list_elem_of_lookup in Hin as [i Hi].
  pose proof (lookup_lt_Some _ _ _ Hi) as Hilt.
  destruct Hidx as [Hl _].
  destruct (Hf (Z.of_nat i) ltac:(lia)) as (f & Hat & Hp).
  destruct (face_packed_origin _ _ _ _ _ Ho Hp)
    as (orig & shape' & Hor & Hs0 & Hs' & Hsum & Hid).
  rewrite at_nat, Hi in Hor. injection Hor as <-.
  assert (Z.to_nat (Face.shapeidx f) = k) as Hsame.
  { apply (face_range_unique (shapes flat) k _ shape shape'
             (face_start (shapes flat) k + j)); [done|done| |lia].
    unfold face_count, num_faces. lia. }
  exists (Z.of_nat i), f. rewrite Hsame in Hsum. split_and!; [done|lia|lia].
Qed.
End flattening_more.

Section lifecycle_more.
Context `{Collaborators}.

Lemma size_of_live dev b size : size_of dev b = Some size → live dev b = true.
Proof.
  destruct b as [h|]; [|done]. unfold size_of, live. cbn.
  destruct (buffers dev !! h) eqn:E; [|done].
  intros _. apply bool_decide_eq_true. by eexists.
Qed.

Lemma contents_of_live dev b p : contents_of dev b = Some p → live dev b = true.
Proof.
  destruct b as [h|]; [|done]. unfold contents_of, live. cbn.
  destruct (buffers dev !! h) eqn:E; [|done].
  intros _. apply bool_decide_eq_true. by eexists.
Qed.

Lemma live_Some dev b :
  live dev b = true → ∃ h buf, b = Some h ∧ buffers dev !! h = Some buf.
Proof.
  destruct b as [h|]; [|done]. unfold live.
  intros [buf Hb]%bool_decide_eq_true. by exists h, buf.
Qed.

Lemma size_of_Some dev b size :
  size_of dev b = Some size →
  ∃ h buf, b = Some h ∧ buffers dev !! h = Some buf ∧ GetSize buf = size.
Proof.
  destruct b as [h|]; [|done]. unfold size_of. cbn.
  destruct (buffers dev !! h) as [buf|] eqn:E; [|done]. cbn.
  intros [= <-]. by exists h, buf.
Qed.

Lemma buffers_DeleteBuffer_other dev b h :
  Some h ≠ b → buffers (DeleteBuffer dev b) !! h = buffers dev !! h.
Proof.
  destruct b as [h'|]; [|done]. intros Hne. cbn.
  apply lookup_delete_ne. congruence.
Qed.

Lemma buffers_released_other dev self h :
  Some h ∉ primary (m_gpudata self) →
  buffers (released dev self) !! h = buffers dev !! h.
Proof.
  unfold released, release_primary, primary. intros Hn.
  destruct (m_bvh self); [|done].
  rewrite !not_elem_of_cons in Hn. destruct Hn as (? & ? & ? & ? & ? & _).
  by rewrite !buffers_DeleteBuffer_other.
Qed.

Lemma executed_DeleteBuffer dev b : executed (DeleteBuffer dev b) = executed dev.
Proof. by destruct b. Qed.

Lemma executed_released dev self : executed (released dev self) = executed dev.
Proof.
  unfold released, release_primary. destruct (m_bvh self); [|done].
  by rewrite !executed_DeleteBuffer.
Qed.

Lemma upload_executed dev flat bvh dev' self' :
  upload dev flat bvh = Some (dev', self') → executed dev' = executed dev.
Proof.
  unfold upload, CreateBuffer, UnmapBuffer. cbn.
  destruct (write_vertices flat _) as [vd|]; [|done]. cbn.
  rewrite lookup_insert_eq. cbn.
  destruct (write_faces flat _ _) as [fd|]; [|done]. cbn.
  rewrite lookup_insert_eq. cbn.
  by intros [= <- <-].
Qed.

Lemma installed_ready dev flat bvh vertexdata facedata dev' self' :
  installed dev flat bvh vertexdata facedata dev' self' →
  height bvh < kMaxStackSize → ready dev' self'.
Proof.
  intros (Hb & Hg & _ & _ & _ & _ & C0 & C1 & C2 & C3 & S4 & S5) Hh bvh' Hb'.
  rewrite Hb in Hb'. injection Hb' as <-. rewrite Hg. unfold primary. cbn.
  split_and!.
  - done.
  - intros b Hbin. rewrite !elem_of_cons, elem_of_nil in Hbin.
    destruct Hbin as [->|[->|[->|[->|[->|[]]]]]];
      eauto using contents_of_live, size_of_live.
  - rewrite !not_elem_of_cons.
    split_and!; try (intros [=]; lia). apply not_elem_of_nil.
  - eexists. split; [exact S5|lia].
Qed.

Lemma Preprocess_ready world dev self out dev' self' :
  settled dev self → ready dev self →
  Preprocess world dev self = Some (out, dev', self') → ready dev' self'.
Proof.
  intros Hs Hr Hrun.
  destruct (rebuild_needed self world) eqn:Hn.
  2:{ rewrite Preprocess_unchanged in Hrun by done.
      by injection Hrun as <- <- <-. }
  destruct (decide (max_alloc_size dev <= stack_budget)) as [Hm|Hm].
  - rewrite Preprocess_no_memory in Hrun by done. injection Hrun as <- <- <-.
    intros bvh Hb. destruct Hs as [Hs _].
    specialize (Hs ltac:(by eexists)). lia.
  - rewrite Preprocess_rebuild in Hrun by (done || lia).
    apply rebuild_inv in Hrun as (flat & Hflat & Hcase). cbv zeta in Hcase.
    destruct Hcase as [(Hh & -> & -> & ->)|(Hh & -> & Hup)].
    + intros bvh Hb. done.
    + apply upload_inv in Hup as (vd & fd & _ & _ & Hi).
      by eapply installed_ready.
Qed.

Lemma relocate_stack_ready stack_size dev self dev' self' :
  consistent dev self → ready dev self →
  relocate_stack stack_size dev self = Some (dev', self') → ready dev' self'.
Proof.
  intros (_ & Hdev & Hprim) Hr Hrun.
  apply relocate_stack_inv in Hrun
    as (h & buf & Hst & Hbuf &
        [(_ & -> & ->)|(Hgt & Hb & Hp & Hst' & _ & _ & _ & Hbufs)]); [done|].
  intros bvh Hbvh. rewrite Hb in Hbvh.
  destruct (Hr bvh Hbvh) as (Hh & Hlive & Hnin & size & Hsize & Hge).
  rewrite Hp, Hst'. split_and!.
  - done.
  - intros b Hbin.
    destruct (live_Some _ _ (Hlive b Hbin)) as (hb & bufb & -> & Hlk).
    unfold live. apply bool_decide_eq_true. rewrite Hbufs.
    rewrite lookup_insert_ne. 2:{ specialize (Hprim hb Hbin). lia. }
    rewrite lookup_delete_ne. 2:{ intros ->. by rewrite Hst in Hnin. }
    by eexists.
  - intros Hin. specialize (Hprim _ Hin). lia.
  - exists stack_size. split.
    { unfold size_of. cbn. by rewrite Hbufs, lookup_insert_eq. }
    unfold size_of in Hsize. rewrite Hst in Hsize. cbn in Hsize.
    rewrite Hbuf in Hsize. cbn in Hsize. injection Hsize as <-. lia.
Qed.

Lemma launch_ready func count queueidx rays hits n dev self :
  ready dev self → ready (launch func count queueidx rays hits n dev self) self.
Proof. intros Hr. exact Hr. Qed.

(** A device step that leaves the buffers of an installed BVH alone. *)
Lemma ready_frame dev dev' self :
  (∀ h, Some h ∈ held self → is_Some (buffers dev !! h) →
        buffers dev' !! h = buffers dev !! h) →
  ready dev self → ready dev' self.
Proof.
  intros Hframe Hr bvh Hb. unfold held in Hframe. rewrite Hb in Hframe.
  destruct (Hr bvh Hb) as (Hh & Hlive & Hnin & size & Hsize & Hge).
  split_and!; [done| |done|].
  - intros b Hbin.
    destruct (live_Some _ _ (Hlive b Hbin)) as (hb & buf & -> & Hlk).
    unfold live. apply bool_decide_eq_true.
    rewrite Hframe; [by eexists| |by eexists].
    apply elem_of_cons. by right.
  - exists size. split; [|done].
    apply size_of_Some in Hsize as (h & buf & Hst & Hbuf & <-).
    unfold size_of. rewrite Hst. cbn.
    rewrite Hframe; [by rewrite Hbuf| |by eexists].
    rewrite Hst. apply elem_of_cons. by left.
Qed.

Lemma application_step_ready dev self dev' :
  consistent dev self → ready dev self →
  application_step (held self) dev dev' → ready dev' self.
Proof.
  intros (_ & Hfresh & _) Hr Hstep. apply (ready_frame dev); [|done].
  destruct Hstep as [size init|b data dev' Hb Hrun|b Hb|d].
  - intros h _ Hlive. cbn. specialize (Hfresh h Hlive).
    apply lookup_insert_ne. lia.
  - intros h Hh _. unfold UnmapBuffer in Hrun.
    destruct b as [hb|]; [|done]. cbn in Hrun.
    destruct (buffers dev !! hb) as [buf|]; [|done]. cbn in Hrun.
    injection Hrun as <-. cbn. apply lookup_insert_ne. by intros ->.
  - intros h Hh _. apply buffers_DeleteBuffer_other. by intros <-.
  - done.
Qed.

Lemma granted_ready dev self : granted dev self → ready dev self.
Proof.
  induction 1 as
    [dev ind Hfresh
    |dev self dev' Hg IH Hstep
    |world dev self out dev' self' Hg IH Hrun
    |q r n hi dev self dev' self' Hg IH Hrun
    |q r n hi dev self dev' self' Hg IH Hrun
    |q r n m hi dev self dev' self' Hg IH Hrun
    |q r n m hi dev self dev' self' Hg IH Hrun];
    try pose proof (reachable_consistent _ _ (granted_reachable _ _ Hg))
      as Hc.
  - intros bvh Hb. done.
  - by eapply application_step_ready.
  - eapply Preprocess_ready; [by destruct Hc|done..].
  - apply QueryIntersection_inv in Hrun as (d & Hrel & ->).
    apply launch_ready. by eapply relocate_stack_ready.
  - apply QueryOcclusion_inv in Hrun as (d & Hrel & ->).
    apply launch_ready. by eapply relocate_stack_ready.
  - apply QueryIntersection_indirect_inv in Hrun as (d & Hrel & ->).
    apply launch_ready. by eapply relocate_stack_ready.
  - apply QueryOcclusion_indirect_inv in Hrun as (d & Hrel & ->).
    apply launch_ready. by eapply relocate_stack_ready.
Qed.

(** X8. As long as the device has granted every allocation and the
    application has left the six buffers of an installed BVH alone,
    whatever else it has done on the device and whatever sequence of
    [Preprocess] and query calls the strategy has gone through, a BVH it
    has installed passed the height check, was installed on a device that
    passes the allocation check, and has its five primary buffers
    allocated; the stack is allocated too, is none of the five, and has at
    least its initial 48 MiB. *)
Theorem installed_bvh_is_backed dev self bvh :
  granted dev self → m_bvh self = Some bvh →
  height bvh < 48 ∧
  1048576 * 48 * 4 < max_alloc_size dev ∧
  (∀ b, b ∈ primary (m_gpudata self) → live dev b = true) ∧
  (GpuData.stack (m_gpudata self) ∉ primary (m_gpudata self)) ∧
  ∃ size, size_of dev (GpuData.stack (m_gpudata self)) = Some size ∧
          1048576 * 48 <= size.
Proof.
  intros Hg Hb.
  destruct (granted_ready _ _ Hg bvh Hb) as (Hh & Hl & Hn & size & Hs & Hge).
  destruct (reachable_settled _ _ (granted_reachable _ _ Hg)) as [Hset _].
  specialize (Hset ltac:(by eexists)). rewrite stack_budget_value in Hset.
  rewrite initial_stack_size in Hge. rewrite kMaxStackSize_value in Hh.
  split_and!; [done|lia|done|done|].
  exists size. split; [done|lia].
Qed.

Lemma query_runs n dev self :
  granted dev self → is_Some (m_bvh self) →
  ∃ dev1 self1,
    relocate_stack (required_stack_size n) dev self = Some (dev1, self1).
Proof.
  intros Hg [bvh Hb].
  destruct (granted_ready _ _ Hg bvh Hb) as (_ & _ & _ & size & Hs & _).
  apply size_of_Some in Hs as (h & buf & Hst & Hbuf & _).
  destruct (relocate_stack_runs (required_stack_size n) dev self h buf Hst Hbuf)
    as [[dev1 self1] Hrun].
  by exists dev1, self1.
Qed.

(** X9. As long as the device has granted every allocation and the
    application has left the six buffers of an installed BVH alone, with a
    BVH installed every query operation is defined for every ray count: the
    stack pointer it reads the size through names an allocated buffer. *)
Theorem queries_are_defined dev self :
  granted dev self → is_Some (m_bvh self) →
  ∀ queueidx rays numrays maxrays hits,
    is_Some (QueryIntersection queueidx rays maxrays hits dev self) ∧
    is_Some (QueryOcclusion queueidx rays maxrays hits dev self) ∧
    is_Some (QueryIntersection_indirect queueidx rays numrays maxrays hits
               dev self) ∧
    is_Some (QueryOcclusion_indirect queueidx rays numrays maxrays hits
               dev self).
Proof.
  intros Hreach Hb queueidx rays numrays maxrays hits.
  destruct (query_runs maxrays dev self Hreach Hb) as (dev1 & self1 & Hrun).
  unfold QueryIntersection, QueryOcclusion, QueryIntersection_indirect,
    QueryOcclusion_indirect.
  rewrite Hrun. cbn. split_and!; by eexists.
Qed.

(** X10. As long as the device has granted every allocation and the
    application has left the six buffers of an installed BVH alone, with a
    BVH installed a query of at most 262,144 rays, the batch the initial stack
    is sized for at 4 * 48 bytes per ray, never touches the buffers: the
    strategy is returned as it was and the device only gains the launch. *)
Theorem small_queries_keep_the_stack dev self queueidx rays numrays maxrays hits :
  granted dev self → is_Some (m_bvh self) →
  0 <= maxrays <= 262144 →
  QueryIntersection queueidx rays maxrays hits dev self
  = Some (launch "IntersectClosest" (ArgValue 4 maxrays) queueidx rays hits
            maxrays dev self, self) ∧
  QueryOcclusion queueidx rays maxrays hits dev self
  = Some (launch "IntersectAny" (ArgValue 4 maxrays) queueidx rays hits
            maxrays dev self, self) ∧
  QueryIntersection_indirect queueidx rays numrays maxrays hits dev self
  = Some (launch "IntersectClosestRC" (ArgBuffer numrays) queueidx rays hits
            maxrays dev self, self) ∧
  QueryOcclusion_indirect queueidx rays numrays maxrays hits dev self
  = Some (launch "IntersectAnyRC" (ArgBuffer numrays) queueidx rays hits
            maxrays dev self, self).
Proof.
  intros Hg [bvh Hb] Hn.
  destruct (granted_ready _ _ Hg bvh Hb) as (_ & _ & _ & size & Hs & Hge).
  apply size_of_Some in Hs as (h & buf & Hst & Hbuf & <-).
  rewrite initial_stack_size in Hge.
  assert (relocate_stack (required_stack_size maxrays) dev self
          = Some (dev, self)) as Hrel.
  { unfold relocate_stack. rewrite Hst. cbn. rewrite Hbuf. cbn.
    rewrite required_stack_size_exact by lia.
    destruct (decide (4 * maxrays * 48 > GetSize buf)); [lia|done]. }
  unfold QueryIntersection, QueryOcclusion, QueryIntersection_indirect,
    QueryOcclusion_indirect.
  rewrite Hrel. cbn. done.
Qed.

(** X11. A [Preprocess] that returns leaves a BVH installed, and a
    following [Preprocess] of a world that reports no change returns at once:
    it leaves the device and the strategy exactly as they are. *)
Theorem Preprocess_again world dev self dev' self' world' :
  Preprocess world dev self = Some (Returned, dev', self') →
  has_changed world' = false → GetStateChange world' = kStateChangeNone →
  is_Some (m_bvh self') ∧
  Preprocess world' dev' self' = Some (Returned, dev', self').
Proof.
  intros Hrun Hc Hsc.
  assert (is_Some (m_bvh self')) as [bvh Hb].
  { destruct (rebuild_needed self world) eqn:Hn.
    - destruct (decide (max_alloc_size dev <= stack_budget)) as [Hm|Hm].
      + by rewrite Preprocess_no_memory in Hrun.
      + rewrite Preprocess_rebuild in Hrun by (done || lia).
        apply rebuild_inv in Hrun as (flat & Hflat & Hcase).
        cbv zeta in Hcase.
        destruct Hcase as [(_ & [=] & _)|(_ & _ & Hup)].
        apply upload_inv in Hup as (vd & fd & _ & _ & Hi & _).
        rewrite Hi. by eexists.
    - rewrite Preprocess_unchanged in Hrun by done.
      injection Hrun as <- <-. unfold rebuild_needed in Hn.
      destruct (m_bvh self); [by eexists|done]. }
  split; [by eexists|]. apply Preprocess_unchanged.
  unfold rebuild_needed. by rewrite Hb, Hc, Hsc.
Qed.

(** X12. A [Preprocess] that throws, for either reason, creates no buffer
    and launches nothing: the device hands out the same next handle, no
    buffer appears, every buffer that is not one of the five primary ones
    is untouched, and the six pointers of the strategy are as they were. *)
Theorem failed_Preprocess_frame world dev self what dev' self' :
  Preprocess world dev self = Some (Thrown what, dev', self') →
  m_gpudata self' = m_gpudata self ∧
  next_handle dev' = next_handle dev ∧
  executed dev' = executed dev ∧
  (∀ h, is_Some (buffers dev' !! h) → is_Some (buffers dev !! h)) ∧
  (∀ h, Some h ∉ primary (m_gpudata self) →
        buffers dev' !! h = buffers dev !! h).
Proof.
  intros Hrun.
  assert (dev' = released dev self ∧ m_gpudata self' = m_gpudata self)
    as [-> Hg].
  { destruct (rebuild_needed self world) eqn:Hn.
    2:{ by rewrite Preprocess_unchanged in Hrun. }
    destruct (decide (max_alloc_size dev <= stack_budget)) as [Hm|Hm].
    - rewrite Preprocess_no_memory in Hrun by done.
      by injection Hrun as _ <- <-.
    - rewrite Preprocess_rebuild in Hrun by (done || lia).
      apply rebuild_inv in Hrun as (flat & Hflat & Hcase).
      cbv zeta in Hcase.
      destruct Hcase as [(_ & _ & -> & ->)|(_ & [=] & _)]. done. }
  split_and!.
  - done.
  - apply next_handle_released.
  - apply executed_released.
  - intros h. apply buffers_released.
  - intros h. apply buffers_released_other.
Qed.

(** X13. [Preprocess] never launches a kernel and never changes what the
    device reports as its allocation limit, however it ends; it never hands
    a handle back: the next handle of the device only grows. *)
Theorem Preprocess_launches_nothing world dev self out dev' self' :
  Preprocess world dev self = Some (out, dev', self') →
  executed dev' = executed dev ∧
  max_alloc_size dev' = max_alloc_size dev ∧
  (next_handle dev ≤ next_handle dev')%positive.
Proof.
  intros Hrun.
  destruct (rebuild_needed self world) eqn:Hn.
  2:{ rewrite Preprocess_unchanged in Hrun by done.
      by injection Hrun as _ <- _. }
  pose proof (executed_released dev self) as He.
  pose proof (max_alloc_released dev self) as Hm'.
  pose proof (next_handle_released dev self) as Hn'.
  destruct (decide (max_alloc_size dev <= stack_budget)) as [Hm|Hm].
  - rewrite Preprocess_no_memory in Hrun by done.
    injection Hrun as _ <- _. split_and!; [done|done|lia].
  - rewrite Preprocess_rebuild in Hrun by (done || lia).
    apply rebuild_inv in Hrun as (flat & Hflat & Hcase).
    cbv zeta in Hcase.
    destruct Hcase as [(_ & _ & -> & _)|(_ & _ & Hup)].
    + split_and!; [done|done|lia].
    + pose proof (upload_executed _ _ _ _ _ Hup) as He'.
      apply upload_inv in Hup as (vd & fd & _ & _ & _ & _ & Hnh & Hma & _).
      split_and!; [congruence|congruence|lia].
Qed.

(** X14. A rebuild that returns puts the six buffers under the next six
    handles of the device, in the order BVH, vertices, faces, shapes, ray
    count, stack; the ray count buffer has 4 bytes, the stack
    1,048,576 * 48 bytes whatever its size was before; no other buffer
    appears, and every older buffer that is not one of the five old primary
    ones is untouched. *)
Theorem rebuild_allocates_six world dev self dev' self' :
  rebuild_needed self world = true →
  Preprocess world dev self = Some (Returned, dev', self') →
  let h := next_handle dev in
  m_gpudata self'
  = GpuData.mk (Some h) (Some (h + 1)%positive) (Some (h + 2)%positive)
      (Some (h + 3)%positive) (Some (h + 4)%positive) (Some (h + 5)%positive) ∧
  next_handle dev' = (h + 6)%positive ∧
  size_of dev' (GpuData.raycnt (m_gpudata self')) = Some 4 ∧
  size_of dev' (GpuData.stack (m_gpudata self')) = Some (1048576 * 48) ∧
  (∀ h', is_Some (buffers dev' !! h') →
         is_Some (buffers dev !! h') ∨ (h ≤ h' < h + 6)%positive) ∧
  (∀ h', (h' < h)%positive → Some h' ∉ primary (m_gpudata self) →
         buffers dev' !! h' = buffers dev !! h').
Proof.
  intros Hn Hrun. cbv zeta.
  destruct (decide (max_alloc_size dev <= stack_budget)) as [Hm|Hm].
  { by rewrite Preprocess_no_memory in Hrun. }
  rewrite Preprocess_rebuild in Hrun by (done || lia).
  apply rebuild_inv in Hrun as (flat & Hflat & Hcase). cbv zeta in Hcase.
  destruct Hcase as [(_ & [=] & _)|(_ & _ & Hup)].
  apply upload_inv in Hup
    as (vd & fd & _ & _ & _ & Hg & Hnh & _ & Hold & Hnew & _ & _ & _ & _ &
        S4 & S5).
  rewrite next_handle_released in *. rewrite Hg. cbn.
  rewrite initial_stack_size in S5.
  split_and!; [done|done|done|done| |].
  - intros h' Hh'. destruct (Hnew h' Hh') as [Ho|Hr]; [left|by right].
    by eapply buffers_released.
  - intros h' Hlt Hnp. rewrite Hold by done.
    by apply buffers_released_other.
Qed.

Lemma launch_after_relocate func count queueidx rays hits n dev self dev1 self' :
  relocate_stack (required_stack_size n) dev self = Some (dev1, self') →
  queried func count queueidx rays hits n dev self
    (launch func count queueidx rays hits n dev1 self') self'.
Proof.
  intros Hrun. pose proof (relocate_stack_size _ _ _ _ _ Hrun) as Hsize.
  apply relocate_stack_inv in Hrun
    as (h & buf & Hst & Hbuf &
        [(_ & -> & ->)|(Hgt & Hb & Hp & Hst' & Hma & _ & Hex & Hbufs)]).
  - unfold queried. cbv zeta. split_and!; done.
  - unfold queried. cbv zeta. unfold primary in Hp.
    injection Hp as E1 E2 E3 E4 E5. cbn.
    rewrite ?E1, ?E2, ?E3, ?E4, ?E5, Hex. unfold primary. rewrite ?E1, ?E2, ?E3, ?E4, ?E5.
    split_and!; [done|done|done|exact Hsize|done|].
    intros h' Hne Hne'. rewrite Hbufs.
    rewrite lookup_insert_ne by done.
    apply lookup_delete_ne. congruence.
Qed.

(** X15. What each of the four query operations leaves behind: the BVH and
    the five primary pointers as they were, one more launch, of the
    operation's own kernel on the given queue with work group size 64,
    bound to the primary buffers, the caller's rays and hits, offset 0, the
    ray count (by value, or the caller's count buffer in the indirect
    forms) and the stack as it is after the size check; the stack has the
    larger of its old size and the required one, and no buffer other than a
    replaced stack is touched. *)
Theorem query_effects queueidx rays numrays maxrays hits dev self dev' self' :
  (QueryIntersection queueidx rays maxrays hits dev self = Some (dev', self') →
   queried "IntersectClosest" (ArgValue 4 maxrays) queueidx rays hits maxrays
     dev self dev' self') ∧
  (QueryOcclusion queueidx rays maxrays hits dev self = Some (dev', self') →
   queried "IntersectAny" (ArgValue 4 maxrays) queueidx rays hits maxrays
     dev self dev' self') ∧
  (QueryIntersection_indirect queueidx rays numrays maxrays hits dev self
   = Some (dev', self') →
   queried "IntersectClosestRC" (ArgBuffer numrays) queueidx rays hits maxrays
     dev self dev' self') ∧
  (QueryOcclusion_indirect queueidx rays numrays maxrays hits dev self
   = Some (dev', self') →
   queried "IntersectAnyRC" (ArgBuffer numrays) queueidx rays hits maxrays
     dev self dev' self').
Proof.
  split_and!; intros Hrun.
  - apply QueryIntersection_inv in Hrun as (d & Hrel & ->).
    by apply launch_after_relocate.
  - apply QueryOcclusion_inv in Hrun as (d & Hrel & ->).
    by apply launch_after_relocate.
  - apply QueryIntersection_indirect_inv in Hrun as (d & Hrel & ->).
    by apply launch_after_relocate.
  - apply QueryOcclusion_indirect_inv in Hrun as (d & Hrel & ->).
    by apply launch_after_relocate.
Qed.

(** X16. The required stack size is computed in 32 bits: it is
    192 * numrays modulo 2^32, so always below 4 GiB, and it is the
    192 * numrays bytes the kernels use exactly when numrays is at most
    22,369,621. *)
Theorem required_stack_size_wraps numrays :
  0 <= numrays →
  required_stack_size numrays = (192 * numrays) mod 2 ^ 32 ∧
  0 <= required_stack_size numrays < 2 ^ 32 ∧
  (required_stack_size numrays = 192 * numrays ↔ numrays <= 22369621).
Proof.
  intros Hn.
  assert (required_stack_size numrays = (192 * numrays) mod 2 ^ 32) as E.
  { unfold required_stack_size, uint32_mul, to_uint32, to_size_t.
    rewrite kMaxStackSize_value, Z.mul_mod_idemp_l by lia.
    replace (4 * numrays * 48) with (192 * numrays) by lia.
    pose proof (Z.mod_pos_bound (192 * numrays) (2 ^ 32) ltac:(lia)).
    apply Z.mod_small. lia. }
  pose proof (Z.mod_pos_bound (192 * numrays) (2 ^ 32) ltac:(lia)) as Hb.
  rewrite E. split_and!; [done|lia|lia|].
  split.
  - intros E'. rewrite E' in Hb. lia.
  - intros Hle. apply Z.mod_small. lia.
Qed.

(** X17. The global size of a launch is the ray count rounded up to a
    multiple of the work group size 64, for every ray count up to
    2^32 - 64: it covers every ray with fewer than 64 work items to
    spare. *)
Theorem globalsize_rounds_up n :
  0 <= n <= 2 ^ 32 - 64 →
  globalsize n = 64 * ((n + 63) / 64) ∧
  globalsize n mod 64 = 0 ∧
  n <= globalsize n < n + 64.
Proof.
  intros Hn.
  assert (globalsize n = 64 * ((n + 63) / 64)) as E.
  { destruct (decide (n = 2 ^ 32 - 64)) as [->|Hne]; [reflexivity|].
    unfold globalsize, uint32_mul, uint32_div, uint32_sub, uint32_add,
      to_uint32, to_size_t, kWorkGroupSize.
    pose proof (Z.div_mod (n + 63) 64 ltac:(lia)) as Hd.
    pose proof (Z.mod_pos_bound (n + 63) 64 ltac:(lia)) as Hm.
    rewrite (Z.mod_small (n + 64)) by lia.
    replace (n + 64 - 1) with (n + 63) by lia.
    rewrite (Z.mod_small (n + 63)) by lia.
    rewrite (Z.mod_small ((n + 63) / 64)) by lia.
    rewrite (Z.mod_small ((n + 63) / 64 * 64)) by lia.
    rewrite Z.mod_small by lia. lia. }
  pose proof (Z.div_mod (n + 63) 64 ltac:(lia)) as Hd.
  pose proof (Z.mod_pos_bound (n + 63) 64 ltac:(lia)) as Hm.
  rewrite E. split_and!; [done| |lia|lia].
  rewrite Z.mul_comm. apply Z.mod_mul. lia.
Qed.

(** X18. For the 63 largest ray counts a [std::uint32_t] holds the rounding
    wraps around: the global size of the launch is 0, and no ray is
    covered. *)
Theorem globalsize_wraps n :
  2 ^ 32 - 64 < n < 2 ^ 32 → globalsize n = 0.
Proof.
  intros Hn.
  unfold globalsize, uint32_mul, uint32_div, uint32_sub, uint32_add,
    to_uint32, to_size_t, kWorkGroupSize.
  replace (n + 64) with (n + 64 - 2 ^ 32 + 1 * 2 ^ 32) by lia.
  rewrite Z.mod_add by lia.
  rewrite (Z.mod_small (n + 64 - 2 ^ 32)) by lia.
  rewrite (Z.mod_small (n + 64 - 2 ^ 32 - 1)) by lia.
  rewrite (Z.div_small (n + 64 - 2 ^ 32 - 1)) by lia.
  reflexivity.
Qed.

(** X21. In every state the strategy can be in, a [Preprocess] that ends
    with one of its two own errors leaves no BVH installed, so the next
    [Preprocess] builds again whatever the world reports, also when it
    reports no change. (A [Preprocess] ended by an allocation the device
    refuses is another matter, see [refused_Preprocess_is_not_retried].) *)
Theorem failed_Preprocess_is_retried world dev self what dev' self' world' :
  reachable dev self →
  Preprocess world dev self = Some (Thrown what, dev', self') →
  rebuild_needed self' world' = true ∧
  ∀ out dev'' self'',
    Preprocess world' dev' self' = Some (out, dev'', self'') →
    (out = Returned ∧ is_Some (m_bvh self'')) ∨
    (∃ what', out = Thrown what' ∧ m_bvh self'' = None).
Proof.
  intros Hreach Hrun.
  destruct (failure_leaves_nothing _ _ _ _ _ _ (reachable_settled _ _ Hreach)
              Hrun) as (Hb & Hp & _).
  assert (rebuild_needed self' world' = true) as Hn
    by (unfold rebuild_needed; by rewrite Hb).
  split; [done|]. intros out dev'' self'' Hnext.
  pose proof (reach_Preprocess _ _ _ _ _ _ Hreach Hrun) as Hreach'.
  destruct out as [|what'].
  - left. split; [done|].
    destruct (decide (max_alloc_size dev' <= stack_budget)) as [Hm|Hm].
    { by rewrite Preprocess_no_memory in Hnext. }
    rewrite Preprocess_rebuild in Hnext by (done || lia).
    apply rebuild_inv in Hnext as (flat & Hflat & Hcase).
    cbv zeta in Hcase. destruct Hcase as [(_ & [=] & _)|(_ & _ & Hup)].
    apply upload_inv in Hup as (vd & fd & _ & _ & Hi & _).
    rewrite Hi. by eexists.
  - right. exists what'. split; [done|].
    by destruct (failure_leaves_nothing _ _ _ _ _ _
                   (reachable_settled _ _ Hreach') Hnext) as (Hb' & _).
Qed.


(** X23. A [Preprocess] ended by a refused allocation leaves the new BVH
    installed, its height below 48, and the stack pointer as it was before
    the call; a following [Preprocess] of a world that reports no change
    therefore returns at once and creates none of the missing buffers. *)
Theorem refused_Preprocess_is_not_retried grants world dev self dev' self'
    world' :
  Preprocess_refused grants world dev self = Some (dev', self') →
  has_changed world' = false → GetStateChange world' = kStateChangeNone →
  (∃ bvh, m_bvh self' = Some bvh ∧ height bvh < 48) ∧
  GpuData.stack (m_gpudata self') = GpuData.stack (m_gpudata self) ∧
  Preprocess world' dev' self' = Some (Returned, dev', self').
Proof.
  intros Hrun Hc Hsc.
  apply Preprocess_refused_inv in Hrun
    as (_ & _ & Hg & flat & _ & Hcase). cbv zeta in Hcase.
  destruct Hcase as [Hh Hup].
  apply upload_upto_inv in Hup as (Hb & _ & _ & _ & _ & _ & Hst).
  rewrite kMaxStackSize_value in Hh.
  split_and!.
  - by eexists.
  - by apply Hst.
  - apply Preprocess_unchanged. unfold rebuild_needed. by rewrite Hb, Hc, Hsc.
Qed.
End lifecycle_more.

(** ** The model run on the concrete scene *)

Import Example.

Lemma world1_fits : fits world1.
Proof. vm_compute. repeat split; discriminate. Qed.

Lemma world2_fits : fits world2.
Proof. vm_compute. repeat split; discriminate. Qed.

(** An equation between closed terms, checked by evaluating them. *)
Ltac run :=
  lazymatch goal with
  | |- ?l = ?r => exact (@eq_refl _ r <: l = r)
  end.

Lemma flatten_world1 : flatten world1 = Some flat1.
Proof. run. Qed.

Lemma flatten_world2 : flatten world2 = Some flat2.
Proof. run. Qed.

Lemma Preprocess_world1 :
  Preprocess world1 (device1 (2 ^ 32)) strategy0
  = Some (Returned, after_first.1, after_first.2).
Proof. run. Qed.

Lemma Query_after_first :
  QueryIntersection 0 rays 1000000 hits after_first.1 after_first.2
  = Some (after_query.1, after_query.2).
Proof. run. Qed.

Lemma Preprocess_after_query :
  Preprocess world1 after_query.1 after_query.2
  = Some (Returned, after_rebuild.1, after_rebuild.2).
Proof. run. Qed.

Lemma Query_many_rays :
  QueryIntersection 0 rays many_rays hits after_first.1 after_first.2
  = Some (after_many.1, after_many.2).
Proof. run. Qed.

Lemma Preprocess_too_high :
  Preprocess world2 after_first.1 after_first.2
  = Some (Thrown stack_overflow, after_high.1, after_high.2).
Proof. run. Qed.

(** C4, as written, fails: [world1] lists the triangle before the quad, and
    the working list has the quad before the triangle. *)
Lemma reordering_not_stable :
  ∃ flat, flatten world1 = Some flat ∧
          ¬ stable_reordering (shapes_ world1) (shapes flat).
Proof.
  exists flat1. split; [exact flatten_world1|]. vm_compute. discriminate.
Qed.

Lemma reordering_puts_meshes_first_witness :
  fits world1 ∧
  ∃ flat, flatten world1 = Some flat ∧ shapes flat ≡ₚ shapes_ world1.
Proof.
  split; [exact world1_fits|].
  destruct (reordering_puts_meshes_first world1 world1_fits)
    as (flat & Hflat & Hperm & _).
  exists flat. split; [exact Hflat|exact Hperm].
Defined.

Lemma bounds_at_face_start_witness :
  fits world1 ∧
  ∃ flat, flatten world1 = Some flat ∧
          at_ (bounds flat) (3 + 0) = Some ((10, 0, 0), (11, 1, 0)).
Proof.
  split; [exact world1_fits|].
  destruct (bounds_at_face_start world1 world1_fits) as (flat & Hflat & Hb).
  exists flat. split; [exact Hflat|].
  assert (flat = flat1) as Hval
    by (pose proof flatten_world1 as Hf; congruence).
  rewrite Hval in Hb |- *.
  destruct (Hb 2%nat (ShapeInstance moved_triangle) 0) as (start & Hs & Hat).
  - reflexivity.
  - vm_compute. split; [discriminate|reflexivity].
  - vm_compute in Hs. injection Hs as Hs. rewrite <- Hs in Hat. exact Hat.
Defined.

Lemma vertices_in_world_space_witness :
  fits world1 ∧ flatten world1 = Some flat1 ∧
  ∃ vertexdata,
    write_vertices flat1
      (replicate (Z.to_nat (numvertices (offsets flat1))) None)
    = Some vertexdata ∧
    at_ vertexdata (7 + 1) = Some (Some (11, 0, 0)).
Proof.
  split; [exact world1_fits|]. split; [exact flatten_world1|].
  destruct (vertices_in_world_space world1 flat1 world1_fits flatten_world1)
    as (vd & Hrun & Hv).
  exists vd. split; [exact Hrun|].
  destruct (Hv 2%nat (ShapeInstance moved_triangle) 1 (1, 0, 0))
    as (start & Hs & Hat); [reflexivity|reflexivity|].
  vm_compute in Hs. injection Hs as Hs. rewrite <- Hs in Hat. exact Hat.
Defined.

Lemma indices_world1 : indices_in_range (numfaces (offsets flat1)) [3; 2; 1; 0].
Proof. split; [reflexivity|]. repeat constructor; lia. Qed.

Lemma faces_follow_reordering_witness :
  fits world1 ∧ flatten world1 = Some flat1 ∧
  indices_in_range (numfaces (offsets flat1)) [3; 2; 1; 0] ∧
  ∃ facedata,
    write_faces flat1 [3; 2; 1; 0]
      (replicate (Z.to_nat (numfaces (offsets flat1))) None)
    = Some facedata ∧
    ∃ f start,
      at_ facedata 0 = Some (Some f) ∧
      at_ (mesh_faces_start_idx (offsets flat1)) (Face.shapeidx f)
      = Some start ∧
      start + Face.id f = 3 ∧ Face.cnt f = 0.
Proof.
  split; [exact world1_fits|]. split; [exact flatten_world1|].
  split; [exact indices_world1|].
  destruct (faces_follow_reordering world1 flat1 [3; 2; 1; 0] world1_fits
              flatten_world1 indices_world1) as (fd & Hrun & Hf).
  exists fd. split; [exact Hrun|].
  assert (0 <= 0 < numfaces (offsets flat1)) as Hi
    by (vm_compute; split; [discriminate|reflexivity]).
  destruct (Hf 0 Hi) as (f & orig & shape & start & vstart & mf & Hat & Ho &
    _ & Hs & Hsum & _ & _ & _ & _ & _ & Hc & _).
  assert (orig = 3) as Ho' by (vm_compute in Ho; congruence).
  rewrite Ho' in Hsum.
  exists f, start. split; [exact Hat|]. split; [exact Hs|].
  split; [exact Hsum|exact Hc].
Defined.

Lemma height_check_witness :
  fits world2 ∧ rebuild_needed strategy0 world2 = true ∧
  stack_budget < max_alloc_size (device1 (2 ^ 32)) ∧
  flatten world2 = Some flat2 ∧
  Preprocess world2 (device1 (2 ^ 32)) strategy0
  = Some (Thrown stack_overflow, device1 (2 ^ 32), strategy0) ∧
  ∃ dev' self',
    Preprocess world1 (device1 (2 ^ 32)) strategy0
    = Some (Returned, dev', self') ∧
    is_Some (m_bvh self').
Proof.
  split; [exact world2_fits|]. split; [reflexivity|].
  split; [reflexivity|]. split; [exact flatten_world2|]. split.
  - destruct (height_check world2 (device1 (2 ^ 32)) strategy0 flat2
                world2_fits eq_refl eq_refl flatten_world2) as (Hhigh & _ & _).
    apply Hhigh. vm_compute. discriminate.
  - destruct (height_check world1 (device1 (2 ^ 32)) strategy0 flat1
                world1_fits eq_refl eq_refl flatten_world1) as (_ & Hlow & _).
    destruct Hlow as (vd & fd & dev' & self' & Hrun & Hbvh & _).
    + vm_compute. reflexivity.
    + exact indices_world1.
    + exists dev', self'. split; [exact Hrun|]. rewrite Hbvh. by eexists.
Defined.

(** C6, as written, fails: a device whose [max_alloc_size] is exactly
    1,048,576 × 48 × 4 bytes is not below the bound, and [Preprocess] throws
    the stack-memory error all the same. *)
Lemma allocation_check_rejects_the_bound :
  ¬ (max_alloc_size (device1 mib192) < 1048576 * 48 * 4) ∧
  Preprocess world1 (device1 mib192) strategy0
  = Some (Thrown no_stack_memory, device1 mib192, strategy0).
Proof. split; [vm_compute; discriminate|reflexivity]. Qed.

Lemma allocation_check_witness :
  rebuild_needed strategy0 world1 = true ∧
  (∃ dev' self',
     Preprocess world1 (device1 mib192) strategy0
     = Some (Thrown no_stack_memory, dev', self')) ∧
  Preprocess world1 (device1 (mib192 + 1)) strategy0
  = rebuild world1 (device1 (mib192 + 1)) (m_gpudata strategy0).
Proof.
  split; [reflexivity|].
  destruct (allocation_check world1 (device1 mib192) strategy0 eq_refl)
    as (_ & _ & _ & Hiff).
  split; [apply Hiff; vm_compute; discriminate|].
  destruct (allocation_check world1 (device1 (mib192 + 1)) strategy0 eq_refl)
    as (_ & _ & Hpass & _).
  apply Hpass. reflexivity.
Defined.

(** C8, on the code. After [Preprocess] the stack buffer has 50,331,648
    bytes. Each of the four query operations, called with 22,369,622 rays,
    computes the required size [4 * 22369622 * 48] in 32 bits, where it is
    128 and not 4,294,967,424; it keeps the buffer, which is then smaller
    than [4 × N × 48] bytes, although that product exceeds its size on
    entry. *)
Theorem large_batch_leaves_stack_too_small :
  4 * many_rays * 48 = 4294967424 ∧
  required_stack_size many_rays = 128 ∧
  ∃ dev1 self1 stack,
    Preprocess world1 (device1 (2 ^ 32)) strategy0
    = Some (Returned, dev1, self1) ∧
    GpuData.stack (m_gpudata self1) = stack ∧
    size_of dev1 stack = Some 50331648 ∧
    stack_after (QueryIntersection 0 rays many_rays hits dev1 self1)
    = Some (stack, 50331648) ∧
    stack_after (QueryOcclusion 0 rays many_rays hits dev1 self1)
    = Some (stack, 50331648) ∧
    stack_after
      (QueryIntersection_indirect 0 rays raycount many_rays hits dev1 self1)
    = Some (stack, 50331648) ∧
    stack_after
      (QueryOcclusion_indirect 0 rays raycount many_rays hits dev1 self1)
    = Some (stack, 50331648).
Proof.
  split; [reflexivity|]. split; [vm_compute; reflexivity|].
  exists after_first.1, after_first.2, (GpuData.stack (m_gpudata after_first.2)).
  split; [exact Preprocess_world1|]. split; [reflexivity|].
  split_and!; vm_compute; reflexivity.
Qed.

(** C9, on the code. [world1] is preprocessed, a query with 1,000,000
    rays grows the stack buffer to 192,000,000 bytes, and the changed world
    is preprocessed again. The rebuild does not keep the stack buffer: the
    strategy's stack pointer now names a new buffer of 50,331,648 bytes,
    and the buffer it named before is still allocated on the device, which
    nothing refers to any more. *)
Theorem rebuild_replaces_the_stack :
  ∃ dev1 self1 dev2 self2 dev3 self3,
    Preprocess world1 (device1 (2 ^ 32)) strategy0
    = Some (Returned, dev1, self1) ∧
    QueryIntersection 0 rays 1000000 hits dev1 self1 = Some (dev2, self2) ∧
    rebuild_needed self2 world1 = true ∧
    Preprocess world1 dev2 self2 = Some (Returned, dev3, self3) ∧
    size_of dev2 (GpuData.stack (m_gpudata self2)) = Some 192000000 ∧
    GpuData.stack (m_gpudata self3) ≠ GpuData.stack (m_gpudata self2) ∧
    size_of dev3 (GpuData.stack (m_gpudata self3)) = Some 50331648 ∧
    size_of dev3 (GpuData.stack (m_gpudata self2)) = Some 192000000 ∧
    holds_no_primary dev3 self2 = true.
Proof.
  exists after_first.1, after_first.2, after_query.1, after_query.2,
    after_rebuild.1, after_rebuild.2.
  split; [exact Preprocess_world1|]. split; [exact Query_after_first|].
  split; [reflexivity|]. split; [exact Preprocess_after_query|].
  split_and!; try (vm_compute; reflexivity). vm_compute. discriminate.
Qed.

(** C10, on the code. [Preprocess] creates the stack buffer with
    1,048,576 × 48 bytes; the first query after it, with 22,369,622 rays,
    which is more than 1,048,576 / 4, does not replace the buffer: the
    device holds the same buffers before and after the call. *)
Theorem large_first_query_keeps_the_stack :
  ∃ dev1 self1 dev2 self2,
    Preprocess world1 (device1 (2 ^ 32)) strategy0
    = Some (Returned, dev1, self1) ∧
    size_of dev1 (GpuData.stack (m_gpudata self1)) = Some (1048576 * 48) ∧
    many_rays > kMaxBatchSize / 4 ∧
    QueryIntersection 0 rays many_rays hits dev1 self1 = Some (dev2, self2) ∧
    self2 = self1 ∧ buffers dev2 = buffers dev1 ∧
    next_handle dev2 = next_handle dev1.
Proof.
  exists after_first.1, after_first.2, after_many.1, after_many.2.
  split; [exact Preprocess_world1|].
  split; [vm_compute; reflexivity|]. split; [reflexivity|].
  split; [exact Query_many_rays|]. split_and!; reflexivity.
Qed.


(** On [world1] the schedule of a team of one thread gives what the loops
    run in index order give. *)
Lemma in_order_world1 :
  write_vertices_parallel flat1
    (in_order (shapes flat1) 0 2) (in_order (shapes flat1) 2 1)
    (replicate (Z.to_nat (numvertices (offsets flat1))) None)
  = write_vertices flat1
      (replicate (Z.to_nat (numvertices (offsets flat1))) None).
Proof. vm_compute. reflexivity. Qed.

Lemma race_world1 :
  write_vertices_parallel flat1 race_schedule instance_schedule
    (replicate (Z.to_nat (numvertices (offsets flat1))) None)
  = Some raced.
Proof. run. Qed.

(** C2, on the code. Both vertex loops are parallel loops, and the matrix
    [m] they transform with is shared by the threads of the team. [world1]
    has two meshes, the quad (shape 0 of the working list, moved by
    (0, 0, 5)) and the triangle (shape 1, not moved). With a thread for
    each, and the [GetTransform] of the triangle's thread coming between
    the [GetTransform] of the quad's thread and its inner loop, the vertex
    pass runs to completion and the quad's vertex 0, at offset
    [mesh_vertices_start_idx[0] + 0], is written transformed by the matrix
    of the triangle, not by the quad's own: the property fails for this
    run. *)
Theorem vertex_loops_race :
  flatten world1 = Some flat1 ∧
  write_vertices_parallel flat1 race_schedule instance_schedule
    (replicate (Z.to_nat (numvertices (offsets flat1))) None)
  = Some raced ∧
  shapes flat1 !! 0%nat = Some (ShapeMesh quad) ∧
  shapes flat1 !! 1%nat = Some (ShapeMesh triangle) ∧
  at_ (mesh_vertices_start_idx (offsets flat1)) 0 = Some 0 ∧
  at_ (GetVertexData quad) 0 = Some (0, 0, 0) ∧
  at_ raced (0 + 0)
  = Some (Some (transform_point (0, 0, 0) (mesh_m triangle))) ∧
  transform_point (0, 0, 0) (mesh_m triangle)
  ≠ transform_point (0, 0, 0) (mesh_m quad) ∧
  ¬ (∀ (k : nat) shape j v,
       shapes flat1 !! k = Some shape →
       at_ (GetVertexData (base_mesh shape)) j = Some v →
       ∃ start,
         at_ (mesh_vertices_start_idx (offsets flat1)) (Z.of_nat k)
         = Some start ∧
         at_ raced (start + j)
         = Some (Some (transform_point v
                         match shape with
                         | ShapeMesh mesh => mesh_m mesh
                         | ShapeInstance instance => inst_m instance
                         end))).
Proof.
  split; [exact flatten_world1|]. split; [exact race_world1|].
  split_and!; [reflexivity..| |].
  - vm_compute. discriminate.
  - intros Hall.
    destruct (Hall 0%nat (ShapeMesh quad) 0 (0, 0, 0) eq_refl eq_refl)
      as (start & Hs & Hat).
    vm_compute in Hs. injection Hs as <-. vm_compute in Hat. discriminate.
Qed.

(** ** The further properties on the concrete scene *)

Lemma flatten_totals_witness :
  fits world1 ∧
  ∃ flat, flatten world1 = Some flat ∧
    numfaces (offsets flat) = 4 ∧ numvertices (offsets flat) = 10 ∧
    nummeshes flat = 2 ∧ numshapes flat = 3.
Proof.
  split; [exact world1_fits|].
  destruct (flatten_totals world1 world1_fits)
    as (flat & Hf & Hnf & Hnv & Hnm & _ & Hns & _).
  exists flat. split; [exact Hf|].
  rewrite Hnf, Hnv, Hnm, Hns. repeat split.
Defined.

Lemma offsets_tile_witness :
  fits world1 ∧ flatten world1 = Some flat1 ∧
  shapes flat1 !! 1%nat = Some (ShapeMesh triangle) ∧
  mesh_faces_start_idx (offsets flat1) !! 1%nat = Some 2 ∧
  mesh_faces_start_idx (offsets flat1) !! 2%nat = Some (2 + 1) ∧
  mesh_vertices_start_idx (offsets flat1) !! 2%nat = Some (4 + 3).
Proof.
  split; [exact world1_fits|]. split; [exact flatten_world1|].
  split; [reflexivity|].
  destruct (offsets_tile world1 flat1 world1_fits flatten_world1 1%nat
              (ShapeMesh triangle) eq_refl)
    as (fstart & vstart & Hf & Hv & _ & _ & _ & Hnext).
  destruct (decide (2 < length (shapes flat1))%nat) as [_|Hn].
  - assert (fstart = 2) as -> by (vm_compute in Hf; congruence).
    assert (vstart = 4) as -> by (vm_compute in Hv; congruence).
    split; [exact Hf|]. exact Hnext.
  - exfalso. apply Hn. vm_compute. repeat constructor.
Defined.

Lemma shape_lookup_witness :
  fits world1 ∧ flatten world1 = Some flat1 ∧
  0 <= 3 < numfaces (offsets flat1) ∧
  ∃ (k : nat) shape,
    std_upper_bound (mesh_faces_start_idx (offsets flat1)) 3 = S k ∧
    shapes flat1 !! k = Some shape.
Proof.
  assert (0 <= 3 < numfaces (offsets flat1)) as Hi
    by (vm_compute; split; [discriminate|reflexivity]).
  split; [exact world1_fits|]. split; [exact flatten_world1|].
  split; [exact Hi|].
  destruct (shape_lookup world1 flat1 3 world1_fits flatten_world1 Hi)
    as (k & shape & start & Hu & Hs & _).
  exists k, shape. split; [exact Hu|exact Hs].
Defined.

Lemma shape_table_witness :
  fits world1 ∧
  ∃ flat, flatten world1 = Some flat ∧
    shapes flat !! 2%nat = Some (ShapeInstance moved_triangle) ∧
    shapedata flat !! 2%nat = Some (ShapeData.mk 9 0 1 0).
Proof.
  split; [exact world1_fits|].
  destruct (shape_table world1 world1_fits) as (flat & Hf & Ht).
  exists flat. split; [exact Hf|].
  rewrite flatten_world1 in Hf. injection Hf as <-.
  split; [reflexivity|].
  exact (Ht 2%nat (ShapeInstance moved_triangle) eq_refl).
Defined.

Lemma bounds_complete_witness :
  fits world1 ∧
  ∃ flat, flatten world1 = Some flat ∧
    ∃ (k : nat) shape start j,
      shapes flat !! k = Some shape ∧
      mesh_faces_start_idx (offsets flat) !! k = Some start ∧
      3 = start + j ∧ 0 <= j < num_faces (base_mesh shape).
Proof.
  split; [exact world1_fits|].
  destruct (bounds_complete world1 world1_fits) as (flat & Hf & Hb).
  exists flat. split; [exact Hf|].
  rewrite flatten_world1 in Hf. injection Hf as <-.
  assert (0 <= 3 < numfaces (offsets flat1)) as Hi
    by (vm_compute; split; [discriminate|reflexivity]).
  destruct (Hb 3 Hi) as (k & shape & start & j & Hs & Hst & Hp & Hj & _).
  exists k, shape, start, j.
  split; [exact Hs|]. split; [exact Hst|]. split; [exact Hp|exact Hj].
Defined.

Lemma vertices_complete_witness :
  fits world1 ∧ flatten world1 = Some flat1 ∧
  ∃ vertexdata,
    write_vertices flat1
      (replicate (Z.to_nat (numvertices (offsets flat1))) None)
    = Some vertexdata ∧
    Z.of_nat (length vertexdata) = 10.
Proof.
  split; [exact world1_fits|]. split; [exact flatten_world1|].
  destruct (vertices_complete world1 flat1 world1_fits flatten_world1)
    as (vd & Hrun & Hlen & _).
  exists vd. split; [exact Hrun|exact Hlen].
Defined.

Lemma world1_well_indexed : well_indexed world1.
Proof.
  unfold well_indexed, indices_valid. cbn.
  repeat (constructor; [try (repeat constructor; cbn; lia)|]).
  constructor.
Qed.

Lemma faces_stay_in_range_witness :
  fits world1 ∧ well_indexed world1 ∧ flatten world1 = Some flat1 ∧
  indices_in_range (numfaces (offsets flat1)) [3; 2; 1; 0] ∧
  ∃ facedata,
    write_faces flat1 [3; 2; 1; 0]
      (replicate (Z.to_nat (numfaces (offsets flat1))) None)
    = Some facedata ∧
    ∃ f, at_ facedata 0 = Some (Some f) ∧
         0 <= Face.shapeidx f < numshapes flat1.
Proof.
  split; [exact world1_fits|]. split; [exact world1_well_indexed|].
  split; [exact flatten_world1|]. split; [exact indices_world1|].
  destruct (faces_stay_in_range world1 flat1 [3; 2; 1; 0] world1_fits
              world1_well_indexed flatten_world1 indices_world1)
    as (fd & Hrun & Hf).
  exists fd. split; [exact Hrun|].
  assert (0 <= 0 < numfaces (offsets flat1)) as Hi
    by (vm_compute; split; [discriminate|reflexivity]).
  destruct (Hf 0 Hi) as (f & shape & vstart & Hat & Hsi & _).
  exists f. split; [exact Hat|exact Hsi].
Defined.

Lemma device1_fresh limit h :
  is_Some (buffers (device1 limit) !! h) →
  (h < next_handle (device1 limit))%positive.
Proof.
  intros [buf Hb]. cbn in *.
  destruct (decide (h < 4)%positive) as [Hlt|Hge]; [done|].
  rewrite !lookup_insert_ne in Hb by lia.
  rewrite lookup_singleton_ne in Hb by lia. done.
Qed.

Lemma after_first_granted : granted after_first.1 after_first.2.
Proof.
  exact (granted_Preprocess world1 (device1 (2 ^ 32)) strategy0 Returned
           after_first.1 after_first.2
           (granted_new (device1 (2 ^ 32)) None (device1_fresh (2 ^ 32)))
           Preprocess_world1).
Qed.

Lemma after_first_bvh : m_bvh after_first.2 = Some bvh1.
Proof. reflexivity. Qed.

Lemma after_first_reachable : reachable after_first.1 after_first.2.
Proof. exact (granted_reachable _ _ after_first_granted). Qed.

Lemma fatal_error_leaves_nothing_witness :
  reachable after_first.1 after_first.2 ∧
  is_Some (m_bvh after_first.2) ∧
  Preprocess world2 after_first.1 after_first.2
  = Some (Thrown stack_overflow, after_high.1, after_high.2) ∧
  m_bvh after_high.2 = None ∧
  live after_high.1 (GpuData.vertices (m_gpudata after_high.2)) = false.
Proof.
  split; [exact after_first_reachable|].
  split; [exists bvh1; exact after_first_bvh|].
  split; [exact Preprocess_too_high|].
  destruct (fatal_error_leaves_nothing world2 after_first.1 after_first.2
              stack_overflow after_high.1 after_high.2
              after_first_reachable Preprocess_too_high) as (_ & Hb & Hp).
  split; [exact Hb|]. apply Hp. unfold primary.
  apply elem_of_cons. right. apply elem_of_cons. left. reflexivity.
Defined.

Lemma installed_bvh_is_backed_witness :
  granted after_first.1 after_first.2 ∧
  m_bvh after_first.2 = Some bvh1 ∧
  height bvh1 < 48 ∧
  1048576 * 48 * 4 < max_alloc_size after_first.1 ∧
  ∃ size, size_of after_first.1 (GpuData.stack (m_gpudata after_first.2))
          = Some size ∧ 1048576 * 48 <= size.
Proof.
  split; [exact after_first_granted|]. split; [exact after_first_bvh|].
  destruct (installed_bvh_is_backed after_first.1 after_first.2 bvh1
              after_first_granted after_first_bvh)
    as (Hh & Hm & _ & _ & Hs).
  split; [exact Hh|]. split; [exact Hm|exact Hs].
Defined.

Lemma after_first_has_bvh : is_Some (m_bvh after_first.2).
Proof. exists bvh1. exact after_first_bvh. Qed.

Lemma queries_are_defined_witness :
  granted after_first.1 after_first.2 ∧
  is_Some (m_bvh after_first.2) ∧
  is_Some (QueryIntersection 0 rays many_rays hits
             after_first.1 after_first.2) ∧
  is_Some (QueryOcclusion_indirect 0 rays raycount many_rays hits
             after_first.1 after_first.2).
Proof.
  split; [exact after_first_granted|]. split; [exact after_first_has_bvh|].
  destruct (queries_are_defined after_first.1 after_first.2
              after_first_granted after_first_has_bvh
              0 rays raycount many_rays hits) as (H1 & _ & _ & H4).
  split; [exact H1|exact H4].
Defined.

Lemma small_queries_keep_the_stack_witness :
  granted after_first.1 after_first.2 ∧
  is_Some (m_bvh after_first.2) ∧
  0 <= 262144 <= 262144 ∧
  QueryIntersection 0 rays 262144 hits after_first.1 after_first.2
  = Some (launch "IntersectClosest" (ArgValue 4 262144) 0 rays hits 262144
            after_first.1 after_first.2, after_first.2).
Proof.
  assert (0 <= 262144 <= 262144) as Hn by lia.
  split; [exact after_first_granted|]. split; [exact after_first_has_bvh|].
  split; [exact Hn|].
  destruct (small_queries_keep_the_stack after_first.1 after_first.2
              0 rays raycount 262144 hits
              after_first_granted after_first_has_bvh Hn) as (H1 & _).
  exact H1.
Defined.

Lemma Preprocess_again_witness :
  Preprocess world1 (device1 (2 ^ 32)) strategy0
  = Some (Returned, after_first.1, after_first.2) ∧
  has_changed world1_unchanged = false ∧
  GetStateChange world1_unchanged = kStateChangeNone ∧
  Preprocess world1_unchanged after_first.1 after_first.2
  = Some (Returned, after_first.1, after_first.2).
Proof.
  split; [exact Preprocess_world1|]. split; [reflexivity|].
  split; [reflexivity|].
  destruct (Preprocess_again world1 (device1 (2 ^ 32)) strategy0
              after_first.1 after_first.2 world1_unchanged
              Preprocess_world1 eq_refl eq_refl) as (_ & Hrun).
  exact Hrun.
Defined.

Lemma failed_Preprocess_frame_witness :
  Preprocess world2 after_first.1 after_first.2
  = Some (Thrown stack_overflow, after_high.1, after_high.2) ∧
  m_gpudata after_high.2 = m_gpudata after_first.2 ∧
  next_handle after_high.1 = next_handle after_first.1 ∧
  executed after_high.1 = executed after_first.1.
Proof.
  split; [exact Preprocess_too_high|].
  destruct (failed_Preprocess_frame world2 after_first.1 after_first.2
              stack_overflow after_high.1 after_high.2 Preprocess_too_high)
    as (Hg & Hn & He & _).
  split; [exact Hg|]. split; [exact Hn|exact He].
Defined.

Lemma Preprocess_launches_nothing_witness :
  Preprocess world1 after_query.1 after_query.2
  = Some (Returned, after_rebuild.1, after_rebuild.2) ∧
  executed after_rebuild.1 = executed after_query.1 ∧
  max_alloc_size after_rebuild.1 = max_alloc_size after_query.1.
Proof.
  split; [exact Preprocess_after_query|].
  destruct (Preprocess_launches_nothing world1 after_query.1 after_query.2
              Returned after_rebuild.1 after_rebuild.2 Preprocess_after_query)
    as (He & Hm & _).
  split; [exact He|exact Hm].
Defined.

Lemma rebuild_allocates_six_witness :
  rebuild_needed strategy0 world1 = true ∧
  Preprocess world1 (device1 (2 ^ 32)) strategy0
  = Some (Returned, after_first.1, after_first.2) ∧
  next_handle after_first.1 = 10%positive ∧
  GpuData.stack (m_gpudata after_first.2) = Some 9%positive ∧
  size_of after_first.1 (GpuData.stack (m_gpudata after_first.2))
  = Some (1048576 * 48).
Proof.
  split; [reflexivity|]. split; [exact Preprocess_world1|].
  destruct (rebuild_allocates_six world1 (device1 (2 ^ 32)) strategy0
              after_first.1 after_first.2 eq_refl Preprocess_world1)
    as (Hg & Hn & _ & Hs & _).
  split; [exact Hn|]. split; [|exact Hs].
  rewrite Hg. reflexivity.
Defined.

Lemma query_effects_witness :
  QueryIntersection 0 rays 1000000 hits after_first.1 after_first.2
  = Some (after_query.1, after_query.2) ∧
  queried "IntersectClosest" (ArgValue 4 1000000) 0 rays hits 1000000
    after_first.1 after_first.2 after_query.1 after_query.2.
Proof.
  split; [exact Query_after_first|].
  destruct (query_effects 0 rays raycount 1000000 hits
              after_first.1 after_first.2 after_query.1 after_query.2)
    as (H1 & _).
  exact (H1 Query_after_first).
Defined.

Lemma required_stack_size_wraps_witness :
  0 <= many_rays ∧
  required_stack_size many_rays = (192 * many_rays) mod 2 ^ 32 ∧
  ¬ required_stack_size many_rays = 192 * many_rays.
Proof.
  assert (0 <= many_rays) as Hn by (vm_compute; discriminate).
  split; [exact Hn|].
  destruct (required_stack_size_wraps many_rays Hn) as (He & _ & Hiff).
  split; [exact He|].
  intros E. apply Hiff in E. vm_compute in E. apply E. reflexivity.
Defined.

Lemma globalsize_rounds_up_witness :
  0 <= 100 <= 2 ^ 32 - 64 ∧ globalsize 100 = 64 * ((100 + 63) / 64).
Proof.
  assert (0 <= 100 <= 2 ^ 32 - 64) as Hn
    by (vm_compute; split; discriminate).
  split; [exact Hn|].
  destruct (globalsize_rounds_up 100 Hn) as (He & _).
  exact He.
Defined.

Lemma globalsize_wraps_witness :
  2 ^ 32 - 64 < 2 ^ 32 - 1 < 2 ^ 32 ∧ globalsize (2 ^ 32 - 1) = 0.
Proof.
  assert (2 ^ 32 - 64 < 2 ^ 32 - 1 < 2 ^ 32) as Hn
    by (vm_compute; split; reflexivity).
  split; [exact Hn|].
  exact (globalsize_wraps (2 ^ 32 - 1) Hn).
Defined.

Lemma faces_are_distinct_witness :
  fits world1 ∧ flatten world1 = Some flat1 ∧
  indices_in_range (numfaces (offsets flat1)) [3; 2; 1; 0] ∧
  NoDup [3; 2; 1; 0] ∧
  ∃ facedata,
    write_faces flat1 [3; 2; 1; 0]
      (replicate (Z.to_nat (numfaces (offsets flat1))) None)
    = Some facedata.
Proof.
  assert (NoDup [3; 2; 1; 0]) as Hnd.
  { repeat (constructor;
            [rewrite ?elem_of_cons, elem_of_nil; intros Hin;
             repeat (destruct Hin as [Hin|Hin]; [discriminate Hin|]);
             exact Hin|]).
    constructor. }
  split; [exact world1_fits|]. split; [exact flatten_world1|].
  split; [exact indices_world1|]. split; [exact Hnd|].
  destruct (faces_are_distinct world1 flat1 [3; 2; 1; 0] world1_fits
              flatten_world1 indices_world1 Hnd) as (fd & Hrun & _).
  exists fd. exact Hrun.
Defined.

Lemma indices_world1_permutation :
  [3; 2; 1; 0] ≡ₚ seqZ 0 (numfaces (offsets flat1)).
Proof.
  change (seqZ 0 (numfaces (offsets flat1))) with [0; 1; 2; 3].
  change [3; 2; 1; 0] with (reverse [0; 1; 2; 3]).
  apply reverse_Permutation.
Qed.

Lemma every_face_is_uploaded_witness :
  fits world1 ∧ flatten world1 = Some flat1 ∧
  [3; 2; 1; 0] ≡ₚ seqZ 0 (numfaces (offsets flat1)) ∧
  ∃ facedata,
    write_faces flat1 [3; 2; 1; 0]
      (replicate (Z.to_nat (numfaces (offsets flat1))) None)
    = Some facedata ∧
    ∃ i f, at_ facedata i = Some (Some f) ∧
           Face.shapeidx f = 2 ∧ Face.id f = 0.
Proof.
  split; [exact world1_fits|]. split; [exact flatten_world1|].
  split; [exact indices_world1_permutation|].
  destruct (every_face_is_uploaded world1 flat1 [3; 2; 1; 0] world1_fits
              flatten_world1 indices_world1_permutation) as (fd & Hrun & Hf).
  exists fd. split; [exact Hrun|].
  assert (0 <= 0 < num_faces (base_mesh (ShapeInstance moved_triangle))) as Hj
    by (vm_compute; split; [discriminate|reflexivity]).
  exact (Hf 2%nat (ShapeInstance moved_triangle) 0 eq_refl Hj).
Defined.



Lemma Preprocess_refused_world1 :
  Preprocess_refused 3 world1 (device1 (2 ^ 32)) strategy0
  = Some (after_refused.1, after_refused.2).
Proof. run. Qed.

Lemma refused_Preprocess_is_not_retried_witness :
  Preprocess_refused 3 world1 (device1 (2 ^ 32)) strategy0
  = Some (after_refused.1, after_refused.2) ∧
  has_changed world1_unchanged = false ∧
  GetStateChange world1_unchanged = kStateChangeNone ∧
  GpuData.stack (m_gpudata after_refused.2) = None ∧
  Preprocess world1_unchanged after_refused.1 after_refused.2
  = Some (Returned, after_refused.1, after_refused.2).
Proof.
  split; [exact Preprocess_refused_world1|]. split; [reflexivity|].
  split; [reflexivity|].
  destruct (refused_Preprocess_is_not_retried 3 world1 (device1 (2 ^ 32))
              strategy0 after_refused.1 after_refused.2 world1_unchanged
              Preprocess_refused_world1 eq_refl eq_refl) as (_ & Hs & Hrun).
  split; [exact Hs|exact Hrun].
Defined.


Lemma failed_Preprocess_is_retried_witness :
  reachable after_first.1 after_first.2 ∧
  Preprocess world2 after_first.1 after_first.2
  = Some (Thrown stack_overflow, after_high.1, after_high.2) ∧
  has_changed world1_unchanged = false ∧
  rebuild_needed after_high.2 world1_unchanged = true.
Proof.
  split; [exact after_first_reachable|]. split; [exact Preprocess_too_high|].
  split; [reflexivity|].
  destruct (failed_Preprocess_is_retried world2 after_first.1 after_first.2
              stack_overflow after_high.1 after_high.2 world1_unchanged
              after_first_reachable Preprocess_too_high) as (Hr & _).
  exact Hr.
Defined.
